(** * code-graph: the two-pass extraction and resolution engine

    A shallow embedding of the analyzer of vymalo/code-graph
    (TypeScript) and the properties of its specification that were
    checked against it.

    Conventions of the embedding.
    - JavaScript strings are [string]; template literals are written
      with [+:+]; numbers that are line numbers, counters or sizes are
      [Z] (or [nat] where they index a list). A string that the code
      takes apart character by character (the value that [parseInt]
      reads, the callee text a callback is named after) is the list of
      its UTF-16 code units ([JsChars]).
    - A JavaScript [Map] is an insertion-ordered association list with
      unique keys ([JsMap]): [Array.from(m.values())] depends on the
      order, and [set] on an existing key keeps its position.
    - A [Set<string>] that is only tested and extended is a [gset string].
    - Objects used as open property bags ([Record<string, any>]) are
      association lists of [JsValue]s.
    - The ts-morph syntax tree is represented by the facts the analyzer
      reads from it (names, kinds, line numbers, parents).
    - Instance ids (the [id] field, produced by [generateInstanceId] from
      a per-run counter) and the descriptive node fields filled by the
      helpers of utils/ts-helpers.ts (type, documentation, end column)
      do not influence any result studied here and are left out; log
      output is kept only for the dispatcher, whose warnings are part
      of its behaviour. *)

From stdpp Require Import base list strings gmap pretty.
From Stdlib Require Import ZArith Lia.

Open Scope Z_scope.

(* ================================================================== *)
(** * JavaScript values and strings *)
(* ================================================================== *)

(** The values stored in [properties] bags. *)
Inductive JsValue : Type :=
  | JUndefined
  | JBool (b : bool)
  | JNumber (z : Z)
  | JString (s : string)
  | JStrings (l : list string).

(** JavaScript truthiness, as used by [if (x)] and [a || b]. *)
Definition truthy (v : JsValue) : bool :=
  match v with
  | JUndefined => false
  | JBool b => b
  | JNumber z => negb (Z.eqb z 0)
  | JString s => negb (String.eqb s "")
  | JStrings _ => true
  end.

Definition Properties := list (string * JsValue).

(** [obj?.key]: [undefined] when the bag or the key is absent. *)
Fixpoint prop_lookup (key : string) (ps : Properties) : JsValue :=
  match ps with
  | [] => JUndefined
  | (k, v) :: ps' => if String.eqb k key then v else prop_lookup key ps'
  end.

Definition opt_prop (key : string) (ps : option Properties) : JsValue :=
  match ps with
  | None => JUndefined
  | Some ps => prop_lookup key ps
  end.

Definition backslash : Ascii.ascii := Ascii.ascii_of_nat 92.
Definition slash : Ascii.ascii := Ascii.ascii_of_nat 47.

(** [s.replace(/\\/g, '/')] *)
Fixpoint normalizeSlashes (s : string) : string :=
  match s with
  | EmptyString => EmptyString
  | String c s' =>
      String (if Ascii.eqb c backslash then slash else c) (normalizeSlashes s')
  end.

(** [s.toLowerCase()] on ASCII letters. *)
Definition lower_ascii (c : Ascii.ascii) : Ascii.ascii :=
  let n := Ascii.nat_of_ascii c in
  if (Nat.leb 65 n && Nat.leb n 90)%bool then Ascii.ascii_of_nat (n + 32) else c.

Fixpoint toLowerCase (s : string) : string :=
  match s with
  | EmptyString => EmptyString
  | String c s' => String (lower_ascii c) (toLowerCase s')
  end.

(** [s.startsWith(p)] and [s.endsWith(p)]. *)
Definition startsWith (s p : string) : bool := String.prefix p s.

Definition endsWith (s p : string) : bool :=
  let n := String.length s in
  let k := String.length p in
  (Nat.leb k n && String.eqb (String.substring (n - k) k s) p)%bool.

(** A number interpolated in a template literal. *)
Definition num (z : Z) : string := pretty z.

(** A JavaScript string as its UTF-16 code units. *)
Definition JsChars := list Z.

(** The code units of a string of ASCII characters. *)
Definition codeUnits (s : string) : JsChars :=
  map (fun c => Z.of_nat (Ascii.nat_of_ascii c)) (String.list_ascii_of_string s).

(* ================================================================== *)
(** * Insertion-ordered maps (the JavaScript [Map]) *)
(* ================================================================== *)

Module JsMap.
Section Defs.
Context {V : Type}.

Definition t := list (string * V).

Definition empty : t := [].

Fixpoint get (k : string) (m : t) : option V :=
  match m with
  | [] => None
  | (k', v) :: m' => if String.eqb k' k then Some v else get k m'
  end.

Definition has (k : string) (m : t) : bool :=
  match get k m with Some _ => true | None => false end.

(** [m.set(k, v)]: replaces in place, or appends a new entry. *)
Fixpoint set (k : string) (v : V) (m : t) : t :=
  match m with
  | [] => [(k, v)]
  | (k', v') :: m' =>
      if String.eqb k' k then (k', v) :: m' else (k', v') :: set k v m'
  end.

Definition keys (m : t) : list string := map fst m.
Definition values (m : t) : list V := map snd m.
Definition entries (m : t) : list (string * V) := m.
Definition size (m : t) : nat := length m.

(** [new Map(entries)] *)
Definition ofEntries (l : list (string * V)) : t :=
  fold_left (fun m kv => set (fst kv) (snd kv) m) l empty.
End Defs.
Arguments t : clear implicits.
End JsMap.

(* ================================================================== *)
(** * Data model (types.ts) *)
(* ================================================================== *)

Record AstNode : Type := mkAstNode {
  entityId : string;
  kind : string;
  name : string;
  filePath : string;
  language : string;
  startLine : Z;
  endLine : Z;
  startColumn : Z;
  loc : option Z;
  isExported : option bool;
  isConstant : option bool;
  complexity : option Z;
  modifierFlags : option (list string);
  properties : option Properties;
  createdAt : string
}.

Record RelationshipInfo : Type := mkRel {
  rel_entityId : string;
  rel_type : string;
  sourceId : string;
  targetId : string;
  rel_weight : option Z;
  rel_properties : option Properties;
  rel_createdAt : string
}.

Record SingleFileParseResult : Type := mkResult {
  res_filePath : string;
  res_nodes : list AstNode;
  res_relationships : list RelationshipInfo
}.

(* ================================================================== *)
(** * Merging the Pass-1 results (parser.ts, [Parser.collectResults]) *)
(* ================================================================== *)

(** What [JSON.parse] of a temporary result file yields: each of the
    three fields may be missing. *)
Record ParsedJson : Type := mkParsedJson {
  json_filePath : option string;
  json_nodes : option (list AstNode);
  json_relationships : option (list RelationshipInfo)
}.

(** A file of the temporary directory; [tmp_content] is [None] when
    reading or parsing it throws (the inner [catch] skips the file). *)
Record TempFile : Type := mkTempFile {
  tmp_name : string;
  tmp_content : option ParsedJson
}.

(** [result.filePath && result.nodes && result.relationships] *)
Definition json_valid (j : ParsedJson) : option SingleFileParseResult :=
  match json_filePath j, json_nodes j, json_relationships j with
  | Some fp, Some ns, Some rs =>
      if String.eqb fp "" then None else Some (mkResult fp ns rs)
  | _, _, _ => None
  end.

Record Collected : Type := mkCollected {
  nodeMap : JsMap.t AstNode;
  relationshipMap : JsMap.t RelationshipInfo
}.

Definition emptyCollected : Collected := mkCollected JsMap.empty JsMap.empty.

(** The per-file map built before merging, and the number of
    intra-file duplicates that is logged. *)
Definition fileNodeMapOf (nodes : list AstNode) : JsMap.t AstNode :=
  fold_left (fun m n => JsMap.set (entityId n) n m) nodes JsMap.empty.

Definition intraFileDuplicates (nodes : list AstNode) : nat :=
  snd (fold_left
         (fun '(m, d) n =>
            (JsMap.set (entityId n) n m,
             if JsMap.has (entityId n) m then S d else d))
         nodes (JsMap.empty, 0%nat)).

(** The body shared by the JSON loop and the TS loop: deduplicate the
    nodes of the file, then write nodes and relationships to the main
    maps. *)
Definition addFileResult (acc : Collected) (r : SingleFileParseResult) : Collected :=
  let fileNodeMap := fileNodeMapOf (res_nodes r) in
  mkCollected
    (fold_left (fun m e => JsMap.set (fst e) (snd e) m)
               (JsMap.entries fileNodeMap) (nodeMap acc))
    (fold_left (fun m rel => JsMap.set (rel_entityId rel) rel m)
               (res_relationships r) (relationshipMap acc)).

Definition collectJson (acc : Collected) (f : TempFile) : Collected :=
  match tmp_content f with
  | None => acc
  | Some j =>
      match json_valid j with
      | Some r => addFileResult acc r
      | None => acc
      end
  end.

Definition collectMaps (tempFiles : list TempFile)
    (tsResults : JsMap.t SingleFileParseResult) : Collected :=
  let jsonFiles := List.filter (fun f => endsWith (tmp_name f) ".json") tempFiles in
  let acc := fold_left collectJson jsonFiles emptyCollected in
  fold_left (fun acc e => addFileResult acc (snd e)) (JsMap.entries tsResults) acc.

(** [collectResults]: [tempFiles] is the listing of the temporary
    directory (empty when [readdir] throws), [tsResults] the in-memory
    results of the TS/JS files. *)
Definition collectResults (tempFiles : list TempFile)
    (tsResults : JsMap.t SingleFileParseResult)
    : list AstNode * list RelationshipInfo :=
  let c := collectMaps tempFiles tsResults in
  (JsMap.values (nodeMap c), JsMap.values (relationshipMap c)).

(** The per-file results that [collectResults] processes, in order. *)
Definition processedResults (tempFiles : list TempFile)
    (tsResults : JsMap.t SingleFileParseResult) : list SingleFileParseResult :=
  omap (fun f => tmp_content f ≫= json_valid)
       (List.filter (fun f => endsWith (tmp_name f) ".json") tempFiles)
  ++ map snd tsResults.

Definition processedNodes tempFiles tsResults : list AstNode :=
  concat (map res_nodes (processedResults tempFiles tsResults)).

Definition processedRelationships tempFiles tsResults : list RelationshipInfo :=
  concat (map res_relationships (processedResults tempFiles tsResults)).

(** The last record of [l] whose key is [k]. *)
Definition lastWith {A : Type} (key : A -> string) (k : string) (l : list A) : option A :=
  List.find (fun x => String.eqb (key x) k) (rev l).

(* ================================================================== *)
(** * Entity identifiers (parser-utils.ts) *)
(* ================================================================== *)

(** The analyzer never builds an [entityId] itself: parsers and
    resolvers receive [generateEntityId] through their context object
    (and [getTargetDeclarationInfo] imports the same function). The
    embedding follows the code and passes the generator along;
    statements quantify over it. *)
Definition EntityIdGenerator := string -> string -> string.

(** Modelled from the spec: parser-utils.ts, which defines
    [generateEntityId], is not among the sources. Section 3.3 of the
    specification says that an [entityId] is "a stable string built
    from (kind, qualifiedName)" and a "deterministic, globally unique
    identifier". This generator is the plainest such string; it is used
    to build concrete contexts for the worked scenarios. *)
Definition generateEntityId : EntityIdGenerator :=
  fun kind qualifiedName => kind +:+ ":" +:+ qualifiedName.

(** "Globally unique": distinct (kind, qualifiedName) pairs never get
    the same identifier. *)
Definition UniqueIds (gen : EntityIdGenerator) : Prop :=
  forall k1 q1 k2 q2, gen k1 q1 = gen k2 q2 -> k1 = k2 /\ q1 = q2.

(** Uniqueness among the ids of one kind. *)
Definition UniqueIdsPerKind (gen : EntityIdGenerator) : Prop :=
  forall k q1 q2, gen k q1 = gen k q2 -> q1 = q2.

(* ================================================================== *)
(** * Cyclomatic complexity (analysis/complexity-analyzer.ts) *)
(* ================================================================== *)

Inductive OperatorToken : Type :=
  | AmpersandAmpersandToken
  | BarBarToken
  | QuestionQuestionToken
  | OtherToken (text : string).

(** The syntax kinds the analyzer distinguishes; every other kind of
    the TypeScript syntax tree is [OtherKind]. A binary expression
    carries its operator token. *)
Inductive SyntaxKind : Type :=
  | IfStatement
  | ForStatement
  | ForInStatement
  | ForOfStatement
  | WhileStatement
  | DoStatement
  | CaseClause
  | CatchClause
  | ConditionalExpression
  | BinaryExpression (operatorToken : OperatorToken)
  | OtherKind (tag : string).

#[warnings="-register-all"]
Inductive SyntaxNode : Type :=
  | Node (getKind : SyntaxKind) (children : list SyntaxNode).

Definition getKind (n : SyntaxNode) : SyntaxKind :=
  match n with Node k _ => k end.

Definition getChildren (n : SyntaxNode) : list SyntaxNode :=
  match n with Node _ cs => cs end.

(** [node.forEachDescendant(cb)]: the callback runs on every proper
    descendant, a node before its own children, siblings in order. The
    callback of the analyzer returns nothing and never asks to skip or
    stop, so the traversal is a fold of the callback's effect on the
    state [S]. *)
Fixpoint forEachDescendant {S : Type} (cb : SyntaxNode -> S -> S)
    (n : SyntaxNode) (s : S) : S :=
  match n with
  | Node _ cs =>
      (fix each (cs : list SyntaxNode) (s : S) : S :=
         match cs with
         | [] => s
         | c :: cs' => each cs' (forEachDescendant cb c (cb c s))
         end) cs s
  end.

(** The body of the callback: [complexity++] under the two tests. *)
Definition complexityStep (descendant : SyntaxNode) (complexity : Z) : Z :=
  match getKind descendant with
  | IfStatement | ForStatement | ForInStatement | ForOfStatement
  | WhileStatement | DoStatement | CaseClause | CatchClause
  | ConditionalExpression => complexity + 1
  | BinaryExpression operatorKind =>
      match operatorKind with
      | AmpersandAmpersandToken | BarBarToken | QuestionQuestionToken =>
          complexity + 1
      | OtherToken _ => complexity
      end
  | OtherKind _ => complexity
  end.

Definition calculateCyclomaticComplexity (node : option SyntaxNode) : Z :=
  match node with
  | None => 1
  | Some n => forEachDescendant complexityStep n 1
  end.

(** The specification's wording, for comparison: the proper
    descendants of a node, and the two kinds of decision points. *)
Fixpoint descendants (n : SyntaxNode) : list SyntaxNode :=
  match n with
  | Node _ cs =>
      (fix each (cs : list SyntaxNode) : list SyntaxNode :=
         match cs with
         | [] => []
         | c :: cs' => c :: descendants c ++ each cs'
         end) cs
  end.

Definition isBranchingKind (n : SyntaxNode) : bool :=
  match getKind n with
  | IfStatement | ForStatement | ForInStatement | ForOfStatement
  | WhileStatement | DoStatement | CaseClause | CatchClause
  | ConditionalExpression => true
  | _ => false
  end.

Definition isLogicalBinary (n : SyntaxNode) : bool :=
  match getKind n with
  | BinaryExpression AmpersandAmpersandToken
  | BinaryExpression BarBarToken
  | BinaryExpression QuestionQuestionToken => true
  | _ => false
  end.

Definition count {A : Type} (p : A -> bool) (l : list A) : Z :=
  Z.of_nat (length (List.filter p l)).

Definition specComplexity (body : option SyntaxNode) : Z :=
  match body with
  | None => 1
  | Some n =>
      1 + count isBranchingKind (descendants n)
        + count isLogicalBinary (descendants n)
  end.

(* ================================================================== *)
(** * What the analyzer reads from the ts-morph project *)
(* ================================================================== *)

Inductive LanguageVariant : Type := Standard | JSX.

Record NamedImport : Type := mkNamedImport {
  ni_name : string;                    (* getName() *)
  ni_alias : option string             (* getAliasNode()?.getText() *)
}.

Record ImportDeclaration : Type := mkImportDeclaration {
  imp_moduleSpecifier : option string; (* getModuleSpecifierValue() *)
  imp_startLine : Z;
  imp_endLine : Z;
  imp_startColumn : Z;
  imp_namedImports : list NamedImport;
  imp_defaultImport : option string;
  imp_namespaceImport : option string;
  imp_isTypeOnly : bool;
  (* getModuleSpecifierSourceFile()?.getFilePath() *)
  imp_resolvedSourceFile : option string
}.

Record ParameterDeclaration : Type := mkParameterDeclaration {
  par_name : string;
  par_startLine : Z;
  par_endLine : Z;
  par_startColumn : Z
}.

(** The nearest enclosing variable declaration of a function
    expression or arrow function, with the export flag of its variable
    statement when it has one. *)
Record VariableAncestor : Type := mkVariableAncestor {
  va_name : option string;
  va_statementExported : option bool;
  va_startLine : Z;
  va_endLine : Z;
  va_startColumn : Z
}.

(** The nearest enclosing call expression: the text of the callee
    ([getExpression().getText()], as its code units) and the result of
    [getArguments().findIndex(arg => arg === declaration)], which is -1
    when the function is not itself one of the arguments. *)
Record CallAncestor : Type := mkCallAncestor {
  ca_calleeText : JsChars;
  ca_argIndex : Z
}.

Inductive FunctionLikeKind : Type :=
  | FunctionDeclarationKind
  | FunctionExpressionKind
  | ArrowFunctionKind.

Record FunctionLike : Type := mkFunctionLike {
  fl_kind : FunctionLikeKind;
  fl_name : option string;
  fl_isExported : bool;
  fl_startLine : Z;
  fl_endLine : Z;
  fl_startColumn : Z;
  fl_variableDecl : option VariableAncestor;
  fl_callExprArg : option CallAncestor;
  fl_modifiers : list string;
  fl_parameters : list ParameterDeclaration;
  fl_node : SyntaxNode
}.

Inductive VariableDeclarationKind : Type := Const | Let | Var.

Record VariableDeclaration : Type := mkVariableDeclaration {
  vd_name : option string;
  (* the initializer is a function expression or an arrow function *)
  vd_initializerIsFunction : bool;
  vd_startLine : Z;
  vd_endLine : Z;
  vd_startColumn : Z
}.

Record VariableStatement : Type := mkVariableStatement {
  vs_isExported : bool;
  vs_declarationKind : VariableDeclarationKind;
  vs_modifiers : list string;
  vs_declarations : list VariableDeclaration
}.

(** The declaration a symbol points to, by the test of
    [getTargetDeclarationInfo] that recognises it. *)
Inductive DeclarationShape : Type :=
  | FunctionDeclarationShape (getName : option string)
  | FunctionExpressionShape (getName : option string)
  | ArrowFunctionShape
  (* parent: [Some n] when the parent is a class or interface whose
     name is [n] *)
  | MethodShape (getName : string) (parent : option (option string))
  | ClassShape (getName : option string)
  | InterfaceShape (getName : string)
  | VariableShape (getName : string) (initializerIsFunction : bool)
  (* funcOrMethod: name, file path and start line of the enclosing
     function-like, when there is one *)
  | ParameterShape (getName : string)
      (funcOrMethod : option (option string * string * Z))
  | TypeAliasShape (getName : string)
  | EnumShape (getName : string)
  | EnumMemberShape (enumName : string) (getName : string)
  | OtherShape.

Record Declaration : Type := mkDeclaration {
  decl_shape : DeclarationShape;
  decl_filePath : string;              (* getSourceFile().getFilePath() *)
  decl_startLine : Z
}.

Record SymbolInfo : Type := mkSymbolInfo {
  sym_name : string;
  sym_declarations : list Declaration
}.

Record Symbol : Type := mkSymbol {
  sym_self : SymbolInfo;
  sym_aliased : option SymbolInfo      (* getAliasedSymbol() *)
}.

Record NamedExport : Type := mkNamedExport {
  ne_name : string;
  (* getSymbol()?.getValueDeclaration(), then that declaration's symbol *)
  ne_localDeclaration : option (option Symbol)
}.

Record ExportDeclaration : Type := mkExportDeclaration {
  exp_moduleSpecifier : option string;
  exp_namedExports : list NamedExport
}.

Record SourceFile : Type := mkSourceFile {
  sf_filePath : string;
  sf_languageVariant : LanguageVariant;
  sf_endLineNumber : Z;
  sf_importDeclarations : list ImportDeclaration;
  sf_functions : list FunctionLike;
  sf_variableStatements : list VariableStatement;
  sf_exportDeclarations : list ExportDeclaration;
  sf_exportAssignments : list (option Symbol)
}.

Definition Project := list SourceFile.

(** [project.getSourceFile(path)] *)
Definition getSourceFile (project : Project) (path : string) : option SourceFile :=
  List.find (fun sf => String.eqb (sf_filePath sf) path) project.

(* ================================================================== *)
(** * Pass 1 for TypeScript/JavaScript (parser.ts and parsers/) *)
(* ================================================================== *)

Record ParserContext : Type := mkParserContext {
  pc_sourceFile : SourceFile;
  pc_fileNode : AstNode;
  pc_generateEntityId : EntityIdGenerator;
  pc_now : string
}.

(** [addNode] and [addRelationship] push on the arrays of the result. *)
Definition addNode (n : AstNode) (r : SingleFileParseResult) : SingleFileParseResult :=
  mkResult (res_filePath r) (res_nodes r ++ [n]) (res_relationships r).

Definition addRel (rel : RelationshipInfo) (r : SingleFileParseResult) : SingleFileParseResult :=
  mkResult (res_filePath r) (res_nodes r) (res_relationships r ++ [rel]).

(** utils/ts-helpers.ts, [getNodeName(node, defaultName)]: for a node
    of a kind that has a name (every caller passes one: a variable,
    function, class, interface, method, parameter, enum or type alias
    declaration) it returns [node.getName() ?? defaultName].
    [nodeName] is the result of [getName()]. *)
Definition getNodeName (nodeName : option string) (fallback : string) : string :=
  default fallback nodeName.

(** [path.basename] of a slash-separated file path. *)
Fixpoint basename (p : string) : string :=
  match p with
  | EmptyString => EmptyString
  | String c p' =>
      if existsb (Ascii.eqb slash) (String.list_ascii_of_string p')
      then basename p'
      else if Ascii.eqb c slash then p' else p
  end.

(** *** import-parser.ts *)

Definition parseImport (ctx : ParserContext) (declaration : ImportDeclaration)
    (r : SingleFileParseResult) : SingleFileParseResult :=
  let fileNode := pc_fileNode ctx in
  let gen := pc_generateEntityId ctx in
  let moduleSpecifier := default "unknown_module" (imp_moduleSpecifier declaration) in
  let startLine := imp_startLine declaration in
  let importName := moduleSpecifier +:+ ":" +:+ num startLine in
  let qualifiedName := filePath fileNode +:+ ":" +:+ importName in
  let importId := gen "import" qualifiedName in
  let namedImports := map ni_name (imp_namedImports declaration) in
  let importNode :=
    {| entityId := importId; kind := "Import"; name := importName;
       filePath := filePath fileNode; language := "TypeScript";
       startLine := startLine; endLine := imp_endLine declaration;
       startColumn := imp_startColumn declaration;
       loc := None; isExported := None; isConstant := None;
       complexity := None; modifierFlags := None;
       properties := Some
         [("moduleSpecifier", JString moduleSpecifier);
          ("namedImports",
            match namedImports with [] => JUndefined | _ => JStrings namedImports end);
          ("defaultImport",
            from_option JString JUndefined (imp_defaultImport declaration));
          ("namespaceImport",
            from_option JString JUndefined (imp_namespaceImport declaration));
          ("isTypeOnly", JBool (imp_isTypeOnly declaration))];
       createdAt := pc_now ctx |} in
  let importRel :=
    {| rel_entityId := gen "imports" (entityId fileNode +:+ ":" +:+ importId);
       rel_type := "IMPORTS";
       sourceId := entityId fileNode;
       targetId := importId;
       rel_weight := Some 1;
       rel_properties := None;
       rel_createdAt := pc_now ctx |} in
  addRel importRel (addNode importNode r).

Definition parseImports (ctx : ParserContext) (r : SingleFileParseResult)
    : SingleFileParseResult :=
  fold_left (fun r d => parseImport ctx d r)
            (sf_importDeclarations (pc_sourceFile ctx)) r.

(** *** parameter-parser.ts *)

Definition parseParameter (ctx : ParserContext) (parentNode : AstNode)
    (param : ParameterDeclaration) (r : SingleFileParseResult)
    : SingleFileParseResult :=
  let gen := pc_generateEntityId ctx in
  let paramName :=
    if String.eqb (par_name param) "" then "anonymousParam" else par_name param in
  let qualifiedName := entityId parentNode +:+ ":" +:+ paramName in
  let paramId := gen "parameter" qualifiedName in
  let paramNode :=
    {| entityId := paramId; kind := "Parameter"; name := paramName;
       filePath := filePath parentNode; language := "TypeScript";
       startLine := par_startLine param; endLine := par_endLine param;
       startColumn := par_startColumn param;
       loc := Some (par_endLine param - par_startLine param + 1);
       isExported := None; isConstant := None; complexity := None;
       modifierFlags := None;
       properties := Some [("parentId", JString (entityId parentNode))];
       createdAt := pc_now ctx |} in
  if existsb (fun n => String.eqb (entityId n) paramId) (res_nodes r)
  then r
  else
    addRel
      {| rel_entityId :=
           gen "has_parameter" (entityId parentNode +:+ ":" +:+ paramId);
         rel_type := "HAS_PARAMETER";
         sourceId := entityId parentNode;
         targetId := paramId;
         rel_weight := Some 8;
         rel_properties := None;
         rel_createdAt := pc_now ctx |}
      (addNode paramNode r).

Definition parseParameters (ctx : ParserContext) (parameters : list ParameterDeclaration)
    (parentNode : AstNode) (r : SingleFileParseResult) : SingleFileParseResult :=
  fold_left (fun r p => parseParameter ctx parentNode p r) parameters r.

(** *** function-parser.ts *)

Definition isIdentifierChar (c : Ascii.ascii) : bool :=
  let n := Ascii.nat_of_ascii c in
  ((Nat.leb 97 n && Nat.leb n 122) || (Nat.leb 65 n && Nat.leb n 90)
   || (Nat.leb 48 n && Nat.leb n 57) || Nat.eqb n 95)%bool.

(** A code unit that [[a-zA-Z0-9_]] matches. *)
Definition isIdentifierUnit (c : Z) : bool :=
  ((Z.leb 97 c && Z.leb c 122) || (Z.leb 65 c && Z.leb c 90)
   || (Z.leb 48 c && Z.leb c 57) || Z.eqb c 95)%bool.

(** What [replace(/[^a-zA-Z0-9_]/g, '_')] puts in the place of one
    code unit: the pattern has no [u] flag, so that every code unit is
    matched on its own (the two halves of a surrogate pair give two
    underscores). *)
Definition replaceUnit (c : Z) : Ascii.ascii :=
  if isIdentifierUnit c then Ascii.ascii_of_nat (Z.to_nat c)
  else Ascii.ascii_of_nat 95.

(** [s.replace(/[^a-zA-Z0-9_]/g, '_')]: the result has one ASCII
    character for each code unit of [s]. *)
Fixpoint replaceNonIdentifier (s : JsChars) : string :=
  match s with
  | [] => EmptyString
  | c :: s' => String (replaceUnit c) (replaceNonIdentifier s')
  end.

(** The name, export flag and position under which a function-like is
    recorded, and whether it is a callback. *)
Definition functionIdentity (declaration : FunctionLike)
    : string * bool * (Z * Z * Z) * bool :=
  let own := (fl_startLine declaration, fl_endLine declaration,
              fl_startColumn declaration) in
  match fl_kind declaration with
  | FunctionExpressionKind | ArrowFunctionKind =>
      match fl_variableDecl declaration with
      | Some variableDecl =>
          (getNodeName (va_name variableDecl) "anonymousFuncExpr",
           default false (va_statementExported variableDecl),
           (va_startLine variableDecl, va_endLine variableDecl,
            va_startColumn variableDecl),
           false)
      | None =>
          match fl_callExprArg declaration with
          | Some callExprArg =>
              let safeCallingFuncName :=
                String.substring 0 30
                  (replaceNonIdentifier (ca_calleeText callExprArg)) in
              ("callback_" +:+ safeCallingFuncName +:+ "_arg"
                 +:+ num (ca_argIndex callExprArg),
               false, own, true)
          | None => ("anonymousLambda", false, own, false)
          end
      end
  | FunctionDeclarationKind =>
      (getNodeName (fl_name declaration) "anonymousFuncDecl",
       fl_isExported declaration, own, false)
  end.

Definition functionNodeOf (ctx : ParserContext) (declaration : FunctionLike) : AstNode :=
  let fileNode := pc_fileNode ctx in
  let '(fname, exported, (startLine, endLine, startColumn), isCallback) :=
    functionIdentity declaration in
  let uniqueQualifiedName :=
    filePath fileNode +:+ ":" +:+ fname +:+ ":" +:+ num startLine in
  {| entityId := pc_generateEntityId ctx "function" uniqueQualifiedName;
     kind := "Function"; name := fname;
     filePath := filePath fileNode; language := "TypeScript";
     startLine := startLine; endLine := endLine; startColumn := startColumn;
     loc := Some (endLine - startLine + 1);
     isExported := Some exported; isConstant := None;
     complexity := Some (calculateCyclomaticComplexity (Some (fl_node declaration)));
     modifierFlags := Some (fl_modifiers declaration);
     properties := Some [("isCallback", JBool isCallback)];
     createdAt := pc_now ctx |}.

Definition parseFunction (ctx : ParserContext) (declaration : FunctionLike)
    (r : SingleFileParseResult) : SingleFileParseResult :=
  let functionNode := functionNodeOf ctx declaration in
  parseParameters ctx (fl_parameters declaration) functionNode
                  (addNode functionNode r).

(** [sf_functions] lists the function declarations, then the function
    expressions, then the arrow functions of the file, as the parser
    collects them. *)
Definition parseFunctions (ctx : ParserContext) (r : SingleFileParseResult)
    : SingleFileParseResult :=
  fold_left (fun r d => parseFunction ctx d r) (sf_functions (pc_sourceFile ctx)) r.

(** *** variable-parser.ts *)

Definition variableNodeOf (ctx : ParserContext) (statement : VariableStatement)
    (declaration : VariableDeclaration) : AstNode :=
  let fileNode := pc_fileNode ctx in
  let vname := getNodeName (vd_name declaration) "anonymousVar" in
  let qualifiedName := filePath fileNode +:+ ":" +:+ vname in
  let uniqueQualifiedName :=
    qualifiedName +:+ ":" +:+ num (vd_startLine declaration) in
  let declarationKind := vs_declarationKind statement in
  {| entityId := pc_generateEntityId ctx "variable" uniqueQualifiedName;
     kind := "Variable"; name := vname;
     filePath := filePath fileNode; language := "TypeScript";
     startLine := vd_startLine declaration; endLine := vd_endLine declaration;
     startColumn := vd_startColumn declaration;
     loc := Some (vd_endLine declaration - vd_startLine declaration + 1);
     isExported := Some (vs_isExported statement);
     isConstant := Some (match declarationKind with Const => true | _ => false end);
     complexity := None;
     modifierFlags :=
       Some (vs_modifiers statement ++
             [match declarationKind with
              | Const => "const" | Let => "let" | Var => "var" end]);
     properties := None;
     createdAt := pc_now ctx |}.

Definition parseVariableStatement (ctx : ParserContext) (statement : VariableStatement)
    (r : SingleFileParseResult) : SingleFileParseResult :=
  fold_left
    (fun r declaration =>
       if vd_initializerIsFunction declaration
       then r                                  (* handled by parseFunctions *)
       else addNode (variableNodeOf ctx statement declaration) r)
    (vs_declarations statement) r.

Definition parseVariables (ctx : ParserContext) (r : SingleFileParseResult)
    : SingleFileParseResult :=
  fold_left (fun r s => parseVariableStatement ctx s r)
            (sf_variableStatements (pc_sourceFile ctx)) r.

(** *** parser.ts, [_parseTsProjectFiles] *)

(** The parsers for classes, interfaces, type aliases and JSX add the
    nodes of constructs that are not part of [SourceFile] here; they
    are passed in, each as the change it makes to the result. *)
Record OtherTsParsers : Type := mkOtherTsParsers {
  parseClasses : ParserContext -> SingleFileParseResult -> SingleFileParseResult;
  parseInterfaces : ParserContext -> SingleFileParseResult -> SingleFileParseResult;
  parseTypeAliases : ParserContext -> SingleFileParseResult -> SingleFileParseResult;
  parseJsx : ParserContext -> SingleFileParseResult -> SingleFileParseResult
}.

(** A file with no class, interface, type alias or JSX element: each of
    these parsers loops over an empty list. *)
Definition noOtherConstructs : OtherTsParsers :=
  mkOtherTsParsers (fun _ r => r) (fun _ r => r) (fun _ r => r) (fun _ r => r).

Definition tsFileNode (gen : EntityIdGenerator) (now : string) (sourceFile : SourceFile)
    : AstNode :=
  let path := normalizeSlashes (sf_filePath sourceFile) in
  {| entityId := gen "file" path; kind := "File"; name := basename path;
     filePath := path;
     language := match sf_languageVariant sourceFile with
                 | JSX => "TSX" | Standard => "TypeScript" end;
     startLine := 1; endLine := sf_endLineNumber sourceFile; startColumn := 0;
     loc := Some (sf_endLineNumber sourceFile);
     isExported := None; isConstant := None; complexity := None;
     modifierFlags := None; properties := None; createdAt := now |}.

Definition parseTsSourceFile (others : OtherTsParsers) (gen : EntityIdGenerator)
    (now : string) (sourceFile : SourceFile) : SingleFileParseResult :=
  let fileNode := tsFileNode gen now sourceFile in
  let ctx := mkParserContext sourceFile fileNode gen now in
  let r := mkResult (filePath fileNode) [fileNode] [] in
  let r := parseImports ctx r in
  let r := parseFunctions ctx r in
  let r := parseClasses others ctx r in
  let r := parseVariables ctx r in
  let r := parseInterfaces others ctx r in
  let r := parseTypeAliases others ctx r in
  if String.eqb (language fileNode) "TSX" then parseJsx others ctx r else r.

(** The loop over the source files of the project: only the files of
    [targetFiles] are parsed, each result is stored under its path. *)
Definition parseTsProjectFiles (others : OtherTsParsers) (gen : EntityIdGenerator)
    (now : string) (project : Project) (targetFiles : list string)
    : JsMap.t SingleFileParseResult :=
  fold_left
    (fun tsResults sourceFile =>
       let path := normalizeSlashes (sf_filePath sourceFile) in
       if existsb (String.eqb path) targetFiles
       then JsMap.set path (parseTsSourceFile others gen now sourceFile) tsResults
       else tsResults)
    project JsMap.empty.

(* ================================================================== *)
(** * Pass 2: symbol resolution (analysis/analyzer-utils.ts) *)
(* ================================================================== *)

Record TargetDeclarationInfo : Type := mkTargetInfo {
  ti_name : string;
  ti_kind : string;
  ti_filePath : string;
  ti_entityId : string
}.

(** The kind, name and base qualified name chosen for a declaration
    (the chain of [Node.is...] tests); [resolved] is the resolved file
    path of the declaration and [symbolName] the name of the symbol. *)
Definition classifyDeclaration (resolveImportPath : string -> string -> string)
    (currentFilePath resolved symbolName : string) (declaration : Declaration)
    : string * string * option string :=
  match decl_shape declaration with
  | FunctionDeclarationShape getName | FunctionExpressionShape getName =>
      let n := default symbolName getName in
      ("Function", n, Some (resolved +:+ ":" +:+ n))
  | ArrowFunctionShape =>
      ("Function", symbolName, Some (resolved +:+ ":" +:+ symbolName))
  | MethodShape n parent =>
      ("Method", n,
       match parent with
       | Some parentName =>
           Some (resolved +:+ ":" +:+ default "AnonymousContainer" parentName
                          +:+ "." +:+ n)
       | None => Some (resolved +:+ ":unknownParent." +:+ n)
       end)
  | ClassShape getName =>
      let n := default symbolName getName in
      ("Class", n, Some (resolved +:+ ":" +:+ n))
  | InterfaceShape n => ("Interface", n, Some (resolved +:+ ":" +:+ n))
  | VariableShape n initializerIsFunction =>
      if initializerIsFunction
      then ("Function", n, Some (resolved +:+ ":" +:+ n))
      else ("Variable", n, Some (resolved +:+ ":" +:+ n))
  | ParameterShape n funcOrMethod =>
      ("Parameter", n,
       match funcOrMethod with
       | Some (parentGetName, parentFilePath, parentStartLine) =>
           let parentName :=
             match parentGetName with
             | Some pn => if String.eqb pn "" then "anonymousParent" else pn
             | None => "anonymousParent"
             end in
           let resolvedParentFilePath :=
             normalizeSlashes (resolveImportPath currentFilePath parentFilePath) in
           let parentQualifiedName :=
             resolvedParentFilePath +:+ ":" +:+ parentName
               +:+ ":" +:+ num parentStartLine in
           Some (parentQualifiedName +:+ ":" +:+ n)
       | None => Some (resolved +:+ ":unknownParent:" +:+ n)
       end)
  | TypeAliasShape n => ("TypeAlias", n, Some (resolved +:+ ":" +:+ n))
  | EnumShape n => ("TypeAlias", n, Some (resolved +:+ ":" +:+ n))
  | EnumMemberShape enumName n =>
      ("TypeAlias", enumName +:+ "." +:+ n, Some (resolved +:+ ":" +:+ enumName))
  | OtherShape => ("unknown", symbolName, None)
  end.

(** [getTargetDeclarationInfo(expression, currentFilePath,
    resolveImportPath, logger)]; [expressionSymbol] is
    [expression.getSymbol()]. *)
Definition getTargetDeclarationInfo (gen : EntityIdGenerator)
    (resolveImportPath : string -> string -> string)
    (expressionSymbol : option Symbol) (currentFilePath : string)
    : option TargetDeclarationInfo :=
  match expressionSymbol with
  | None => None
  | Some symbol0 =>
      let symbol := default (sym_self symbol0) (sym_aliased symbol0) in
      match sym_declarations symbol with
      | [] => None
      | declaration :: _ =>
          let originalFilePath := decl_filePath declaration in
          let resolvedFilePath :=
            normalizeSlashes (resolveImportPath currentFilePath originalFilePath) in
          let '(tkind, tname, base) :=
            classifyDeclaration resolveImportPath currentFilePath
                                resolvedFilePath (sym_name symbol) declaration in
          let qualifiedNameForId :=
            default (resolvedFilePath +:+ ":" +:+ tname) base in
          if String.eqb tkind "unknown" then None
          else
            let qualifiedNameForId :=
              if String.eqb tkind "Function"
              then qualifiedNameForId +:+ ":" +:+ num (decl_startLine declaration)
              else qualifiedNameForId in
            Some {| ti_name := tname; ti_kind := tkind;
                    ti_filePath := resolvedFilePath;
                    ti_entityId := gen (toLowerCase tkind) qualifiedNameForId |}
      end
  end.

(* ================================================================== *)
(** * Pass 2: resolvers (resolvers/, relationship-resolver.ts) *)
(* ================================================================== *)

(** The parts of the resolver context that resolvers read.
    [addRelationship] is the only way a resolver acts on the run; it
    returns nothing, so a resolver is represented by the list of the
    relationships it submits, in order. *)
Record ResolverContext : Type := mkResolverContext {
  nodeIndex : JsMap.t AstNode;
  rc_generateEntityId : EntityIdGenerator;
  rc_resolveImportPath : string -> string -> string;
  rc_now : string
}.

Definition Resolver := SourceFile -> AstNode -> ResolverContext -> list RelationshipInfo.

(** *** ts-resolver.ts *)

Definition findNodeByFilePath (path : string) (context : ResolverContext)
    : option AstNode :=
  let normalizedPath := normalizeSlashes path in
  let identifierForEntityId :=
    if startsWith normalizedPath "/" then normalizedPath else path in
  let fileEntityId := rc_generateEntityId context "file" identifierForEntityId in
  match JsMap.get fileEntityId (nodeIndex context) with
  | Some n => Some n
  | None =>
      JsMap.get (rc_generateEntityId context "pythonmodule" identifierForEntityId)
                (nodeIndex context)
  end.

(** The lookups for one named import, by kind: Function, Class,
    Interface and Variable, in this order. *)
Definition lookupExportedDeclaration (context : ResolverContext)
    (targetFilePath importName : string) : option AstNode :=
  let gen := rc_generateEntityId context in
  let q := targetFilePath +:+ ":" +:+ importName in
  let tryKind k := JsMap.get (gen k q) (nodeIndex context) in
  match tryKind "function" with
  | Some n => Some n
  | None =>
      match tryKind "class" with
      | Some n => Some n
      | None =>
          match tryKind "interface" with
          | Some n => Some n
          | None => tryKind "variable"
          end
      end
  end.

Definition resolveNamedImport (context : ResolverContext)
    (importAstNode targetFileNode : AstNode) (namedImport : NamedImport)
    : list RelationshipInfo :=
  let importName := ni_name namedImport in
  match lookupExportedDeclaration context (filePath targetFileNode) importName with
  | Some targetNode =>
      if (truthy (opt_prop "isExported" (properties targetNode))
          || truthy (opt_prop "isDefaultExport" (properties targetNode)))%bool
      then
        [{| rel_entityId :=
              rc_generateEntityId context "resolves_import"
                (entityId importAstNode +:+ ":" +:+ entityId targetNode);
            rel_type := "RESOLVES_IMPORT";
            sourceId := entityId importAstNode;
            targetId := entityId targetNode;
            rel_weight := Some 8;
            rel_properties := Some
              [("importedSymbol", JString (default importName (ni_alias namedImport)));
               ("targetSymbol", JString importName)];
            rel_createdAt := rc_now context |}]
      else []
  | None => []
  end.

Definition isTruthyString (s : option string) : bool :=
  match s with
  | Some s => negb (String.eqb s "")
  | None => false
  end.

Definition resolveImportDeclaration (fileNode : AstNode) (context : ResolverContext)
    (impDecl : ImportDeclaration) : list RelationshipInfo :=
  let gen := rc_generateEntityId context in
  match imp_moduleSpecifier impDecl with
  | None => []
  | Some moduleSpecifier =>
    if String.eqb moduleSpecifier "" then [] else
    let resolvedImportPath :=
      match imp_resolvedSourceFile impDecl with
      | Some p => p
      | None => rc_resolveImportPath context (filePath fileNode) moduleSpecifier
      end in
    let targetFileNode := findNodeByFilePath resolvedImportPath context in
    let targetFileEntityId :=
      match targetFileNode with
      | Some n => entityId n
      | None => gen "file" resolvedImportPath
      end in
    let isTargetPlaceholder :=
      match targetFileNode with Some _ => false | None => true end in
    let namedImports := imp_namedImports impDecl in
    let defaultImportName := imp_defaultImport impDecl in
    let namespaceImportName := imp_namespaceImport impDecl in
    let importedSymbolsForRel :=
      map (fun ni => default (ni_name ni) (ni_alias ni)) namedImports
      ++ (if isTruthyString defaultImportName
          then [default "" defaultImportName] else [])
      ++ (if isTruthyString namespaceImportName
          then [default "" namespaceImportName] else []) in
    let importsRel :=
      {| rel_entityId :=
           gen "imports" (entityId fileNode +:+ ":" +:+ targetFileEntityId);
         rel_type := "IMPORTS";
         sourceId := entityId fileNode;
         targetId := targetFileEntityId;
         rel_weight := Some 5;
         rel_properties := Some
           [("moduleSpecifier", JString moduleSpecifier);
            ("resolvedPath", JString resolvedImportPath);
            ("isPlaceholder", JBool isTargetPlaceholder);
            ("isDynamicImport", JBool false);
            ("isTypeOnly", JBool (imp_isTypeOnly impDecl));
            ("importedSymbols",
              match importedSymbolsForRel with
              | [] => JUndefined
              | _ => JStrings importedSymbolsForRel
              end)];
         rel_createdAt := rc_now context |} in
    let importAstNodeEntityId :=
      gen "import" (filePath fileNode +:+ ":" +:+ moduleSpecifier +:+ ":"
                      +:+ num (imp_startLine impDecl)) in
    match JsMap.get importAstNodeEntityId (nodeIndex context) with
    | None => [importsRel]              (* [continue]: no RESOLVES_IMPORT *)
    | Some importAstNode =>
        match targetFileNode with
        | None => [importsRel]
        | Some targetFileNode =>
            let named :=
              concat (map (resolveNamedImport context importAstNode targetFileNode)
                          namedImports) in
            let byDefault :=
              if isTruthyString defaultImportName then
                match List.find
                        (fun n =>
                           String.eqb (filePath n) (filePath targetFileNode)
                           && match opt_prop "isDefaultExport" (properties n) with
                              | JBool true => true
                              | _ => false
                              end)%bool
                        (JsMap.values (nodeIndex context)) with
                | Some targetNode =>
                    [{| rel_entityId :=
                          gen "resolves_import"
                            (entityId importAstNode +:+ ":" +:+ entityId targetNode
                               +:+ ":default");
                        rel_type := "RESOLVES_IMPORT";
                        sourceId := entityId importAstNode;
                        targetId := entityId targetNode;
                        rel_weight := Some 8;
                        rel_properties := Some
                          [("importedSymbol", JString (default "" defaultImportName));
                           ("isDefaultImport", JBool true)];
                        rel_createdAt := rc_now context |}]
                | None => []
                end
              else [] in
            let byNamespace :=
              if isTruthyString namespaceImportName then
                [{| rel_entityId :=
                      gen "resolves_import"
                        (entityId importAstNode +:+ ":" +:+ entityId targetFileNode
                           +:+ ":namespace");
                    rel_type := "RESOLVES_IMPORT";
                    sourceId := entityId importAstNode;
                    targetId := entityId targetFileNode;
                    rel_weight := Some 8;
                    rel_properties := Some
                      [("importedSymbol", JString (default "" namespaceImportName));
                       ("isNamespaceImport", JBool true)];
                    rel_createdAt := rc_now context |}]
              else [] in
            importsRel :: named ++ byDefault ++ byNamespace
        end
    end
  end.

Definition exportsRel (context : ResolverContext) (fileNode targetNode : AstNode)
    (suffix : string) (props : Properties) (weight : Z) : RelationshipInfo :=
  {| rel_entityId :=
       rc_generateEntityId context "exports"
         (entityId fileNode +:+ ":" +:+ entityId targetNode +:+ suffix);
     rel_type := "EXPORTS";
     sourceId := entityId fileNode;
     targetId := entityId targetNode;
     rel_weight := Some weight;
     rel_properties := Some props;
     rel_createdAt := rc_now context |}.

(** [getTargetDeclarationInfo] followed by the lookup of its
    [entityId] in the index. *)
Definition resolveToIndexedNode (context : ResolverContext) (fileNode : AstNode)
    (sym : option Symbol) : option AstNode :=
  match getTargetDeclarationInfo (rc_generateEntityId context)
          (rc_resolveImportPath context) sym (filePath fileNode) with
  | Some targetInfo => JsMap.get (ti_entityId targetInfo) (nodeIndex context)
  | None => None
  end.

Definition resolveExportDeclaration (fileNode : AstNode) (context : ResolverContext)
    (expDecl : ExportDeclaration) : list RelationshipInfo :=
  let namedExports := exp_namedExports expDecl in
  if isTruthyString (exp_moduleSpecifier expDecl) then
    let moduleSpecifier := default "" (exp_moduleSpecifier expDecl) in
    let resolvedExportPath :=
      rc_resolveImportPath context (filePath fileNode) moduleSpecifier in
    match findNodeByFilePath resolvedExportPath context with
    | Some targetFileNode =>
        [exportsRel context fileNode targetFileNode ":reexport"
           [("isReExport", JBool true);
            ("reExportedSpecifiers", JStrings (map ne_name namedExports));
            ("sourceModuleSpecifier", JString moduleSpecifier)] 4]
    | None => []
    end
  else
    concat (map
      (fun namedExport =>
         match ne_localDeclaration namedExport with
         | Some localSymbol =>
             match resolveToIndexedNode context fileNode localSymbol with
             | Some targetNode =>
                 [exportsRel context fileNode targetNode ""
                    [("exportedName", JString (ne_name namedExport))] 8]
             | None => []
             end
         | None => []
         end)
      namedExports).

Definition resolveExportAssignment (fileNode : AstNode) (context : ResolverContext)
    (expression : option Symbol) : list RelationshipInfo :=
  match resolveToIndexedNode context fileNode expression with
  | Some targetNode =>
      [exportsRel context fileNode targetNode ":default"
         [("isDefaultExport", JBool true)] 8]
  | None => []
  end.

Definition resolveTsModules : Resolver :=
  fun sourceFile fileNode context =>
    concat (map (resolveImportDeclaration fileNode context)
                (sf_importDeclarations sourceFile))
    ++ concat (map (resolveExportDeclaration fileNode context)
                   (sf_exportDeclarations sourceFile))
    ++ concat (map (resolveExportAssignment fileNode context)
                   (sf_exportAssignments sourceFile)).

(** *** c-cpp-resolver.ts *)

Definition isCLanguage (lang : string) : bool :=
  (String.eqb lang "C" || String.eqb lang "C++")%bool.

Definition resolveIncludeDirective (fileNode : AstNode) (context : ResolverContext)
    (directiveNode : AstNode) : list RelationshipInfo :=
  let gen := rc_generateEntityId context in
  let isSystem := opt_prop "isSystemInclude" (properties directiveNode) in
  match opt_prop "includePath" (properties directiveNode) with
  | JString includePath =>
      if String.eqb includePath "" then [] else
      let targetFileEntityId := gen "file" includePath in
      let isPlaceholder := true in
      [{| rel_entityId :=
            gen "includes" (entityId fileNode +:+ ":" +:+ targetFileEntityId);
          rel_type := "INCLUDES";
          sourceId := entityId fileNode;
          targetId := targetFileEntityId;
          rel_weight := Some 4;
          rel_properties := Some
            [("includePath", JString includePath);
             ("isSystemInclude", isSystem);
             ("isPlaceholder", JBool isPlaceholder)];
          rel_createdAt := rc_now context |}]
  (* [IncludeDirectiveNode] declares [includePath: string]; a missing
     path is skipped with a warning *)
  | _ => []
  end.

Definition includeDirectivesOf (fileNode : AstNode) (context : ResolverContext)
    : list AstNode :=
  List.filter
    (fun node => String.eqb (kind node) "IncludeDirective"
                 && String.eqb (filePath node) (filePath fileNode))%bool
    (JsMap.values (nodeIndex context)).

Definition resolveCIncludes : Resolver :=
  fun _sourceFile fileNode context =>
    if negb (isCLanguage (language fileNode)) then []
    else concat (map (resolveIncludeDirective fileNode context)
                     (includeDirectivesOf fileNode context)).

(** *** relationship-resolver.ts *)

(** The resolvers for inheritance, cross-file calls and mutations, and
    component usage walk the bodies of the syntax tree; they are passed
    in, each as the submissions it makes. *)
Record OtherTsResolvers : Type := mkOtherTsResolvers {
  resolveTsInheritance : Resolver;
  resolveTsCrossFileInteractions : Resolver;
  resolveTsComponentUsage : Resolver
}.

(** The state of one run of [resolveRelationships]: the array
    [this.relationships] and the set [addedRelEntityIds]. *)
Record ResolverState : Type := mkResolverState {
  relationships : list RelationshipInfo;
  addedRelEntityIds : gset string
}.

Definition initialResolverState : ResolverState := mkResolverState [] ∅.

(** [context.addRelationship] *)
Definition addRelationship (st : ResolverState) (rel : RelationshipInfo)
    : ResolverState :=
  if decide (rel_entityId rel ∈ addedRelEntityIds st) then st
  else mkResolverState (relationships st ++ [rel])
                       ({[ rel_entityId rel ]} ∪ addedRelEntityIds st).

Definition submitAll (st : ResolverState) (rels : list RelationshipInfo)
    : ResolverState :=
  fold_left addRelationship rels st.

Definition isTsLanguage (lang : string) : bool :=
  (String.eqb lang "TypeScript" || String.eqb lang "JavaScript")%bool.

(** The submissions made while one file node is processed. *)
Definition fileSubmissions (others : OtherTsResolvers) (project : Project)
    (context : ResolverContext) (fileNode : AstNode) : list RelationshipInfo :=
  (if isTsLanguage (language fileNode) then
     match getSourceFile project (filePath fileNode) with
     | Some sourceFile =>
         resolveTsModules sourceFile fileNode context
         ++ resolveTsInheritance others sourceFile fileNode context
         ++ resolveTsCrossFileInteractions others sourceFile fileNode context
         ++ resolveTsComponentUsage others sourceFile fileNode context
     | None => []
     end
   else [])
  ++
  (if isCLanguage (language fileNode) then
     match getSourceFile project (filePath fileNode) with
     | Some cSourceFile => resolveCIncludes cSourceFile fileNode context
     | None => []
     end
   else []).

Definition isFileKind (n : AstNode) : bool :=
  (String.eqb (kind n) "File" || String.eqb (kind n) "PythonModule")%bool.

(** [new RelationshipResolver(allNodes, pass1Relationships)] followed by
    [resolveRelationships(project)]. The set of Pass-1 relationship ids
    kept by the constructor is never read. *)
Definition resolveRelationships (others : OtherTsResolvers)
    (gen : EntityIdGenerator) (resolveImportPath : string -> string -> string)
    (now : string) (allNodes : list AstNode) (project : Project)
    : list RelationshipInfo :=
  let index := JsMap.ofEntries (map (fun n => (entityId n, n)) allNodes) in
  let context := mkResolverContext index gen resolveImportPath now in
  let fileNodes := List.filter isFileKind (JsMap.values index) in
  relationships
    (fold_left
       (fun st fileNode => submitAll st (fileSubmissions others project context fileNode))
       fileNodes initialResolverState).

(* ================================================================== *)
(** * Configuration (config/index.ts) *)
(* ================================================================== *)

(** The value of an environment variable is read as its code units
    ([JsChars]). White space and line terminators skipped by
    [parseInt] (ECMAScript [StrWhiteSpaceChar]): *)
Definition isStrWhiteSpaceChar (c : Z) : bool :=
  ((9 <=? c) && (c <=? 13) || (c =? 32) || (c =? 160) || (c =? 5760)
   || (8192 <=? c) && (c <=? 8202) || (c =? 8232) || (c =? 8233)
   || (c =? 8239) || (c =? 8287) || (c =? 12288) || (c =? 65279))%bool.

Definition isDecimalDigit (c : Z) : bool := ((48 <=? c) && (c <=? 57))%bool.

Fixpoint skipWhiteSpace (s : JsChars) : JsChars :=
  match s with
  | c :: s' => if isStrWhiteSpaceChar c then skipWhiteSpace s' else s
  | [] => []
  end.

Fixpoint leadingDigits (s : JsChars) : JsChars :=
  match s with
  | c :: s' => if isDecimalDigit c then c :: leadingDigits s' else []
  | [] => []
  end.

(** The value of a run of decimal digits. *)
Definition digitsValue (ds : JsChars) : Z :=
  fold_left (fun acc c => 10 * acc + (c - 48)) ds 0.

(** [parseInt(s, 10)]; [None] is [NaN]. The result is the mathematical
    value; JavaScript stores the nearest double, which is the same
    number up to [2^53]. *)
Definition parseInt10 (s : JsChars) : option Z :=
  let s1 := skipWhiteSpace s in
  let '(sign, s2) :=
    match s1 with
    | c :: r =>
        if c =? 45 then (-1, r)          (* '-' *)
        else if c =? 43 then (1, r)      (* '+' *)
        else (1, s1)
    | [] => (1, s1)
    end in
  match leadingDigits s2 with
  | [] => None
  | ds => Some (sign * digitsValue ds)
  end.

Definition defaultSupportedExtensions : list string :=
  [".ts"; ".tsx"; ".js"; ".jsx";
   ".py";
   ".c"; ".h"; ".cpp"; ".hpp"; ".cc"; ".hh";
   ".java";
   ".cs";
   ".go";
   ".sql"].

(** [parseInt(process.env.STORAGE_BATCH_SIZE || '100', 10)] followed by
    the validation that replaces [NaN] and non-positive values;
    [env] is [None] when the variable is not set. *)
Definition storageBatchSize (env : option JsChars) : Z :=
  let text :=
    match env with
    | None | Some [] => codeUnits "100"
    | Some s => s
    end in
  match parseInt10 text with
  | None => 100
  | Some n => if n <=? 0 then 100 else n
  end.

Definition startsWithDigit (s : JsChars) : bool :=
  match s with
  | c :: _ => isDecimalDigit c
  | [] => false
  end.

(** The specification's wording, for comparison: a string that denotes
    the positive integer [n] in decimal notation. *)
Definition denotesPositiveInteger (s : JsChars) (n : Z) : Prop :=
  s <> [] /\ forallb isDecimalDigit s = true /\ digitsValue s = n /\ 0 < n.

(* ================================================================== *)
(** * The Pass-1 dispatcher (parser.ts, [Parser.parseFiles]) *)
(* ================================================================== *)

Record FileInfo : Type := mkFileInfo {
  fi_path : string;
  fi_name : string;
  fi_extension : string
}.

Inductive ParserKind : Type :=
  | PythonParser | CCppParser | JavaParser | GoParser | CSharpParser.

Inductive LogEntry : Type :=
  | LogWarn (message : string)
  | LogInfo (message : string).

(** What the [switch] does with a file: hand it to a language parser,
    add it to the TS project, or neither (the [default] case, whose
    promise resolves to [null]). *)
Inductive Dispatch : Type :=
  | Delegate (parser : ParserKind)
  | AddToTsProject
  | NoParser.

Definition includes (x : string) (l : list string) : bool :=
  existsb (String.eqb x) l.

Definition dispatch (supportedExtensions : list string) (file : FileInfo)
    : Dispatch * list LogEntry :=
  let ext := fi_extension file in
  if String.eqb ext ".py" then (Delegate PythonParser, [])
  else if includes ext [".c"; ".cpp"; ".h"; ".hpp"] then (Delegate CCppParser, [])
  else if String.eqb ext ".java" then (Delegate JavaParser, [])
  else if String.eqb ext ".go" then (Delegate GoParser, [])
  else if String.eqb ext ".cs" then (Delegate CSharpParser, [])
  else if includes ext [".ts"; ".tsx"; ".js"; ".jsx"; ".mjs"; ".cjs"]
  then (AddToTsProject, [])
  else
    let supportedNonSql :=
      List.filter (fun e => negb (String.eqb e ".sql")) supportedExtensions in
    (NoParser,
     if negb (includes ext supportedNonSql)
     then [LogWarn ("Unsupported file type: " +:+ ext +:+ " for " +:+ fi_path file)]
     else if String.eqb ext ".sql"
     then [LogInfo ("Skipping SQL file due to parser being temporarily disabled: "
                      +:+ fi_path file)]
     else []).

(** The outcome of the dispatch loop: the files handed to each language
    parser, the paths added to the TS project, and the log. *)
Record Pass1Work : Type := mkPass1Work {
  delegated : list (ParserKind * FileInfo);
  tsFilesToAdd : list string;
  dispatchLog : list LogEntry
}.

Definition dispatchFile (supportedExtensions : list string) (w : Pass1Work)
    (file : FileInfo) : Pass1Work :=
  let '(d, logged) := dispatch supportedExtensions file in
  let w := mkPass1Work (delegated w) (tsFilesToAdd w) (dispatchLog w ++ logged) in
  match d with
  | Delegate p =>
      mkPass1Work (delegated w ++ [(p, file)]) (tsFilesToAdd w) (dispatchLog w)
  | AddToTsProject =>
      mkPass1Work (delegated w) (tsFilesToAdd w ++ [fi_path file]) (dispatchLog w)
  | NoParser => w
  end.

Definition dispatchFiles (supportedExtensions : list string) (files : list FileInfo)
    : Pass1Work :=
  fold_left (dispatchFile supportedExtensions) files (mkPass1Work [] [] []).

(** The set of normalized paths of the run; the scanner yields absolute
    paths, on which [path.resolve] changes nothing. *)
Definition targetFilePaths (files : list FileInfo) : list string :=
  map (fun f => normalizeSlashes (fi_path f)) files.

(** The TS/JS half of [parseFiles]: when some file was added, every
    source file of the project that belongs to the run is parsed.
    [addSourceFilesAtPaths] gives the source files of the project once
    the paths are added. *)
Definition parseFilesTs (others : OtherTsParsers) (gen : EntityIdGenerator)
    (now : string) (addSourceFilesAtPaths : list string -> Project)
    (supportedExtensions : list string) (files : list FileInfo)
    : JsMap.t SingleFileParseResult :=
  match tsFilesToAdd (dispatchFiles supportedExtensions files) with
  | [] => JsMap.empty
  | paths =>
      parseTsProjectFiles others gen now (addSourceFilesAtPaths paths)
                          (targetFilePaths files)
  end.

(* ================================================================== *)
(** * The write phase (storage-manager.ts, analyzer-service.ts) *)
(* ================================================================== *)

(** One write transaction: a batch of nodes, or a batch of
    relationships of one type. *)
Inductive Commit : Type :=
  | NodeBatch (batch : list AstNode)
  | RelationshipBatch (relationshipType : string) (batch : list RelationshipInfo).

Definition batchLength (c : Commit) : nat :=
  match c with
  | NodeBatch b => length b
  | RelationshipBatch _ b => length b
  end.

Definition isNodeBatch (c : Commit) : bool :=
  match c with NodeBatch _ => true | RelationshipBatch _ _ => false end.

(** The graph store: the transactions committed so far, oldest first.
    [runTransaction store c] tells whether the store accepts [c]; when
    it does not, the storage manager throws and the write phase ends. *)
Definition Store := list Commit.

Inductive Outcome : Type :=
  | Completed (store : Store)
  | Threw (store : Store).

Definition storeOf (o : Outcome) : Store :=
  match o with Completed s | Threw s => s end.

(** [items.slice(i, i + batchSize)] *)
Definition slice {A : Type} (i j : nat) (items : list A) : list A :=
  take (j - i) (drop i items).

Section WritePhase.
Variable runTransaction : Store -> Commit -> bool.
Variable batchSize : nat.

(** [for (let i = 0; i < items.length; i += batchSize)]; one unit of
    [fuel] per iteration, [None] when the fuel runs out. *)
Fixpoint saveLoop {A : Type} (mk : list A -> Commit) (items : list A)
    (fuel i : nat) (store : Store) : option Outcome :=
  match fuel with
  | O => None
  | S fuel' =>
      if Nat.ltb i (length items) then
        let batch := slice i (i + batchSize) items in
        match batch with
        | [] => saveLoop mk items fuel' (i + batchSize) store
        | _ =>
            if runTransaction store (mk batch)
            then saveLoop mk items fuel' (i + batchSize) (store ++ [mk batch])
            else Some (Threw store)
        end
      else Some (Completed store)
  end.

Definition saveNodesBatch (fuel : nat) (nodes : list AstNode) (store : Store)
    : option Outcome :=
  match nodes with
  | [] => Some (Completed store)
  | _ => saveLoop NodeBatch nodes fuel 0 store
  end.

Definition saveRelationshipsBatch (fuel : nat) (relationshipType : string)
    (rels : list RelationshipInfo) (store : Store) : option Outcome :=
  match rels with
  | [] => Some (Completed store)
  | _ => saveLoop (RelationshipBatch relationshipType) rels fuel 0 store
  end.

(** [relationshipsByType]: an object whose keys are the types, in
    the order of their first occurrence (relationship types are
    upper-case names of the vocabulary, never array indices nor names
    of members of [Object.prototype], so [for ... in] follows
    insertion order). *)
Definition groupByType (rels : list RelationshipInfo)
    : JsMap.t (list RelationshipInfo) :=
  fold_left
    (fun groups rel =>
       JsMap.set (rel_type rel)
                 (default [] (JsMap.get (rel_type rel) groups) ++ [rel])
                 groups)
    rels JsMap.empty.

Fixpoint saveGroups (fuel : nat) (groups : list (string * list RelationshipInfo))
    (store : Store) : option Outcome :=
  match groups with
  | [] => Some (Completed store)
  | (type, batch) :: groups' =>
      match saveRelationshipsBatch fuel type batch store with
      | Some (Completed store') => saveGroups fuel groups' store'
      | other => other
      end
  end.

(** Step 5 of [analyze]: the relationships of both passes are made
    unique by [entityId], the nodes are saved, then the relationships
    type by type. [fuel] bounds the iterations of each save loop. *)
Definition storeResults (fuel : nat) (finalNodes : list AstNode)
    (pass1Relationships pass2Relationships : list RelationshipInfo)
    (store : Store) : option Outcome :=
  let finalRelationships := pass1Relationships ++ pass2Relationships in
  let uniqueRelationships :=
    JsMap.values
      (JsMap.ofEntries (map (fun r => (rel_entityId r, r)) finalRelationships)) in
  match saveNodesBatch fuel finalNodes store with
  | Some (Completed store') =>
      saveGroups fuel (JsMap.entries (groupByType uniqueRelationships)) store'
  | other => other
  end.
End WritePhase.

(** Everything the resolvers submit during one run, in order. *)
Definition allSubmissions (others : OtherTsResolvers)
    (gen : EntityIdGenerator) (resolveImportPath : string -> string -> string)
    (now : string) (allNodes : list AstNode) (project : Project)
    : list RelationshipInfo :=
  let index := JsMap.ofEntries (map (fun n => (entityId n, n)) allNodes) in
  let context := mkResolverContext index gen resolveImportPath now in
  concat (map (fileSubmissions others project context)
              (List.filter isFileKind (JsMap.values index))).

(** The first record of [l] whose key is [k]. *)
Definition firstWith {A : Type} (key : A -> string) (k : string) (l : list A) : option A :=
  List.find (fun x => String.eqb (key x) k) l.

(* ================================================================== *)
(** * Pass 1 and Pass 2 on the same declaration *)
(* ================================================================== *)

(** The symbol the language service gives for a reference to the
    variable declaration [d] of the file [path], whose name is [n]: its
    only declaration is [d] itself. *)
Definition symbolOfVariable (path : string) (d : VariableDeclaration) (n : string)
    : Symbol :=
  mkSymbol
    (mkSymbolInfo n
       [mkDeclaration (VariableShape n (vd_initializerIsFunction d))
                      path (vd_startLine d)])
    None.

(** The resolver given to the parsers of Pass 1:
    [(source, imp) => imp]. *)
Definition pass1ResolveImportPath (source imp : string) : string := imp.

(* ================================================================== *)
(** * The include resolution the specification describes *)
(* ================================================================== *)



(* ================================================================== *)
(** * Worked scenarios *)
(* ================================================================== *)

Definition leaf (tag : string) : SyntaxNode := Node (OtherKind tag) [].

Definition plainFunction (fname : string) (exported : bool) (line : Z)
    (body : list SyntaxNode) : FunctionLike :=
  {| fl_kind := FunctionDeclarationKind; fl_name := Some fname;
     fl_isExported := exported;
     fl_startLine := line; fl_endLine := line + 2; fl_startColumn := 0;
     fl_variableDecl := None; fl_callExprArg := None;
     fl_modifiers := if exported then ["export"] else [];
     fl_parameters := [];
     fl_node := Node (OtherKind "FunctionDeclaration")
                  [leaf "Identifier"; Node (OtherKind "Block") body] |}.

Definition isResolvesImport (r : RelationshipInfo) : bool :=
  String.eqb (rel_type r) "RESOLVES_IMPORT".

Module Scenario1.
(** Scenario 1 of the specification, laid out as in the resolver's
    own test: [a.ts] imports [funcB] from ['./b'] on line 2 and
    calls it in [funcA]; [b.ts] exports [funcB] on line 2. *)
Definition now : string := "2025-01-01T00:00:00.000Z".

Definition fileA : SourceFile :=
  {| sf_filePath := "/src/a.ts"; sf_languageVariant := Standard;
     sf_endLineNumber := 6;
     sf_importDeclarations :=
       [{| imp_moduleSpecifier := Some "./b";
           imp_startLine := 2; imp_endLine := 2; imp_startColumn := 0;
           imp_namedImports := [mkNamedImport "funcB" None];
           imp_defaultImport := None; imp_namespaceImport := None;
           imp_isTypeOnly := false;
           imp_resolvedSourceFile := Some "/src/b.ts" |}];
     sf_functions :=
       [plainFunction "funcA" true 3
          [Node (OtherKind "ExpressionStatement")
             [Node (OtherKind "CallExpression") [leaf "Identifier"]]]];
     sf_variableStatements := [];
     sf_exportDeclarations := [];
     sf_exportAssignments := [] |}.

Definition fileB : SourceFile :=
  {| sf_filePath := "/src/b.ts"; sf_languageVariant := Standard;
     sf_endLineNumber := 5;
     sf_importDeclarations := [];
     sf_functions :=
       [plainFunction "funcB" true 2
          [Node (OtherKind "ExpressionStatement")
             [Node (OtherKind "CallExpression")
                [Node (OtherKind "PropertyAccessExpression")
                   [leaf "Identifier"; leaf "Identifier"];
                 leaf "StringLiteral"]]]];
     sf_variableStatements := [];
     sf_exportDeclarations := [];
     sf_exportAssignments := [] |}.

Definition project : Project := [fileA; fileB].

(** Pass 1, then the merge, for any identifier generator. *)
Definition tsResultsWith (gen : EntityIdGenerator) : JsMap.t SingleFileParseResult :=
  parseTsProjectFiles noOtherConstructs gen now project
                      ["/src/a.ts"; "/src/b.ts"].

Definition pass1NodesWith (gen : EntityIdGenerator) : list AstNode :=
  fst (collectResults [] (tsResultsWith gen)).

Definition contextWith (gen : EntityIdGenerator)
    (resolveImportPath : string -> string -> string) : ResolverContext :=
  mkResolverContext
    (JsMap.ofEntries (map (fun n => (entityId n, n)) (pass1NodesWith gen)))
    gen resolveImportPath now.

(** The same with the plain generator. *)
Definition tsResults : JsMap.t SingleFileParseResult :=
  tsResultsWith generateEntityId.

Definition pass1Nodes : list AstNode := pass1NodesWith generateEntityId.

Definition context (resolveImportPath : string -> string -> string)
    : ResolverContext :=
  contextWith generateEntityId resolveImportPath.

Definition fileANode : AstNode := tsFileNode generateEntityId now fileA.

Definition pass1Relationships : list RelationshipInfo :=
  snd (collectResults [] tsResults).

(** Pass 2 with the module resolver alone. *)
Definition modulesOnly : OtherTsResolvers :=
  mkOtherTsResolvers (fun _ _ _ => []) (fun _ _ _ => []) (fun _ _ _ => []).

Definition pass2Relationships : list RelationshipInfo :=
  resolveRelationships modulesOnly generateEntityId pass1ResolveImportPath now
                       pass1Nodes project.

(** A store that accepts every transaction. *)
Definition acceptAll (store : Store) (c : Commit) : bool := true.

Definition commitSummary (c : Commit) : string * nat :=
  match c with
  | NodeBatch b => ("nodes", length b)
  | RelationshipBatch t b => (t, length b)
  end.

(** A variable of [b.ts], [export const limit = 10;] on line 3. *)
Definition limitDeclaration : VariableDeclaration :=
  mkVariableDeclaration (Some "limit") false 3 3 6.

Definition limitStatement : VariableStatement :=
  mkVariableStatement true Const ["export"] [limitDeclaration].

Definition fileBContext : ParserContext :=
  mkParserContext fileB (tsFileNode generateEntityId now fileB)
                  generateEntityId now.
End Scenario1.

Module Scenario5.
(** Scenario 5: one [.tsx] file with the components [Parent] and
    [Child]; [Parent] renders [<Child prop="x" />]. *)
Definition now : string := "2025-01-01T00:00:00.000Z".

Definition app : SourceFile :=
  {| sf_filePath := "/src/App.tsx"; sf_languageVariant := JSX;
     sf_endLineNumber := 6;
     sf_importDeclarations := [];
     sf_functions :=
       [plainFunction "Parent" false 1
          [Node (OtherKind "ReturnStatement")
             [Node (OtherKind "JsxSelfClosingElement")
                [leaf "Identifier"; Node (OtherKind "JsxAttributes")
                                      [leaf "JsxAttribute"]]]];
        plainFunction "Child" false 4
          [Node (OtherKind "ReturnStatement")
             [Node (OtherKind "JsxSelfClosingElement") [leaf "Identifier"]]]];
     sf_variableStatements := [];
     sf_exportDeclarations := [];
     sf_exportAssignments := [] |}.

Definition isUsesComponent (r : RelationshipInfo) : bool :=
  String.eqb (rel_type r) "USES_COMPONENT".

Definition fileNode : AstNode := tsFileNode generateEntityId now app.

(** The nodes of Pass 1 other than the file node. *)
Definition otherNodes : list AstNode :=
  tail (res_nodes (parseTsSourceFile noOtherConstructs generateEntityId now app)).

(** Resolvers that submit an edge for every file they are given; the
    component-usage resolver submits the expected edge. *)
Definition edge (type source target : string) : RelationshipInfo :=
  {| rel_entityId := generateEntityId (toLowerCase type) (source +:+ ":" +:+ target);
     rel_type := type; sourceId := source; targetId := target;
     rel_weight := Some 7; rel_properties := None; rel_createdAt := now |}.

Definition eagerResolvers : OtherTsResolvers :=
  {| resolveTsInheritance := fun _ _ _ => [];
     resolveTsCrossFileInteractions := fun _ _ _ => [];
     resolveTsComponentUsage := fun _ _ _ =>
       [edge "USES_COMPONENT" "component:/src/App.tsx:Parent"
             "component:/src/App.tsx:Child"] |}.
End Scenario5.

Module Scenario4.
(** Scenario 4: [main.cpp] includes ["shapes/Circle.h"], and the
    header is one of the analyzed files. *)
Definition now : string := "2025-01-01T00:00:00.000Z".

Definition cppNode (nodeKind nodeName path : string) (id : string)
    (props : option Properties) : AstNode :=
  {| entityId := id; kind := nodeKind; name := nodeName; filePath := path;
     language := "C++"; startLine := 1; endLine := 1; startColumn := 0;
     loc := None; isExported := None; isConstant := None; complexity := None;
     modifierFlags := None; properties := props; createdAt := now |}.

Definition mainFile : AstNode :=
  cppNode "File" "main.cpp" "/project/main.cpp"
          (generateEntityId "file" "/project/main.cpp") None.

Definition circleHeader : AstNode :=
  cppNode "File" "Circle.h" "/project/shapes/Circle.h"
          (generateEntityId "file" "/project/shapes/Circle.h") None.

Definition includeCircle : AstNode :=
  cppNode "IncludeDirective" "shapes/Circle.h" "/project/main.cpp"
          (generateEntityId "includedirective" "/project/main.cpp:shapes/Circle.h:2")
          (Some [("includePath", JString "shapes/Circle.h");
                 ("isSystemInclude", JBool false)]).

Definition context (resolveImportPath : string -> string -> string)
    : ResolverContext :=
  mkResolverContext
    (JsMap.ofEntries
       (map (fun n => (entityId n, n)) [mainFile; includeCircle; circleHeader]))
    generateEntityId resolveImportPath now.

(** The nodes of Pass 1 for the two files. *)
Definition nodes : list AstNode := [mainFile; includeCircle; circleHeader].
End Scenario4.

(* ================================================================== *)
(** * Invariants *)
(* ================================================================== *)

(** The invariant of the two maps of [collectResults]. *)
Definition WellKeyed {A : Type} (key : A -> string) (m : JsMap.t A) : Prop :=
  NoDup (JsMap.keys m) /\ forall k x, JsMap.get k m = Some x -> key x = k.

(** The set [addedRelEntityIds] mirrors the recorded relationships. *)
Definition StateOk (st : ResolverState) : Prop :=
  NoDup (map rel_entityId (relationships st))
  /\ forall k, k ∈ addedRelEntityIds st <-> k ∈ map rel_entityId (relationships st).

(** A node without the two export flags in its [properties] bag. *)
Definition Unflagged (n : AstNode) : Prop :=
  truthy (opt_prop "isExported" (properties n)) = false
  /\ truthy (opt_prop "isDefaultExport" (properties n)) = false.

(** The batch size the storage manager reads from the configuration. *)
Definition configuredBatchSize (env : option JsChars) : nat :=
  Z.to_nat (storageBatchSize env).

(* ================================================================== *)
(** * What the write phase leaves in the store *)
(* ================================================================== *)

(** Line 81 of analyzer-service.ts:
    [Array.from(new Map(finalRelationships.map(r => [r.entityId, r])).values())]. *)
Definition uniqueRelationships (finalRelationships : list RelationshipInfo)
    : list RelationshipInfo :=
  JsMap.values
    (JsMap.ofEntries (map (fun r => (rel_entityId r, r)) finalRelationships)).

(** The records of the committed transactions, oldest first. *)
Definition writtenNodes (store : Store) : list AstNode :=
  concat (map (fun c => match c with NodeBatch b => b | RelationshipBatch _ _ => [] end)
              store).

Definition writtenRelationships (store : Store) : list RelationshipInfo :=
  concat (map (fun c => match c with NodeBatch _ => [] | RelationshipBatch _ b => b end)
              store).

(** Every relationship of a committed batch has the type the batch was
    written under. *)
Definition wellTyped (c : Commit) : Prop :=
  match c with
  | NodeBatch _ => True
  | RelationshipBatch t b => Forall (fun r => rel_type r = t) b
  end.

Definition hasType (t : string) (r : RelationshipInfo) : bool :=
  String.eqb (rel_type r) t.

(* ================================================================== *)
(** * Edges and the node index *)
(* ================================================================== *)

(** The edge carries [isPlaceholder: true]. *)
Definition isPlaceholderEdge (r : RelationshipInfo) : bool :=
  match opt_prop "isPlaceholder" (rel_properties r) with
  | JBool true => true
  | _ => false
  end.

Definition indexed (context : ResolverContext) (id : string) : Prop :=
  is_Some (JsMap.get id (nodeIndex context)).

(** The [entityId] of the edge is generated from its type, in lower
    case, and its two ends. *)
Definition idFromEndpoints (gen : EntityIdGenerator) (r : RelationshipInfo) : Prop :=
  rel_entityId r
  = gen (toLowerCase (rel_type r)) (sourceId r +:+ ":" +:+ targetId r).

(** An edge of the module resolver that hangs on the index: it leaves
    the file node, or (a [RESOLVES_IMPORT] edge) an indexed node, and
    it arrives at an indexed node unless it is an [IMPORTS] edge marked
    as a placeholder. *)
Definition Anchored (context : ResolverContext) (fileNode : AstNode)
    (r : RelationshipInfo) : Prop :=
  (rel_type r = "IMPORTS" \/ rel_type r = "RESOLVES_IMPORT" \/ rel_type r = "EXPORTS")
  /\ (rel_type r <> "RESOLVES_IMPORT" -> sourceId r = entityId fileNode)
  /\ (rel_type r = "RESOLVES_IMPORT" -> indexed context (sourceId r))
  /\ (isPlaceholderEdge r = false -> indexed context (targetId r))
  /\ (isPlaceholderEdge r = true -> rel_type r = "IMPORTS")
  /\ (rel_type r = "IMPORTS" -> idFromEndpoints (rc_generateEntityId context) r).

(** The edge carries [isCrossFile: true]. *)
Definition isCrossFileEdge (r : RelationshipInfo) : bool :=
  match opt_prop "isCrossFile" (rel_properties r) with
  | JBool true => true
  | _ => false
  end.

(* ================================================================== *)
(** * Parameters and their edges *)
(* ================================================================== *)

(** A [Parameter] node of [parentNode] and the [HAS_PARAMETER] edge that
    leads to it. *)
Definition isParameterOf (parentNode : AstNode) (n : AstNode)
    (e : RelationshipInfo) : Prop :=
  kind n = "Parameter"
  /\ filePath n = filePath parentNode
  /\ rel_type e = "HAS_PARAMETER"
  /\ sourceId e = entityId parentNode
  /\ targetId e = entityId n.

(** The [entityId] under which a parameter of [parentNode] is recorded. *)
Definition parameterEntityId (gen : EntityIdGenerator) (parentNode : AstNode)
    (param : ParameterDeclaration) : string :=
  gen "parameter"
      (entityId parentNode +:+ ":"
         +:+ (if String.eqb (par_name param) "" then "anonymousParam"
              else par_name param)).

(* ================================================================== *)
(** * Classes, interfaces, type aliases and enums (Pass 1) *)
(* ================================================================== *)

(** What the parsers and the inheritance resolver read from the
    declarations of a source file that [SourceFile] does not list. As
    for functions, the descriptive fields that [AstNode] does not carry
    (abstractness, visibility, return type, tags) are left out. *)
Record MethodDeclaration : Type := mkMethodDeclaration {
  md_name : string;                    (* getName() *)
  md_startLine : Z;
  md_endLine : Z;
  md_startColumn : Z;
  md_parameters : list ParameterDeclaration;
  md_node : SyntaxNode
}.

Record ClassDeclaration : Type := mkClassDeclaration {
  cd_name : option string;             (* getName() *)
  cd_isExported : bool;
  cd_startLine : Z;
  cd_endLine : Z;
  cd_startColumn : Z;
  cd_modifiers : list string;
  cd_methods : list MethodDeclaration;
  (* getExtends(), then the symbol of its expression *)
  cd_extends : option (option Symbol);
  (* getImplements(), each with the symbol of its expression *)
  cd_implements : list (option Symbol)
}.

Record MethodSignature : Type := mkMethodSignature {
  ms_name : string;
  ms_startLine : Z;
  ms_endLine : Z;
  ms_startColumn : Z;
  ms_parameters : list ParameterDeclaration
}.

Record InterfaceDeclaration : Type := mkInterfaceDeclaration {
  id_name : string;
  id_isExported : bool;
  id_startLine : Z;
  id_endLine : Z;
  id_startColumn : Z;
  id_methods : list MethodSignature;
  id_extends : list (option Symbol)
}.

(** A type alias or an enum. *)
Record NamedDeclaration : Type := mkNamedDeclaration {
  nd_name : option string;
  nd_isExported : bool;
  nd_startLine : Z;
  nd_endLine : Z;
  nd_startColumn : Z
}.

Record TsDeclarations : Type := mkTsDeclarations {
  getClasses : list ClassDeclaration;
  getInterfaces : list InterfaceDeclaration;
  getTypeAliases : list NamedDeclaration;
  getEnums : list NamedDeclaration
}.

(** [s || fallback] on a string. *)
Definition orElse (s fallback : string) : string :=
  if String.eqb s "" then fallback else s.

Definition hasMethodRel (ctx : ParserContext) (parentNode methodNode : AstNode)
    : RelationshipInfo :=
  {| rel_entityId :=
       pc_generateEntityId ctx "has_method"
         (entityId parentNode +:+ ":" +:+ entityId methodNode);
     rel_type := "HAS_METHOD";
     sourceId := entityId parentNode;
     targetId := entityId methodNode;
     rel_weight := Some 10;
     rel_properties := None;
     rel_createdAt := pc_now ctx |}.

(** *** [parseClasses] and [parseClassMethods] *)

Definition classMethodNodeOf (ctx : ParserContext) (classNode : AstNode)
    (declaration : MethodDeclaration) : AstNode :=
  let mname := orElse (md_name declaration) "anonymousMethod" in
  let qualifiedName :=
    filePath classNode +:+ ":" +:+ name classNode +:+ "." +:+ mname in
  {| entityId := pc_generateEntityId ctx "method" qualifiedName;
     kind := "Method"; name := mname;
     filePath := filePath classNode; language := "TypeScript";
     startLine := md_startLine declaration; endLine := md_endLine declaration;
     startColumn := md_startColumn declaration;
     loc := Some (md_endLine declaration - md_startLine declaration + 1);
     isExported := None; isConstant := None;
     complexity := Some (calculateCyclomaticComplexity (Some (md_node declaration)));
     modifierFlags := None;
     properties := Some [("parentId", JString (entityId classNode))];
     createdAt := pc_now ctx |}.

Definition parseClassMethods (ctx : ParserContext) (methods : list MethodDeclaration)
    (classNode : AstNode) (r : SingleFileParseResult) : SingleFileParseResult :=
  fold_left
    (fun r declaration =>
       let methodNode := classMethodNodeOf ctx classNode declaration in
       parseParameters ctx (md_parameters declaration) methodNode
         (addRel (hasMethodRel ctx classNode methodNode) (addNode methodNode r)))
    methods r.

Definition classNodeOf (ctx : ParserContext) (declaration : ClassDeclaration) : AstNode :=
  let fileNode := pc_fileNode ctx in
  let cname := orElse (default "" (cd_name declaration)) "AnonymousClass" in
  let qualifiedName := filePath fileNode +:+ ":" +:+ cname in
  {| entityId := pc_generateEntityId ctx "class" qualifiedName;
     kind := "Class"; name := cname;
     filePath := filePath fileNode; language := "TypeScript";
     startLine := cd_startLine declaration; endLine := cd_endLine declaration;
     startColumn := cd_startColumn declaration;
     loc := Some (cd_endLine declaration - cd_startLine declaration + 1);
     isExported := Some (cd_isExported declaration); isConstant := None;
     complexity := None;
     modifierFlags :=
       match cd_modifiers declaration with [] => None | ms => Some ms end;
     properties := None;
     createdAt := pc_now ctx |}.

Definition parseClassesOf (declarationsOf : SourceFile -> TsDeclarations)
    (ctx : ParserContext) (r : SingleFileParseResult) : SingleFileParseResult :=
  fold_left
    (fun r declaration =>
       let classNode := classNodeOf ctx declaration in
       parseClassMethods ctx (cd_methods declaration) classNode (addNode classNode r))
    (getClasses (declarationsOf (pc_sourceFile ctx))) r.

(** *** interface-parser.ts *)

Definition interfaceMethodNodeOf (ctx : ParserContext) (interfaceNode : AstNode)
    (signature : MethodSignature) : AstNode :=
  let mname := orElse (ms_name signature) "anonymousMethodSig" in
  let qualifiedName :=
    filePath interfaceNode +:+ ":" +:+ name interfaceNode +:+ "." +:+ mname in
  {| entityId := pc_generateEntityId ctx "method" qualifiedName;
     kind := "Method"; name := mname;
     filePath := filePath interfaceNode; language := "TypeScript";
     startLine := ms_startLine signature; endLine := ms_endLine signature;
     startColumn := ms_startColumn signature;
     loc := Some (ms_endLine signature - ms_startLine signature + 1);
     isExported := None; isConstant := None; complexity := None;
     modifierFlags := None;
     properties := Some [("parentId", JString (entityId interfaceNode));
                         ("isSignature", JBool true)];
     createdAt := pc_now ctx |}.

Definition parseInterfaceMethods (ctx : ParserContext) (methods : list MethodSignature)
    (interfaceNode : AstNode) (r : SingleFileParseResult) : SingleFileParseResult :=
  fold_left
    (fun r signature =>
       let methodNode := interfaceMethodNodeOf ctx interfaceNode signature in
       parseParameters ctx (ms_parameters signature) methodNode
         (addRel (hasMethodRel ctx interfaceNode methodNode) (addNode methodNode r)))
    methods r.

Definition interfaceNodeOf (ctx : ParserContext) (declaration : InterfaceDeclaration)
    : AstNode :=
  let fileNode := pc_fileNode ctx in
  let iname := orElse (id_name declaration) "AnonymousInterface" in
  let qualifiedName := filePath fileNode +:+ ":" +:+ iname in
  {| entityId := pc_generateEntityId ctx "interface" qualifiedName;
     kind := "Interface"; name := iname;
     filePath := filePath fileNode; language := "TypeScript";
     startLine := id_startLine declaration; endLine := id_endLine declaration;
     startColumn := id_startColumn declaration;
     loc := Some (id_endLine declaration - id_startLine declaration + 1);
     isExported := Some (id_isExported declaration); isConstant := None;
     complexity := None; modifierFlags := None; properties := None;
     createdAt := pc_now ctx |}.

Definition parseInterfacesOf (declarationsOf : SourceFile -> TsDeclarations)
    (ctx : ParserContext) (r : SingleFileParseResult) : SingleFileParseResult :=
  fold_left
    (fun r declaration =>
       let interfaceNode := interfaceNodeOf ctx declaration in
       parseInterfaceMethods ctx (id_methods declaration) interfaceNode
                             (addNode interfaceNode r))
    (getInterfaces (declarationsOf (pc_sourceFile ctx))) r.

(** *** type-alias-parser.ts *)

Definition typeAliasNodeOf (ctx : ParserContext) (fallback : string)
    (props : option Properties) (declaration : NamedDeclaration) : AstNode :=
  let fileNode := pc_fileNode ctx in
  let aname := getNodeName (nd_name declaration) fallback in
  let qualifiedName := filePath fileNode +:+ ":" +:+ aname in
  {| entityId := pc_generateEntityId ctx "typealias" qualifiedName;
     kind := "TypeAlias"; name := aname;
     filePath := filePath fileNode; language := "TypeScript";
     startLine := nd_startLine declaration; endLine := nd_endLine declaration;
     startColumn := nd_startColumn declaration;
     loc := Some (nd_endLine declaration - nd_startLine declaration + 1);
     isExported := Some (nd_isExported declaration); isConstant := None;
     complexity := None; modifierFlags := None; properties := props;
     createdAt := pc_now ctx |}.

Definition parseTypeAliasesOf (declarationsOf : SourceFile -> TsDeclarations)
    (ctx : ParserContext) (r : SingleFileParseResult) : SingleFileParseResult :=
  let declarations := declarationsOf (pc_sourceFile ctx) in
  let r :=
    fold_left
      (fun r declaration =>
         addNode (typeAliasNodeOf ctx "AnonymousTypeAlias" None declaration) r)
      (getTypeAliases declarations) r in
  fold_left
    (fun r declaration =>
       addNode (typeAliasNodeOf ctx "AnonymousEnum"
                                (Some [("isEnum", JBool true)]) declaration) r)
    (getEnums declarations) r.

(** The parsers of [_parseTsProjectFiles] for a project whose
    declarations are given by [declarationsOf]; the JSX parser is still
    passed in. *)
Definition tsParsers (declarationsOf : SourceFile -> TsDeclarations)
    (parseJsx : ParserContext -> SingleFileParseResult -> SingleFileParseResult)
    : OtherTsParsers :=
  {| parseClasses := parseClassesOf declarationsOf;
     parseInterfaces := parseInterfacesOf declarationsOf;
     parseTypeAliases := parseTypeAliasesOf declarationsOf;
     parseJsx := parseJsx |}.

(* ================================================================== *)
(** * Inheritance, calls and component usage (Pass 2, ts-resolver.ts) *)
(* ================================================================== *)

(** The edge for a resolved reference from [sourceNode]. *)
Definition inheritanceRel (context : ResolverContext) (type idKind : string)
    (sourceNode : AstNode) (targetInfo : TargetDeclarationInfo) : RelationshipInfo :=
  let targetNode := JsMap.get (ti_entityId targetInfo) (nodeIndex context) in
  {| rel_entityId :=
       rc_generateEntityId context idKind
         (entityId sourceNode +:+ ":" +:+ ti_entityId targetInfo);
     rel_type := type;
     sourceId := entityId sourceNode;
     targetId := ti_entityId targetInfo;
     rel_weight := Some 9;
     rel_properties := Some
       [("isPlaceholder",
          JBool (match targetNode with Some _ => false | None => true end));
        ("targetName", JString (ti_name targetInfo));
        ("targetKind", JString (ti_kind targetInfo))];
     rel_createdAt := rc_now context |}.

Definition resolveReference (context : ResolverContext) (fileNode : AstNode)
    (type idKind : string) (sourceNode : AstNode) (expression : option Symbol)
    : list RelationshipInfo :=
  match getTargetDeclarationInfo (rc_generateEntityId context)
          (rc_resolveImportPath context) expression (filePath fileNode) with
  | Some targetInfo => [inheritanceRel context type idKind sourceNode targetInfo]
  | None => []
  end.

Definition resolveClassInheritance (fileNode : AstNode) (context : ResolverContext)
    (declaration : ClassDeclaration) : list RelationshipInfo :=
  match cd_name declaration with
  | None => []
  | Some className =>
      if String.eqb className "" then [] else
      let classEntityId :=
        rc_generateEntityId context "class"
          (filePath fileNode +:+ ":" +:+ className) in
      match JsMap.get classEntityId (nodeIndex context) with
      | None => []
      | Some classNode =>
          match cd_extends declaration with
          | Some baseClassRef =>
              resolveReference context fileNode "EXTENDS" "extends" classNode
                               baseClassRef
          | None => []
          end
          ++ concat (map (resolveReference context fileNode "IMPLEMENTS"
                                           "implements" classNode)
                         (cd_implements declaration))
      end
  end.

Definition resolveInterfaceInheritance (fileNode : AstNode)
    (context : ResolverContext) (declaration : InterfaceDeclaration)
    : list RelationshipInfo :=
  let interfaceName := id_name declaration in
  if String.eqb interfaceName "" then [] else
  let interfaceEntityId :=
    rc_generateEntityId context "interface"
      (filePath fileNode +:+ ":" +:+ interfaceName) in
  match JsMap.get interfaceEntityId (nodeIndex context) with
  | None => []
  | Some interfaceNode =>
      concat (map (resolveReference context fileNode "EXTENDS" "extends"
                                    interfaceNode)
                  (id_extends declaration))
  end.

Definition resolveTsInheritanceOf (declarationsOf : SourceFile -> TsDeclarations)
    : Resolver :=
  fun sourceFile fileNode context =>
    concat (map (resolveClassInheritance fileNode context)
                (getClasses (declarationsOf sourceFile)))
    ++ concat (map (resolveInterfaceInheritance fileNode context)
                   (getInterfaces (declarationsOf sourceFile))).

(** *** Bodies: calls, assignments and catch clauses *)

Definition isConditionalKind (k : SyntaxKind) : bool :=
  match k with
  | IfStatement | ConditionalExpression | ForStatement | ForInStatement
  | ForOfStatement | WhileStatement | DoStatement => true
  | OtherKind tag => String.eqb tag "SwitchStatement"
  | _ => false
  end.

(** [isInsideConditionalContext(node, boundaryNode)]; [parents] are
    the kinds of the ancestors of the node, from its parent up to the
    boundary, which is not included. *)
Fixpoint isInsideConditionalContext (parents : list SyntaxKind) : bool :=
  match parents with
  | [] => false
  | k :: parents' =>
      if isConditionalKind k then true else isInsideConditionalContext parents'
  end.

Record CallExpression : Type := mkCallExpression {
  call_expression : option Symbol;     (* getExpression().getSymbol() *)
  call_startLine : Z;
  call_column : Z;
  call_isAwaited : bool;               (* the parent is an await expression *)
  call_parents : list SyntaxKind
}.

(** An assignment with the [=] operator; [asg_target] is the symbol of
    the left-hand side, or of its name node for a property access. *)
Record Assignment : Type := mkAssignment {
  asg_target : option Symbol;
  asg_startLine : Z;
  asg_column : Z
}.

(** The catch clause of a try statement that has one. *)
Record CatchClauseInfo : Type := mkCatchClauseInfo {
  catch_binding : option string;       (* getVariableDeclaration()?.getName() *)
  catch_startLine : Z;
  catch_column : Z
}.

Record Body : Type := mkBody {
  body_calls : list CallExpression;
  body_assignments : list Assignment;
  body_catches : list CatchClauseInfo
}.

(** [isCrossFile]: the target is indexed and lies in another file. *)
Definition isCrossFileTarget (sourceNode : AstNode) (targetNode : option AstNode)
    : bool :=
  match targetNode with
  | Some t => negb (String.eqb (filePath t) (filePath sourceNode))
  | None => false
  end.

Definition isMissing (targetNode : option AstNode) : bool :=
  match targetNode with Some _ => false | None => true end.

Definition resolveCall (sourceNode : AstNode) (context : ResolverContext)
    (callExpr : CallExpression) : list RelationshipInfo :=
  match getTargetDeclarationInfo (rc_generateEntityId context)
          (rc_resolveImportPath context) (call_expression callExpr)
          (filePath sourceNode) with
  | None => []
  | Some targetInfo =>
      let targetNode := JsMap.get (ti_entityId targetInfo) (nodeIndex context) in
      let isCrossFile := isCrossFileTarget sourceNode targetNode in
      [{| rel_entityId :=
            rc_generateEntityId context "calls"
              (entityId sourceNode +:+ ":" +:+ ti_entityId targetInfo);
          rel_type := "CALLS";
          sourceId := entityId sourceNode;
          targetId := ti_entityId targetInfo;
          rel_weight := Some (if isCrossFile then 6 else 7);
          rel_properties := Some
            [("callSiteLine", JNumber (call_startLine callExpr));
             ("callSiteColumn", JNumber (call_column callExpr));
             ("isAwaited", JBool (call_isAwaited callExpr));
             ("isConditional",
               JBool (isInsideConditionalContext (call_parents callExpr)));
             ("isCrossFile", JBool isCrossFile);
             ("targetName", JString (ti_name targetInfo));
             ("targetKind", JString (ti_kind targetInfo));
             ("isPlaceholder", JBool (isMissing targetNode))];
          rel_createdAt := rc_now context |}]
  end.

Definition resolveAssignment (sourceNode : AstNode) (context : ResolverContext)
    (assignment : Assignment) : list RelationshipInfo :=
  match getTargetDeclarationInfo (rc_generateEntityId context)
          (rc_resolveImportPath context) (asg_target assignment)
          (filePath sourceNode) with
  | None => []
  | Some targetInfo =>
      let targetNode := JsMap.get (ti_entityId targetInfo) (nodeIndex context) in
      let isCrossFile := isCrossFileTarget sourceNode targetNode in
      [{| rel_entityId :=
            rc_generateEntityId context "mutates_state"
              (entityId sourceNode +:+ ":" +:+ ti_entityId targetInfo);
          rel_type := "MUTATES_STATE";
          sourceId := entityId sourceNode;
          targetId := ti_entityId targetInfo;
          rel_weight := Some 8;
          rel_properties := Some
            [("startLine", JNumber (asg_startLine assignment));
             ("column", JNumber (asg_column assignment));
             ("isCrossFile", JBool isCrossFile);
             ("targetName", JString (ti_name targetInfo));
             ("targetKind", JString (ti_kind targetInfo));
             ("isPlaceholder", JBool (isMissing targetNode))];
          rel_createdAt := rc_now context |}]
  end.

Definition resolveCatch (sourceNode : AstNode) (context : ResolverContext)
    (catchClause : CatchClauseInfo) : RelationshipInfo :=
  let gen := rc_generateEntityId context in
  let catchStartLine := catch_startLine catchClause in
  let '(targetEntityId, targetName) :=
    match catch_binding catchClause with
    | Some bindingName =>
        let targetName := orElse bindingName "errorParam" in
        (gen "parameter"
             (entityId sourceNode +:+ ":catch:" +:+ targetName +:+ ":"
                +:+ num catchStartLine),
         targetName)
    | None =>
        (gen "error_handler"
             (entityId sourceNode +:+ ":handler:" +:+ num catchStartLine),
         "anonymousCatch")
    end in
  {| rel_entityId :=
       gen "handles_error" (entityId sourceNode +:+ ":" +:+ targetEntityId);
     rel_type := "HANDLES_ERROR";
     sourceId := entityId sourceNode;
     targetId := targetEntityId;
     rel_weight := Some 5;
     rel_properties := Some
       [("catchStartLine", JNumber catchStartLine);
        ("catchColumn", JNumber (catch_column catchClause));
        ("targetName", JString targetName)];
     rel_createdAt := rc_now context |}.

Definition analyzeTsBodyInteractions (body : Body) (sourceNode : AstNode)
    (context : ResolverContext) : list RelationshipInfo :=
  concat (map (resolveCall sourceNode context) (body_calls body))
  ++ concat (map (resolveAssignment sourceNode context) (body_assignments body))
  ++ map (resolveCatch sourceNode context) (body_catches body).

(** A function declaration or method declaration of a source file:
    its own symbol and its body, when it has one. *)
Record BodyOwner : Type := mkBodyOwner {
  owner_symbol : option Symbol;
  owner_body : option Body
}.

Record TsBodies : Type := mkTsBodies {
  getFunctions : list BodyOwner;           (* sourceFile.getFunctions() *)
  getMethodDeclarations : list BodyOwner   (* the MethodDeclaration descendants *)
}.

Definition resolveOwner (fileNode : AstNode) (context : ResolverContext)
    (owner : BodyOwner) : list RelationshipInfo :=
  match owner_body owner with
  | None => []
  | Some body =>
      match resolveToIndexedNode context fileNode (owner_symbol owner) with
      | Some sourceNode => analyzeTsBodyInteractions body sourceNode context
      | None => []
      end
  end.

Definition resolveTsCrossFileInteractionsOf (bodiesOf : SourceFile -> TsBodies)
    : Resolver :=
  fun sourceFile fileNode context =>
    concat (map (resolveOwner fileNode context) (getFunctions (bodiesOf sourceFile)))
    ++ concat (map (resolveOwner fileNode context)
                   (getMethodDeclarations (bodiesOf sourceFile))).

(** *** Component usage *)

(** [/^[A-Z]/.test(s)] *)
Definition startsUpperCase (s : string) : bool :=
  match s with
  | EmptyString => false
  | String c _ =>
      let n := Ascii.nat_of_ascii c in (Nat.leb 65 n && Nat.leb n 90)%bool
  end.

(** A JSX element or self-closing element. [jsx_enclosing] lists, from
    the innermost outwards, the ancestors at which the search for the
    using component looks: variable declarations (through their
    initializer when it is function-like or a class), function-likes
    and class declarations, each as the symbol of the node that is
    resolved; the other ancestors are stepped over. *)
Record JsxUsage : Type := mkJsxUsage {
  jsx_tagName : string;
  jsx_tagSymbol : option Symbol;
  jsx_enclosing : list (option Symbol)
}.

Definition isComponent (n : AstNode) : bool := String.eqb (kind n) "Component".

(** The lookup of a resolved reference that only accepts [Component]
    nodes. *)
Definition resolveToComponent (context : ResolverContext) (fileNode : AstNode)
    (sym : option Symbol) : option AstNode :=
  match resolveToIndexedNode context fileNode sym with
  | Some n => if isComponent n then Some n else None
  | None => None
  end.

Fixpoint findSourceComponent (context : ResolverContext) (fileNode : AstNode)
    (enclosing : list (option Symbol)) : option AstNode :=
  match enclosing with
  | [] => None
  | ancestor :: enclosing' =>
      match resolveToComponent context fileNode ancestor with
      | Some n => Some n
      | None => findSourceComponent context fileNode enclosing'
      end
  end.

Definition resolveJsxUsage (fileNode : AstNode) (context : ResolverContext)
    (jsxNode : JsxUsage) : list RelationshipInfo :=
  if negb (startsUpperCase (jsx_tagName jsxNode)) then [] else
  match getTargetDeclarationInfo (rc_generateEntityId context)
          (rc_resolveImportPath context) (jsx_tagSymbol jsxNode)
          (filePath fileNode) with
  | None => []
  | Some targetInfo =>
      match JsMap.get (ti_entityId targetInfo) (nodeIndex context) with
      | None => []
      | Some targetComponentNode =>
          if negb (isComponent targetComponentNode) then [] else
          match findSourceComponent context fileNode (jsx_enclosing jsxNode) with
          | None => []
          | Some sourceComponentNode =>
              [{| rel_entityId :=
                    rc_generateEntityId context "uses_component"
                      (entityId sourceComponentNode +:+ ":"
                         +:+ ti_entityId targetInfo);
                  rel_type := "USES_COMPONENT";
                  sourceId := entityId sourceComponentNode;
                  targetId := ti_entityId targetInfo;
                  rel_weight := Some 7;
                  rel_properties := Some
                    [("isCrossFile",
                       JBool (negb (String.eqb (filePath sourceComponentNode)
                                               (filePath targetComponentNode))));
                     ("targetName", JString (ti_name targetInfo));
                     ("isPlaceholder",
                       JBool (negb (JsMap.has (ti_entityId targetInfo)
                                              (nodeIndex context))))];
                  rel_createdAt := rc_now context |}]
          end
      end
  end.

(** [jsxOf] gives the JSX elements of a source file, then its
    self-closing elements. *)
Definition resolveTsComponentUsageOf (jsxOf : SourceFile -> list JsxUsage)
    : Resolver :=
  fun sourceFile fileNode context =>
    concat (map (resolveJsxUsage fileNode context) (jsxOf sourceFile)).

(** The resolvers of ts-resolver.ts beside [resolveTsModules]. *)
Definition tsResolvers (declarationsOf : SourceFile -> TsDeclarations)
    (bodiesOf : SourceFile -> TsBodies) (jsxOf : SourceFile -> list JsxUsage)
    : OtherTsResolvers :=
  {| resolveTsInheritance := resolveTsInheritanceOf declarationsOf;
     resolveTsCrossFileInteractions := resolveTsCrossFileInteractionsOf bodiesOf;
     resolveTsComponentUsage := resolveTsComponentUsageOf jsxOf |}.

(** *** component-parser.ts *)

(** [s.includes(sub)] *)
Definition includesText (s sub : string) : bool :=
  match String.index 0 sub s with Some _ => true | None => false end.

Definition mentionsJsxType (typeText : option string) : bool :=
  match typeText with
  | Some t => (includesText t "JSX.Element" || includesText t "ReactElement")%bool
  | None => false
  end.

(** What [isPotentialComponent] reads: the return type annotation and
    whether the node has JSX descendants; for a class also its
    [render] method, for a variable its initializer and its type
    annotation. *)
Inductive ComponentShape : Type :=
  | FunctionComponent (returnTypeText : option string) (hasJsx : bool)
  | ClassComponent (renderMethod : option (option string * bool)) (hasJsx : bool)
  | VariableComponent (initializerIsFunction : bool) (typeText : option string)
      (initializerHasJsx : bool).

(** A node handed to [parseComponent]: its name, its shape, the
    position of the declaration (of the initializer, for a variable
    initialised by a function) and the export keywords. *)
Record ComponentCandidate : Type := mkComponentCandidate {
  cand_name : option string;
  cand_shape : ComponentShape;
  cand_startLine : Z;
  cand_endLine : Z;
  cand_start : Z;                      (* getStart() *)
  cand_hasExportKeyword : bool;
  cand_hasDefaultKeyword : bool
}.

Definition isPotentialComponent (node : ComponentCandidate) : bool :=
  match cand_name node with
  | None => false
  | Some componentName =>
      if negb (startsUpperCase componentName) then false
      else
        match cand_shape node with
        | FunctionComponent returnTypeText hasJsx =>
            (mentionsJsxType returnTypeText || hasJsx)%bool
        | ClassComponent renderMethod hasJsx =>
            (match renderMethod with
             | Some (returnTypeText, renderHasJsx) =>
                 (mentionsJsxType returnTypeText || renderHasJsx)%bool
             | None => false
             end
             || hasJsx)%bool
        | VariableComponent initializerIsFunction typeText initializerHasJsx =>
            (initializerIsFunction
             && (match typeText with
                 | Some t =>
                     (includesText t "JSX.Element" || includesText t "React.FC"
                      || includesText t "ReactElement")%bool
                 | None => false
                 end
                 || initializerHasJsx))%bool
        end
  end.

Definition parseComponent (gen : EntityIdGenerator) (node : ComponentCandidate)
    (path now : string) : option AstNode :=
  match cand_name node with
  | None => None
  | Some componentName =>
      if String.eqb componentName "" then None
      else if negb (isPotentialComponent node) then None
      else
        Some
          {| entityId := gen "component" (path +:+ ":" +:+ componentName);
             kind := "Component"; name := componentName;
             filePath := path;
             language :=
               if (endsWith path ".tsx" || endsWith path ".jsx")%bool
               then "TSX" else "TypeScript";
             startLine := cand_startLine node; endLine := cand_endLine node;
             startColumn := cand_start node;
             loc := None; isExported := None; isConstant := None;
             complexity := None; modifierFlags := None;
             properties := Some
               [("isExported", JBool (cand_hasExportKeyword node));
                ("isDefaultExport", JBool (cand_hasDefaultKeyword node))];
             createdAt := now |}
  end.

(** The kinds [getTargetDeclarationInfo] gives its results. *)
Definition targetKinds : list string :=
  ["Function"; "Method"; "Class"; "Interface"; "Variable"; "Parameter";
   "TypeAlias"].

(** The identifiers of components are apart from the identifiers that
    Pass 2 computes for the targets of references. *)
Definition ComponentIdsApart (gen : EntityIdGenerator) : Prop :=
  forall k q q', k ∈ targetKinds -> gen (toLowerCase k) q <> gen "component" q'.

Module Scenario5b.
(** Scenario 5 again, with the [Component] nodes that [parseComponent]
    gives for [Parent] and [Child] added to the nodes of Pass 1, and
    with the usage [<Child prop="x" />] inside [Parent]. *)
Definition candidate (componentName : string) (line : Z) : ComponentCandidate :=
  {| cand_name := Some componentName;
     cand_shape := FunctionComponent None true;
     cand_startLine := line; cand_endLine := line + 2; cand_start := 0;
     cand_hasExportKeyword := false; cand_hasDefaultKeyword := false |}.

Definition components : list AstNode :=
  omap (fun c => parseComponent generateEntityId c "/src/App.tsx" Scenario5.now)
       [candidate "Parent" 1; candidate "Child" 4].

Definition allNodes : list AstNode :=
  Scenario5.fileNode :: Scenario5.otherNodes ++ components.

Definition functionSymbol (fname : string) (line : Z) : option Symbol :=
  Some (mkSymbol
          (mkSymbolInfo fname
             [mkDeclaration (FunctionDeclarationShape (Some fname))
                            "/src/App.tsx" line])
          None).

Definition usages (sourceFile : SourceFile) : list JsxUsage :=
  [mkJsxUsage "Child" (functionSymbol "Child" 4) [functionSymbol "Parent" 1]].
End Scenario5b.

(** The placeholder mark of the edge tells whether its target is
    missing from the index. *)
Definition FlaggedExactly (context : ResolverContext) (r : RelationshipInfo) : Prop :=
  isPlaceholderEdge r = true <-> ~ indexed context (targetId r).

(** What holds of an edge submitted for the body of [sourceNode]. *)
Definition InteractionEdge (context : ResolverContext) (sourceNode : AstNode)
    (r : RelationshipInfo) : Prop :=
  sourceId r = entityId sourceNode
  /\ idFromEndpoints (rc_generateEntityId context) r
  /\ (rel_type r = "CALLS"
        /\ rel_weight r = Some (if isCrossFileEdge r then 6 else 7)
        /\ FlaggedExactly context r
      \/ rel_type r = "MUTATES_STATE" /\ rel_weight r = Some 8
         /\ FlaggedExactly context r
      \/ rel_type r = "HANDLES_ERROR" /\ rel_weight r = Some 5
         /\ isPlaceholderEdge r = false /\ isCrossFileEdge r = false)
  /\ (isCrossFileEdge r = true ->
      exists targetNode,
        JsMap.get (targetId r) (nodeIndex context) = Some targetNode
        /\ filePath targetNode <> filePath sourceNode).

(** The symbol of a reference whose only declaration has the given
    shape, file and start line. *)
Definition declarationSymbol (symbolName : string) (shape : DeclarationShape)
    (path : string) (line : Z) : option Symbol :=
  Some (mkSymbol (mkSymbolInfo symbolName [mkDeclaration shape path line]) None).

(** The [entityId] Pass 2 computes for a reference, when it resolves. *)
Definition referencedEntityId (gen : EntityIdGenerator)
    (resolveImportPath : string -> string -> string) (sym : option Symbol)
    (currentFilePath : string) : option string :=
  ti_entityId <$> getTargetDeclarationInfo gen resolveImportPath sym currentFilePath.

(* ================================================================== *)
(** * Results without dangling edges *)
(* ================================================================== *)

Definition nodeIds (r : SingleFileParseResult) : list string :=
  map entityId (res_nodes r).

(** Both ends of every relationship of the result are nodes of the
    result. *)
Definition Closed (r : SingleFileParseResult) : Prop :=
  Forall (fun rel => sourceId rel ∈ nodeIds r /\ targetId rel ∈ nodeIds r)
         (res_relationships r).

(** A closed result that has nodes for the identifiers [required]. *)
Definition ClosedWith (required : list string) (r : SingleFileParseResult) : Prop :=
  Closed r /\ Forall (fun k => k ∈ nodeIds r) required.

Module Scenario2.
(** The files of scenario 1 with a class in each: [b.ts] declares
    [Shape] with the method [area(scale)]; [a.ts] declares
    [Circle extends Shape implements Drawable], where [Drawable] comes
    from a file that is not analyzed; [funcA] calls [funcB] on lines 4
    and 5. *)
Definition shape : ClassDeclaration :=
  mkClassDeclaration (Some "Shape") true 7 9 0 ["export"]
    [mkMethodDeclaration "area" 8 8 2 [mkParameterDeclaration "scale" 8 8 7]
                         (leaf "MethodDeclaration")]
    None [].

Definition circle : ClassDeclaration :=
  mkClassDeclaration (Some "Circle") false 8 9 0 [] []
    (Some (declarationSymbol "Shape" (ClassShape (Some "Shape")) "/src/b.ts" 7))
    [declarationSymbol "Drawable" (InterfaceShape "Drawable") "/src/lib.ts" 1].

Definition declarationsOf (sourceFile : SourceFile) : TsDeclarations :=
  if String.eqb (sf_filePath sourceFile) "/src/a.ts"
  then mkTsDeclarations [circle] [] [] []
  else mkTsDeclarations [shape] [] [] [].

Definition funcBSymbol : option Symbol :=
  declarationSymbol "funcB" (FunctionDeclarationShape (Some "funcB")) "/src/b.ts" 2.

Definition funcABody : Body :=
  mkBody [mkCallExpression funcBSymbol 4 2 false [OtherKind "ExpressionStatement"];
          mkCallExpression funcBSymbol 5 4 false
            [OtherKind "ExpressionStatement"; OtherKind "Block"; IfStatement]]
         [] [].

Definition bodiesOf (sourceFile : SourceFile) : TsBodies :=
  if String.eqb (sf_filePath sourceFile) "/src/a.ts"
  then mkTsBodies
         [mkBodyOwner
            (declarationSymbol "funcA" (FunctionDeclarationShape (Some "funcA"))
                               "/src/a.ts" 3)
            (Some funcABody)]
         []
  else mkTsBodies [] [].

Definition noJsx (ctx : ParserContext) (r : SingleFileParseResult)
    : SingleFileParseResult := r.

Definition tsResults : JsMap.t SingleFileParseResult :=
  parseTsProjectFiles (tsParsers declarationsOf noJsx) generateEntityId
                      Scenario1.now Scenario1.project ["/src/a.ts"; "/src/b.ts"].

Definition pass1Nodes : list AstNode := fst (collectResults [] tsResults).

Definition pass2Relationships : list RelationshipInfo :=
  resolveRelationships (tsResolvers declarationsOf bodiesOf (fun _ => []))
    generateEntityId pass1ResolveImportPath Scenario1.now pass1Nodes
    Scenario1.project.

Definition summary (r : RelationshipInfo) : string * string * string * bool :=
  (rel_type r, sourceId r, targetId r, isPlaceholderEdge r).
End Scenario2.

(* ================================================================== *)
(** * The nodes of a result, and the labels of the schema *)
(* ================================================================== *)

(** schema.ts: the labels the storage layer can give a node. *)
Definition NODE_LABELS : list string :=
  ["File"; "Directory"; "Class"; "Interface"; "Function"; "Method";
   "Variable"; "Parameter"; "TypeAlias"; "Import"; "Export";
   "Component"; "JSXElement"; "JSXAttribute";
   "TailwindClass";
   "PythonModule"; "PythonFunction"; "PythonClass"; "PythonMethod";
   "PythonParameter"; "PythonVariable";
   "CFunction"; "CppClass"; "CppMethod"; "IncludeDirective";
   "MacroDefinition";
   "JavaClass"; "JavaInterface"; "JavaMethod"; "JavaField";
   "PackageDeclaration"; "ImportDeclaration";
   "CSharpClass"; "CSharpInterface"; "CSharpStruct"; "CSharpMethod";
   "Property"; "Field"; "NamespaceDeclaration"; "UsingDirective";
   "GoFunction"; "GoMethod"; "GoStruct"; "GoInterface"; "PackageClause";
   "ImportSpec";
   "SQLSchema"; "SQLTable"; "SQLView"; "SQLColumn"; "SQLSelectStatement";
   "SQLInsertStatement"; "SQLUpdateStatement"; "SQLDeleteStatement";
   "SQLFunction"; "SQLProcedure"].

(** The kinds of the nodes the parsers add below the file node. *)
Definition declarationKinds : list string :=
  ["Import"; "Function"; "Parameter"; "Class"; "Method"; "Variable";
   "Interface"; "TypeAlias"].

(** A node that a parser recorded for a declaration of the file of
    [fileNode]. *)
Definition OwnedBy (fileNode : AstNode) (n : AstNode) : Prop :=
  filePath n = filePath fileNode
  /\ language n = "TypeScript"
  /\ kind n ∈ declarationKinds.

(** A result that starts with [fileNode] and goes on with nodes
    of its file. *)
Definition HeadedBy (fileNode : AstNode) (r : SingleFileParseResult) : Prop :=
  res_filePath r = filePath fileNode
  /\ exists rest,
       res_nodes r = fileNode :: rest /\ Forall (OwnedBy fileNode) rest.

(** An edge of Pass 2 that leaves an indexed node and arrives at an
    indexed node, unless it says that its target is a placeholder or it
    is a [HANDLES_ERROR] edge, whose target stands for a catch
    clause. *)
Definition Grounded (context : ResolverContext) (r : RelationshipInfo) : Prop :=
  indexed context (sourceId r)
  /\ (indexed context (targetId r)
      \/ isPlaceholderEdge r = true
      \/ rel_type r = "HANDLES_ERROR").

(* ================================================================== *)
(** * Pass 1 for Python (python-parser.ts) *)
(* ================================================================== *)







(* ================================================================== *)
(** * What is stored for a node (storage-manager.ts) *)
(* ================================================================== *)

Definition isUndefined (v : JsValue) : bool :=
  match v with JUndefined => true | _ => false end.

(** The fields of a node other than [kind], [id], [entityId] and
    [properties]; a field the node does not have reads [undefined]. *)
Definition baseProperties (node : AstNode) : list (string * JsValue) :=
  [("name", JString (name node));
   ("filePath", JString (filePath node));
   ("language", JString (language node));
   ("startLine", JNumber (startLine node));
   ("endLine", JNumber (endLine node));
   ("startColumn", JNumber (startColumn node));
   ("loc", from_option JNumber JUndefined (loc node));
   ("isExported", from_option JBool JUndefined (isExported node));
   ("isConstant", from_option JBool JUndefined (isConstant node));
   ("complexity", from_option JNumber JUndefined (complexity node));
   ("modifierFlags", from_option JStrings JUndefined (modifierFlags node));
   ("createdAt", JString (createdAt node))].

(** [Object.assign(target, source)] *)
Definition objectAssign (target : JsMap.t JsValue) (source : Properties)
    : JsMap.t JsValue :=
  fold_left (fun m kv => JsMap.set (fst kv) (snd kv) m) source target.

Definition prepareNodeProperties (node : AstNode) : JsMap.t JsValue :=
  let finalProperties := JsMap.ofEntries (baseProperties node) in
  let finalProperties :=
    match properties node with
    | Some nestedProperties => objectAssign finalProperties nestedProperties
    | None => finalProperties
    end in
  let finalProperties :=
    List.filter (fun kv => negb (isUndefined (snd kv))) finalProperties in
  JsMap.set "entityId" (JString (entityId node)) finalProperties.

(* ================================================================== *)
(** * The dispatcher by extension *)
(* ================================================================== *)

(** The extensions of the [case] labels of [parseFiles]. *)
Definition parsedExtensions : list string :=
  [".py"; ".c"; ".cpp"; ".h"; ".hpp"; ".java"; ".go"; ".cs"].

Definition tsExtensions : list string :=
  [".ts"; ".tsx"; ".js"; ".jsx"; ".mjs"; ".cjs"].

Definition isInfo (e : LogEntry) : bool :=
  match e with LogInfo _ => true | LogWarn _ => false end.

(** The path under which a source file is parsed and stored. *)
Definition normalizedPath (sourceFile : SourceFile) : string :=
  normalizeSlashes (sf_filePath sourceFile).

(** A temporary file that [collectResults] passes over: its name does
    not end in [.json], it cannot be read or parsed, or its content
    lacks one of the three fields (an empty [filePath] counts as
    missing). *)
Definition passedOver (f : TempFile) : Prop :=
  endsWith (tmp_name f) ".json" = false
  \/ tmp_content f = None
  \/ exists j,
       tmp_content f = Some j
       /\ (json_filePath j = None \/ json_filePath j = Some ""
           \/ json_nodes j = None \/ json_relationships j = None).

(* ================================================================== *)
(** * The whole run (analyzer-service.ts, [AnalyzerService.analyze]) *)
(* ================================================================== *)

Section Analyze.
Variable supportedExtensions : list string.
Variable parsers : OtherTsParsers.
Variable resolvers : OtherTsResolvers.
Variable gen : EntityIdGenerator.
Variable resolveImportPath : string -> string -> string.
Variable addSourceFilesAtPaths : list string -> Project.
Variable runTransaction : Store -> Commit -> bool.
Variable batchSize : nat.

(** [scan] is the outcome of the file scanner ([None] when it throws),
    [tempFiles] the listing of the temporary directory once the
    language parsers have run, [pass1Now] and [pass2Now] the time
    stamps of the two passes, [driverReady] whether the driver of the
    store could be initialized. Pass 2 reads the project of the parser
    as Pass 1 left it: with the paths of the TypeScript and JavaScript
    files added. The driver is closed in every case. *)
Definition analyze (fuel : nat) (pass1Now pass2Now : string)
    (scan : option (list FileInfo)) (tempFiles : list TempFile)
    (driverReady : bool) (store : Store) : option Outcome :=
  match scan with
  | None => Some (Threw store)
  | Some [] => Some (Completed store)
  | Some files =>
      let work := dispatchFiles supportedExtensions files in
      let tsResults :=
        parseFilesTs parsers gen pass1Now addSourceFilesAtPaths
                     supportedExtensions files in
      let collected := collectResults tempFiles tsResults in
      let pass1Nodes := fst collected in
      let pass1Relationships := snd collected in
      match pass1Nodes with
      | [] => Some (Completed store)
      | _ =>
          let tsProject := addSourceFilesAtPaths (tsFilesToAdd work) in
          let pass2Relationships :=
            resolveRelationships resolvers gen resolveImportPath pass2Now
                                 pass1Nodes tsProject in
          if driverReady
          then storeResults runTransaction batchSize fuel pass1Nodes
                            pass1Relationships pass2Relationships store
          else Some (Threw store)
      end
  end.
End Analyze.

(** A stored relationship that hangs on the stored nodes. *)
Definition hangsOn (nodes : list AstNode) (rel : RelationshipInfo) : Prop :=
  sourceId rel ∈ map entityId nodes
  /\ (targetId rel ∈ map entityId nodes
      \/ isPlaceholderEdge rel = true
      \/ rel_type rel = "HANDLES_ERROR").

(* ================================================================== *)
(** * Facts about insertion-ordered maps *)
(* ================================================================== *)

Module JsMapFacts.
Section Facts.
Context {V : Type}.
Implicit Types (m : JsMap.t V) (k : string) (v : V).

Lemma get_set_eq k v m : JsMap.get k (JsMap.set k v m) = Some v.
Proof.
  induction m as [|[k' v'] m IH]; simpl.
  - by rewrite String.eqb_refl.
  - destruct (String.eqb_spec k' k) as [->|Hne]; simpl.
    + by rewrite String.eqb_refl.
    + destruct (String.eqb_spec k' k); [done|apply IH].
Qed.

Lemma get_set_ne k k' v m :
  k <> k' -> JsMap.get k' (JsMap.set k v m) = JsMap.get k' m.
Proof.
  intros Hne. induction m as [|[k0 v0] m IH]; simpl.
  - destruct (String.eqb_spec k k'); [done|reflexivity].
  - destruct (String.eqb_spec k0 k) as [->|Hk0]; simpl.
    + destruct (String.eqb_spec k k'); [done|reflexivity].
    + destruct (String.eqb_spec k0 k'); [reflexivity|apply IH].
Qed.

Lemma get_set k k' v m :
  JsMap.get k' (JsMap.set k v m)
  = if String.eqb k k' then Some v else JsMap.get k' m.
Proof.
  destruct (String.eqb_spec k k') as [->|Hne].
  - apply get_set_eq.
  - by apply get_set_ne.
Qed.

Lemma keys_set k v m :
  JsMap.keys (JsMap.set k v m)
  = if JsMap.has k m then JsMap.keys m else JsMap.keys m ++ [k].
Proof.
  unfold JsMap.has. induction m as [|[k' v'] m IH]; simpl; [done|].
  destruct (String.eqb_spec k' k) as [->|Hne]; simpl; [done|].
  rewrite IH. by destruct (JsMap.get k m).
Qed.

Lemma get_None_keys k m : JsMap.get k m = None <-> k ∉ JsMap.keys m.
Proof.
  induction m as [|[k' v'] m IH]; simpl.
  - split; [intros _; apply not_elem_of_nil|done].
  - rewrite not_elem_of_cons.
    destruct (String.eqb_spec k' k) as [->|Hne]; split; try done.
    + intros [? _]; done.
    + intros H; split; [congruence|by apply IH].
    + intros [_ H]; by apply IH.
Qed.

Lemma keys_NoDup_set k v m :
  NoDup (JsMap.keys m) -> NoDup (JsMap.keys (JsMap.set k v m)).
Proof.
  intros Hnd. rewrite keys_set. unfold JsMap.has.
  destruct (JsMap.get k m) eqn:Hget; [done|].
  apply NoDup_app. split_and!; [done| |apply NoDup_singleton].
  intros x Hx Hx'. apply list_elem_of_singleton in Hx' as ->.
  by apply get_None_keys in Hget.
Qed.

(** With unique keys, the entries are exactly the successful lookups. *)
Lemma elem_of_entries k v m :
  NoDup (JsMap.keys m) -> (k, v) ∈ m <-> JsMap.get k m = Some v.
Proof.
  induction m as [|[k' v'] m IH]; simpl; intros Hnd.
  - split; [intros H; by apply elem_of_nil in H|done].
  - apply NoDup_cons in Hnd as [Hk' Hnd].
    rewrite elem_of_cons.
    destruct (String.eqb_spec k' k) as [->|Hne].
    + split.
      * intros [[= ->]|Hin]; [done|].
        exfalso. apply Hk'. apply list_elem_of_fmap. by exists (k, v).
      * intros [= ->]. by left.
    + rewrite <- (IH Hnd). split; [|by right].
      intros [[= ? ?]|?]; [congruence|done].
Qed.

(** Folding [set] over records keyed by [key]: the last record with a
    given key wins, and keys not written keep their value. *)
Lemma get_fold_set {A : Type} (key : A -> string) (val : A -> V)
    (l : list A) m k :
  JsMap.get k (fold_left (fun m x => JsMap.set (key x) (val x) m) l m)
  = match lastWith key k l with
    | Some x => Some (val x)
    | None => JsMap.get k m
    end.
Proof.
  revert m. induction l as [|x l IH] using rev_ind; intros m.
  - done.
  - rewrite fold_left_app. simpl. unfold lastWith.
    rewrite rev_unit. simpl. rewrite get_set.
    destruct (String.eqb (key x) k); [done|]. apply IH.
Qed.

Lemma keys_NoDup_fold_set {A : Type} (key : A -> string) (val : A -> V)
    (l : list A) m :
  NoDup (JsMap.keys m) ->
  NoDup (JsMap.keys (fold_left (fun m x => JsMap.set (key x) (val x) m) l m)).
Proof.
  revert m. induction l as [|x l IH]; simpl; intros m Hnd; [done|].
  apply IH. by apply keys_NoDup_set.
Qed.

Lemma keys_NoDup_ofEntries (l : list (string * V)) :
  NoDup (JsMap.keys (JsMap.ofEntries l)).
Proof. apply keys_NoDup_fold_set. apply NoDup_nil_2. Qed.
End Facts.
End JsMapFacts.

Lemma elem_of_concat {A : Type} (x : A) (ls : list (list A)) :
  x ∈ concat ls <-> exists l, x ∈ l /\ l ∈ ls.
Proof.
  rewrite list_elem_of_In, in_concat. split.
  - intros (l & Hl & Hx). exists l. by rewrite !list_elem_of_In.
  - intros (l & Hx & Hl). exists l. by rewrite <- !list_elem_of_In.
Qed.

(* ================================================================== *)
(** * The merger: deduplication, last write wins *)
(* ================================================================== *)

Section LastWith.
Context {A : Type} (key : A -> string).

Lemma lastWith_app k (l1 l2 : list A) :
  lastWith key k (l1 ++ l2)
  = match lastWith key k l2 with
    | Some x => Some x
    | None => lastWith key k l1
    end.
Proof.
  unfold lastWith. rewrite rev_app_distr.
  induction (rev l2) as [|x l IH]; simpl; [done|].
  by destruct (String.eqb (key x) k).
Qed.

Lemma lastWith_key k (l : list A) x : lastWith key k l = Some x -> key x = k.
Proof.
  unfold lastWith. intros H. apply find_some in H as [_ H].
  by apply String.eqb_eq.
Qed.

Lemma lastWith_elem_of k (l : list A) x : lastWith key k l = Some x -> x ∈ l.
Proof.
  unfold lastWith. intros H. apply find_some in H as [H _].
  apply list_elem_of_In. by apply in_rev.
Qed.

Lemma lastWith_None k (l : list A) :
  lastWith key k l = None <-> k ∉ map key l.
Proof.
  unfold lastWith. split.
  - intros H Hin. apply list_elem_of_fmap in Hin as (x & -> & Hx).
    apply list_elem_of_In, in_rev in Hx.
    pose proof (find_none _ _ H x Hx) as Hf. simpl in Hf.
    by rewrite String.eqb_refl in Hf.
  - intros Hnot. destruct (List.find _ _) as [x|] eqn:Hf; [|done].
    apply find_some in Hf as [Hx Hk]. apply String.eqb_eq in Hk.
    exfalso. apply Hnot. apply list_elem_of_fmap. exists x. split; [done|].
    apply list_elem_of_In. by apply in_rev.
Qed.
End LastWith.

Lemma lastWith_entries {V : Type} (m : JsMap.t V) k :
  NoDup (JsMap.keys m) -> snd <$> lastWith fst k m = JsMap.get k m.
Proof.
  induction m as [|[k' v'] m IH]; intros Hnd; [done|].
  apply NoDup_cons in Hnd as [Hk' Hnd].
  change ((k', v') :: m) with ([(k', v')] ++ m). rewrite lastWith_app.
  simpl. destruct (String.eqb_spec k' k) as [->|Hne].
  - assert (lastWith fst k m = None) as -> by by apply lastWith_None.
    unfold lastWith. simpl. by rewrite String.eqb_refl.
  - rewrite <- (IH Hnd). destruct (lastWith fst k m); [done|].
    unfold lastWith. simpl. destruct (String.eqb_spec k' k); done.
Qed.

Lemma WellKeyed_values {A : Type} (key : A -> string) (m : JsMap.t A) :
  WellKeyed key m ->
  NoDup (map key (JsMap.values m))
  /\ forall x, x ∈ JsMap.values m <-> JsMap.get (key x) m = Some x.
Proof.
  intros [Hnd Hkey].
  assert (Hmap : map key (JsMap.values m) = JsMap.keys m).
  { unfold JsMap.values, JsMap.keys. rewrite map_map. apply map_ext_in.
    intros [k x] Hin. simpl. apply Hkey.
    apply JsMapFacts.elem_of_entries; [done|]. by apply list_elem_of_In. }
  split; [by rewrite Hmap|].
  intros x. unfold JsMap.values. rewrite list_elem_of_fmap. split.
  - intros ([k y] & -> & Hin). simpl.
    apply JsMapFacts.elem_of_entries in Hin; [|done].
    by rewrite (Hkey _ _ Hin).
  - intros Hget. exists (key x, x). split; [done|].
    by apply JsMapFacts.elem_of_entries.
Qed.

Lemma addFileResult_nodes_get acc r k :
  NoDup (JsMap.keys (nodeMap acc)) ->
  JsMap.get k (nodeMap (addFileResult acc r))
  = match lastWith entityId k (res_nodes r) with
    | Some n => Some n
    | None => JsMap.get k (nodeMap acc)
    end.
Proof.
  intros Hnd. unfold addFileResult. simpl.
  rewrite (JsMapFacts.get_fold_set fst snd).
  assert (Hfile : NoDup (JsMap.keys (fileNodeMapOf (res_nodes r)))).
  { apply (JsMapFacts.keys_NoDup_fold_set entityId id). apply NoDup_nil_2. }
  pose proof (lastWith_entries (fileNodeMapOf (res_nodes r)) k Hfile) as Hl.
  assert (Hg : JsMap.get k (fileNodeMapOf (res_nodes r))
               = lastWith entityId k (res_nodes r)).
  { unfold fileNodeMapOf. rewrite (JsMapFacts.get_fold_set entityId id).
    by destruct (lastWith entityId k (res_nodes r)). }
  rewrite Hg in Hl. unfold JsMap.entries.
  destruct (lastWith fst k (fileNodeMapOf (res_nodes r))) as [e|];
    simpl in Hl; destruct (lastWith entityId k (res_nodes r)); by inversion Hl.
Qed.

Lemma addFileResult_rels_get acc r k :
  JsMap.get k (relationshipMap (addFileResult acc r))
  = match lastWith rel_entityId k (res_relationships r) with
    | Some x => Some x
    | None => JsMap.get k (relationshipMap acc)
    end.
Proof. unfold addFileResult. simpl. apply (JsMapFacts.get_fold_set rel_entityId id). Qed.

Lemma addFileResult_NoDup acc r :
  NoDup (JsMap.keys (nodeMap acc)) /\ NoDup (JsMap.keys (relationshipMap acc)) ->
  NoDup (JsMap.keys (nodeMap (addFileResult acc r)))
  /\ NoDup (JsMap.keys (relationshipMap (addFileResult acc r))).
Proof.
  intros [Hn Hr]. unfold addFileResult. simpl. split.
  - by apply (JsMapFacts.keys_NoDup_fold_set fst snd).
  - by apply (JsMapFacts.keys_NoDup_fold_set rel_entityId id).
Qed.

Lemma fold_addFileResult rs acc :
  NoDup (JsMap.keys (nodeMap acc)) /\ NoDup (JsMap.keys (relationshipMap acc)) ->
  let c := fold_left addFileResult rs acc in
  (NoDup (JsMap.keys (nodeMap c)) /\ NoDup (JsMap.keys (relationshipMap c)))
  /\ (forall k, JsMap.get k (nodeMap c)
                = match lastWith entityId k (concat (map res_nodes rs)) with
                  | Some n => Some n
                  | None => JsMap.get k (nodeMap acc)
                  end)
  /\ (forall k, JsMap.get k (relationshipMap c)
                = match lastWith rel_entityId k (concat (map res_relationships rs)) with
                  | Some x => Some x
                  | None => JsMap.get k (relationshipMap acc)
                  end).
Proof.
  revert acc. induction rs as [|r rs IH]; intros acc Hnd; simpl.
  - done.
  - destruct (IH (addFileResult acc r) (addFileResult_NoDup acc r Hnd))
      as (Hnd' & Hn & Hr).
    split; [done|]. split; intros k.
    + rewrite Hn, lastWith_app.
      destruct (lastWith entityId k (concat (map res_nodes rs))); [done|].
      apply addFileResult_nodes_get. apply Hnd.
    + rewrite Hr, lastWith_app.
      destruct (lastWith rel_entityId k (concat (map res_relationships rs)));
        [done|]. apply addFileResult_rels_get.
Qed.

Lemma fold_collectJson js acc :
  fold_left collectJson js acc
  = fold_left addFileResult (omap (fun f => tmp_content f ≫= json_valid) js) acc.
Proof.
  revert acc. induction js as [|f js IH]; intros acc; simpl; [done|].
  rewrite IH. unfold collectJson.
  destruct (tmp_content f) as [j|]; simpl; [|done].
  by destruct (json_valid j).
Qed.

Lemma fold_tsResults (ts : JsMap.t SingleFileParseResult) acc :
  fold_left (fun acc e => addFileResult acc (snd e)) (JsMap.entries ts) acc
  = fold_left addFileResult (map snd ts) acc.
Proof.
  unfold JsMap.entries. revert acc.
  induction ts as [|e ts IH]; intros acc; simpl; [done|apply IH].
Qed.

Lemma collectMaps_fold tempFiles tsResults :
  collectMaps tempFiles tsResults
  = fold_left addFileResult (processedResults tempFiles tsResults) emptyCollected.
Proof.
  unfold collectMaps, processedResults.
  by rewrite fold_left_app, fold_collectJson, fold_tsResults.
Qed.

(** C5. For every sequence of per-file parse results, the merged output
    of [collectResults] has no two nodes with the same [entityId] and no
    two relationships with the same [entityId]; a record is part of the
    output exactly when it is the last processed record with its
    [entityId] (last write wins). *)
Theorem collectResults_dedup_last_write_wins tempFiles tsResults :
  let out := collectResults tempFiles tsResults in
  NoDup (map entityId (fst out))
  /\ NoDup (map rel_entityId (snd out))
  /\ (forall n, n ∈ fst out <->
        lastWith entityId (entityId n) (processedNodes tempFiles tsResults) = Some n)
  /\ (forall r, r ∈ snd out <->
        lastWith rel_entityId (rel_entityId r)
                 (processedRelationships tempFiles tsResults) = Some r).
Proof.
  unfold collectResults, processedNodes, processedRelationships. simpl.
  rewrite collectMaps_fold.
  destruct (fold_addFileResult (processedResults tempFiles tsResults) emptyCollected)
    as ((Hn & Hr) & Hgn & Hgr).
  { split; apply NoDup_nil_2. }
  set (c := fold_left addFileResult _ _) in *.
  assert (Wn : WellKeyed entityId (nodeMap c)).
  { split; [done|]. intros k x Hget. rewrite Hgn in Hget.
    destruct (lastWith entityId k _) eqn:Hl; [|done].
    injection Hget as <-. by apply lastWith_key in Hl. }
  assert (Wr : WellKeyed rel_entityId (relationshipMap c)).
  { split; [done|]. intros k x Hget. rewrite Hgr in Hget.
    destruct (lastWith rel_entityId k _) eqn:Hl; [|done].
    injection Hget as <-. by apply lastWith_key in Hl. }
  destruct (WellKeyed_values _ _ Wn) as [Hnd1 Hin1].
  destruct (WellKeyed_values _ _ Wr) as [Hnd2 Hin2].
  split_and!; [done|done| |].
  - intros n. rewrite Hin1, Hgn.
    by destruct (lastWith entityId (entityId n) _).
  - intros r. rewrite Hin2, Hgr.
    by destruct (lastWith rel_entityId (rel_entityId r) _).
Qed.

(* ================================================================== *)
(** * Pass 2: [addRelationship] records each entityId once *)
(* ================================================================== *)

Lemma initialResolverState_ok : StateOk initialResolverState.
Proof.
  split; simpl; [apply NoDup_nil_2|].
  intros k. split; [set_solver|]. intros H. by apply elem_of_nil in H.
Qed.

Lemma addRelationship_ok st rel : StateOk st -> StateOk (addRelationship st rel).
Proof.
  intros [Hnd Hset]. unfold addRelationship.
  destruct (decide (rel_entityId rel ∈ addedRelEntityIds st)) as [Hin|Hnin];
    [done|].
  split; simpl.
  - rewrite map_app. apply NoDup_app. split_and!; [done| |apply NoDup_singleton].
    intros x Hx Hx'. simpl in Hx'. apply list_elem_of_singleton in Hx' as ->.
    by apply Hset in Hx.
  - intros k. rewrite map_app, elem_of_app, elem_of_union, elem_of_singleton.
    simpl. rewrite list_elem_of_singleton, Hset. tauto.
Qed.

Lemma submitAll_ok rels st : StateOk st -> StateOk (submitAll st rels).
Proof.
  revert st. induction rels as [|r rels IH]; intros st Hok; simpl; [done|].
  apply IH. by apply addRelationship_ok.
Qed.

(** Submitting twice is submitting once. *)
Lemma addRelationship_idempotent st rel :
  addRelationship (addRelationship st rel) rel = addRelationship st rel.
Proof.
  unfold addRelationship.
  destruct (decide (rel_entityId rel ∈ addedRelEntityIds st)) as [Hin|Hnin].
  - by rewrite decide_True.
  - simpl. rewrite decide_True; [done|set_solver].
Qed.

Lemma submitAll_first_wins rels st r :
  StateOk st ->
  r ∈ relationships (submitAll st rels) <->
  (r ∈ relationships st)
  \/ ((rel_entityId r ∉ addedRelEntityIds st)
      /\ firstWith rel_entityId (rel_entityId r) rels = Some r).
Proof.
  revert st. induction rels as [|x rels IH]; intros st Hok; simpl.
  - unfold firstWith. simpl. split; [by left|]. by intros [?|[_ ?]].
  - rewrite (IH _ (addRelationship_ok st x Hok)).
    unfold firstWith. simpl. unfold addRelationship.
    destruct (decide (rel_entityId x ∈ addedRelEntityIds st)) as [Hin|Hnin].
    + destruct (String.eqb_spec (rel_entityId x) (rel_entityId r)) as [He|Hne].
      * rewrite <- He. split; [|tauto]. intros [?|[? _]]; [by left|done].
      * done.
    + simpl. rewrite elem_of_app, list_elem_of_singleton, not_elem_of_union,
        not_elem_of_singleton.
      destruct (String.eqb_spec (rel_entityId x) (rel_entityId r)) as [He|Hne].
      * split.
        -- intros [[?| ->]|[[Hc _] _]]; [by left| |congruence].
           right. by split.
        -- intros [?|[_ [= ->]]]; [by left; left|by left; right].
      * split.
        -- intros [[?| ->]|[[_ ?] ?]]; [by left|done|by right].
        -- intros [?|[? ?]]; [by left; left|]. right. split; [|done].
           split; [congruence|done].
Qed.

Lemma fold_submitAll {A : Type} (f : A -> list RelationshipInfo) (l : list A) st :
  fold_left (fun st x => submitAll st (f x)) l st
  = submitAll st (concat (map f l)).
Proof.
  revert st. induction l as [|x l IH]; intros st; simpl; [done|].
  rewrite IH. unfold submitAll. by rewrite fold_left_app.
Qed.

(** C9. Within one run of [resolveRelationships], [addRelationship] is
    idempotent per relationship [entityId]: the returned list has no
    duplicate [entityId], and a relationship is in it exactly when it is
    the first submission with its [entityId]. *)
Theorem resolveRelationships_records_each_id_once others gen resolveImportPath
    now allNodes project :
  let result :=
    resolveRelationships others gen resolveImportPath now allNodes project in
  let submitted :=
    allSubmissions others gen resolveImportPath now allNodes project in
  NoDup (map rel_entityId result)
  /\ (forall r, r ∈ result <->
        firstWith rel_entityId (rel_entityId r) submitted = Some r)
  /\ (forall st rel,
        addRelationship (addRelationship st rel) rel = addRelationship st rel).
Proof.
  unfold resolveRelationships, allSubmissions. simpl.
  rewrite fold_submitAll.
  split_and!.
  - apply submitAll_ok, initialResolverState_ok.
  - intros r. rewrite (submitAll_first_wins _ _ _ initialResolverState_ok).
    simpl. split.
    + intros [H|[_ H]]; [by apply elem_of_nil in H|done].
    + intros H. right. split; [set_solver|done].
  - apply addRelationship_idempotent.
Qed.

(* ================================================================== *)
(** * Cyclomatic complexity *)
(* ================================================================== *)

(** Induction over syntax trees, with the hypothesis for all children. *)
Lemma SyntaxNode_forall_ind (P : SyntaxNode -> Prop) :
  (forall k cs, Forall P cs -> P (Node k cs)) -> forall n, P n.
Proof.
  intros H. fix IH 1. intros [k cs]. apply H.
  induction cs as [|c cs IHcs]; constructor; [apply IH|exact IHcs].
Qed.

Lemma count_cons {A : Type} (p : A -> bool) x l :
  count p (x :: l) = (if p x then 1 else 0) + count p l.
Proof. unfold count. simpl. destruct (p x); simpl; lia. Qed.

Lemma count_app {A : Type} (p : A -> bool) l1 l2 :
  count p (l1 ++ l2) = count p l1 + count p l2.
Proof. unfold count. rewrite List.filter_app, length_app. lia. Qed.

Lemma complexityStep_count c s :
  complexityStep c s
  = s + (if isBranchingKind c then 1 else 0) + (if isLogicalBinary c then 1 else 0).
Proof.
  unfold complexityStep, isBranchingKind, isLogicalBinary.
  destruct (getKind c) as [| | | | | | | | |[]|]; lia.
Qed.

Lemma forEachDescendant_complexity n :
  forall s,
    forEachDescendant complexityStep n s
    = s + count isBranchingKind (descendants n)
        + count isLogicalBinary (descendants n).
Proof.
  induction n as [k cs IH] using SyntaxNode_forall_ind. simpl.
  induction IH as [|c cs Hc _ IHcs]; intros s.
  - unfold count. simpl. lia.
  - rewrite IHcs, Hc, complexityStep_count.
    rewrite !count_cons, !count_app. lia.
Qed.

(** C7. The computed cyclomatic complexity of a body is 1 plus the
    number of its descendant if, for, for-in, for-of, while, do, case,
    catch and conditional-expression nodes plus the number of its
    descendant binary expressions whose operator is &&, || or ??; for
    an absent body it is 1. *)
Theorem calculateCyclomaticComplexity_counts_decision_points body :
  calculateCyclomaticComplexity body = specComplexity body
  /\ calculateCyclomaticComplexity None = 1.
Proof.
  split; [|reflexivity].
  destruct body as [n|]; simpl; [|reflexivity].
  rewrite forEachDescendant_complexity. lia.
Qed.

(** The node passed in is not itself counted: only its descendants are. *)
Example complexity_ignores_the_root :
  calculateCyclomaticComplexity
    (Some (Node (BinaryExpression AmpersandAmpersandToken)
                [Node (OtherKind "Identifier") []; Node (OtherKind "Identifier") []]))
  = 1
  /\ calculateCyclomaticComplexity
       (Some (Node (OtherKind "Block")
          [Node IfStatement
             [Node (BinaryExpression BarBarToken)
                   [Node (OtherKind "Identifier") [];
                    Node (OtherKind "Identifier") []];
              Node (OtherKind "Block") []]]))
     = 3.
Proof. split; reflexivity. Qed.

(* ================================================================== *)
(** * Configuration: the storage batch size *)
(* ================================================================== *)

Lemma skipWhiteSpace_split s :
  exists ws, s = ws ++ skipWhiteSpace s
             /\ forallb isStrWhiteSpaceChar ws = true.
Proof.
  induction s as [|c s (ws & Hs & Hws)]; simpl.
  - by exists [].
  - destruct (isStrWhiteSpaceChar c) eqn:Hc.
    + exists (c :: ws). simpl. rewrite Hc, Hws. split; [by f_equal|done].
    + by exists [].
Qed.

Lemma skipWhiteSpace_app ws s :
  forallb isStrWhiteSpaceChar ws = true ->
  match s with c :: _ => isStrWhiteSpaceChar c = false | [] => True end ->
  skipWhiteSpace (ws ++ s) = s.
Proof.
  intros Hws Hs. induction ws as [|c ws IH]; simpl in *.
  - destruct s as [|c s]; simpl; [done|]. by rewrite Hs.
  - apply andb_prop in Hws as [-> Hws]. by apply IH.
Qed.

Lemma leadingDigits_split s :
  exists rest, s = leadingDigits s ++ rest
               /\ forallb isDecimalDigit (leadingDigits s) = true
               /\ startsWithDigit rest = false.
Proof.
  induction s as [|c s (rest & Hs & Hds & Hrest)]; simpl.
  - by exists [].
  - destruct (isDecimalDigit c) eqn:Hc.
    + exists rest. simpl. rewrite Hc, Hds. split; [by f_equal|done].
    + exists (c :: s). simpl. by rewrite Hc.
Qed.

Lemma leadingDigits_app ds rest :
  forallb isDecimalDigit ds = true -> startsWithDigit rest = false ->
  leadingDigits (ds ++ rest) = ds.
Proof.
  intros Hds Hrest. induction ds as [|c ds IH]; simpl in *.
  - destruct rest as [|c rest]; simpl in *; [done|]. by rewrite Hrest.
  - apply andb_prop in Hds as [Hc Hds]. rewrite Hc. f_equal. by apply IH.
Qed.

Lemma digit_not_white c : isDecimalDigit c = true -> isStrWhiteSpaceChar c = false.
Proof. unfold isDecimalDigit, isStrWhiteSpaceChar. lia. Qed.

Lemma digit_not_sign c : isDecimalDigit c = true -> (c =? 45) = false /\ (c =? 43) = false.
Proof. unfold isDecimalDigit. lia. Qed.

Lemma digitsValue_nonneg_from ds acc :
  forallb isDecimalDigit ds = true -> 0 <= acc ->
  0 <= fold_left (fun acc c => 10 * acc + (c - 48)) ds acc.
Proof.
  revert acc. induction ds as [|c ds IH]; simpl; intros acc Hds Hacc; [done|].
  apply andb_prop in Hds as [Hc Hds]. apply IH; [done|].
  unfold isDecimalDigit in Hc. lia.
Qed.

Lemma digitsValue_nonneg ds :
  forallb isDecimalDigit ds = true -> 0 <= digitsValue ds.
Proof. intros H. by apply digitsValue_nonneg_from. Qed.

(** [parseInt] on a string made of white space, an optional sign, a
    non-empty digit run and a rest that does not continue the run. *)
Lemma parseInt10_shape ws sign ds rest :
  forallb isStrWhiteSpaceChar ws = true ->
  sign = [] \/ sign = [43] \/ sign = [45] ->
  ds <> [] ->
  forallb isDecimalDigit ds = true ->
  startsWithDigit rest = false ->
  parseInt10 (ws ++ sign ++ ds ++ rest)
  = Some ((if decide (sign = [45]) then -1 else 1) * digitsValue ds).
Proof.
  intros Hws Hsign Hne Hds Hrest. unfold parseInt10.
  destruct ds as [|d ds]; [done|].
  pose proof Hds as Hd. simpl in Hd. apply andb_prop in Hd as [Hd _].
  destruct (digit_not_sign d Hd) as [Hd45 Hd43].
  pose proof (leadingDigits_app (d :: ds) rest Hds Hrest) as Hld.
  destruct Hsign as [-> | [-> | ->]].
  - rewrite skipWhiteSpace_app; [|done|by apply digit_not_white].
    simpl app. cbv iota beta. rewrite Hd45, Hd43.
    change (d :: ds ++ rest) with ((d :: ds) ++ rest). rewrite Hld.
    by rewrite decide_False.
  - rewrite skipWhiteSpace_app; [|done|done].
    simpl app. cbv iota beta. simpl (43 =? 45). simpl (43 =? 43). cbv iota.
    change (d :: ds ++ rest) with ((d :: ds) ++ rest). rewrite Hld.
    by rewrite decide_False.
  - rewrite skipWhiteSpace_app; [|done|done].
    simpl app. cbv iota beta. simpl (45 =? 45). cbv iota.
    change (d :: ds ++ rest) with ((d :: ds) ++ rest). rewrite Hld.
    by rewrite decide_True.
Qed.

(** Conversely every string on which [parseInt] succeeds has that shape. *)
Lemma parseInt10_Some s n :
  parseInt10 s = Some n ->
  exists ws sign ds rest,
    s = ws ++ sign ++ ds ++ rest
    /\ forallb isStrWhiteSpaceChar ws = true
    /\ (sign = [] \/ sign = [43] \/ sign = [45])
    /\ ds <> [] /\ forallb isDecimalDigit ds = true
    /\ startsWithDigit rest = false
    /\ n = (if decide (sign = [45]) then -1 else 1) * digitsValue ds.
Proof.
  unfold parseInt10. intros H.
  destruct (skipWhiteSpace_split s) as (ws & Hs & Hws).
  set (s1 := skipWhiteSpace s) in *.
  assert (Hgen : forall sign s2 sg,
            s1 = sign ++ s2 -> (sign = [] \/ sign = [43] \/ sign = [45]) ->
            sg = (if decide (sign = [45]) then -1 else 1) ->
            match leadingDigits s2 with
            | [] => None
            | ds => Some (sg * digitsValue ds)
            end = Some n ->
            exists ws sign ds rest,
              s = ws ++ sign ++ ds ++ rest
              /\ forallb isStrWhiteSpaceChar ws = true
              /\ (sign = [] \/ sign = [43] \/ sign = [45])
              /\ ds <> [] /\ forallb isDecimalDigit ds = true
              /\ startsWithDigit rest = false
              /\ n = (if decide (sign = [45]) then -1 else 1) * digitsValue ds).
  { intros sign s2 sg Hs1 Hsign -> Hn.
    destruct (leadingDigits_split s2) as (rest & Hs2 & Hds & Hrest).
    exists ws, sign, (leadingDigits s2), rest.
    destruct (leadingDigits s2) as [|d ds] eqn:Hl; [done|].
    injection Hn as <-. rewrite <- Hs2, <- Hs1. done. }
  destruct s1 as [|c r] eqn:Hs1.
  - apply (Hgen [] [] 1); [done|by left|done|exact H].
  - destruct (c =? 45) eqn:H45.
    + apply Z.eqb_eq in H45 as ->.
      apply (Hgen [45] r (-1)); [done|by right; right|done|exact H].
    + destruct (c =? 43) eqn:H43.
      * apply Z.eqb_eq in H43 as ->.
        apply (Hgen [43] r 1); [done|by right; left|done|exact H].
      * apply (Hgen [] (c :: r) 1); [done|by left|done|exact H].
Qed.

Lemma storageBatchSize_nonempty s :
  s <> [] ->
  storageBatchSize (Some s)
  = match parseInt10 s with
    | None => 100
    | Some n => if n <=? 0 then 100 else n
    end.
Proof. by destruct s. Qed.

Lemma storageBatchSize_default env :
  env = None \/ env = Some [] -> storageBatchSize env = 100.
Proof. by intros [-> | ->]. Qed.

(** C8, as stated, fails: ["12abc"] does not denote a positive integer,
    yet it is not replaced by 100. *)
Lemma storageBatchSize_accepts_trailing_text :
  ~ (forall s : JsChars,
       (forall n, ~ denotesPositiveInteger s n) ->
       storageBatchSize (Some s) = 100).
Proof.
  intros H. specialize (H (codeUnits "12abc")).
  assert (Hv : storageBatchSize (Some (codeUnits "12abc")) = 12) by reflexivity.
  rewrite Hv in H. enough (12 = 100) by done. apply H.
  intros n (_ & Hd & _). vm_compute in Hd. done.
Qed.

(** C8, amended. The effective batch size is always positive. It is the
    value of the decimal digit run that follows optional leading white
    space and an optional plus sign, whenever that run is not empty and
    its value is positive (and at most 2^53, so that the number is
    exact); whatever follows the run is ignored. Every other value,
    and an unset or empty variable, gives 100. In particular a value
    that denotes a positive integer gives that integer. *)
Theorem storageBatchSize_leading_digit_run :
  (forall env, 0 < storageBatchSize env)
  /\ (forall ws sign ds rest,
        forallb isStrWhiteSpaceChar ws = true ->
        sign = [] \/ sign = [43] ->
        ds <> [] -> forallb isDecimalDigit ds = true ->
        startsWithDigit rest = false ->
        0 < digitsValue ds -> digitsValue ds <= 2 ^ 53 ->
        storageBatchSize (Some (ws ++ sign ++ ds ++ rest)) = digitsValue ds)
  /\ (forall env,
        storageBatchSize env <> 100 ->
        exists ws sign ds rest,
          env = Some (ws ++ sign ++ ds ++ rest)
          /\ forallb isStrWhiteSpaceChar ws = true
          /\ (sign = [] \/ sign = [43])
          /\ ds <> [] /\ forallb isDecimalDigit ds = true
          /\ startsWithDigit rest = false
          /\ 0 < digitsValue ds
          /\ (digitsValue ds <= 2 ^ 53 -> storageBatchSize env = digitsValue ds))
  /\ (forall s n,
        denotesPositiveInteger s n -> n <= 2 ^ 53 ->
        storageBatchSize (Some s) = n).
Proof.
  assert (HA : forall ws sign ds rest,
             forallb isStrWhiteSpaceChar ws = true ->
             sign = [] \/ sign = [43] ->
             ds <> [] -> forallb isDecimalDigit ds = true ->
             startsWithDigit rest = false ->
             0 < digitsValue ds ->
             storageBatchSize (Some (ws ++ sign ++ ds ++ rest)) = digitsValue ds).
  { intros ws sign ds rest Hws Hsign Hne Hds Hrest Hpos.
    rewrite storageBatchSize_nonempty.
    - rewrite parseInt10_shape; [|done|tauto|done|done|done].
      rewrite decide_False; [|by destruct Hsign as [-> | ->]].
      destruct (1 * digitsValue ds <=? 0) eqn:Hle; lia.
    - intros Hnil. apply app_eq_nil in Hnil as [_ Hnil].
      apply app_eq_nil in Hnil as [_ Hnil].
      apply app_eq_nil in Hnil as [Hnil _]. done. }
  split_and!.
  - intros [[|c s]|]; [done| |done].
    rewrite storageBatchSize_nonempty; [|done].
    destruct (parseInt10 (c :: s)) as [n|]; [|done].
    destruct (n <=? 0) eqn:Hle; lia.
  - intros ws sign ds rest ? ? ? ? ? ? _. by apply HA.
  - intros [[|c s]|] Hneq; [done| |done].
    rewrite storageBatchSize_nonempty in Hneq; [|done].
    destruct (parseInt10 (c :: s)) as [n|] eqn:Hp; [|done].
    destruct (n <=? 0) eqn:Hle; [done|].
    apply parseInt10_Some in Hp
      as (ws & sign & ds & rest & Hs & Hws & Hsign & Hne & Hds & Hrest & Hn).
    pose proof (digitsValue_nonneg ds Hds) as Hnn.
    exists ws, sign, ds, rest.
    destruct (decide (sign = [45])) as [->|Hs45]; [lia|].
    assert (Hsign' : sign = [] \/ sign = [43]) by (destruct Hsign as [?|[?|?]]; tauto).
    split_and!; try done.
    + by rewrite Hs.
    + lia.
    + intros _. rewrite Hs. apply HA; try done. lia.
  - intros s n (Hne & Hds & Hv & Hpos) _.
    specialize (HA [] [] s [] eq_refl (or_introl eq_refl) Hne Hds eq_refl).
    replace ([] ++ [] ++ s ++ []) with s in HA by (simpl; by rewrite app_nil_r).
    rewrite <- Hv. apply HA. lia.
Qed.

Lemma storageBatchSize_leading_digit_run_witness :
  storageBatchSize (Some (codeUnits " +250 nodes")) = 250
  /\ storageBatchSize (Some (codeUnits "64")) = 64
  /\ storageBatchSize (Some (codeUnits "-5")) = 100
  /\ storageBatchSize (Some (codeUnits "abc")) = 100
  /\ storageBatchSize None = 100.
Proof.
  destruct storageBatchSize_leading_digit_run as (_ & Hrun & _ & Hint).
  split_and!.
  - apply (Hrun (codeUnits " ") [43] (codeUnits "250") (codeUnits " nodes"));
      [reflexivity|by right|done|reflexivity|reflexivity|reflexivity|].
    vm_compute. discriminate.
  - apply (Hint (codeUnits "64") 64).
    + split_and!; [done|reflexivity|reflexivity|reflexivity].
    + vm_compute. discriminate.
  - reflexivity.
  - reflexivity.
  - reflexivity.
Defined.

(* ================================================================== *)
(** * The write phase: bounded batches, nodes first *)
(* ================================================================== *)

Section WritePhaseFacts.
Variable runTransaction : Store -> Commit -> bool.
Variable batchSize : nat.

Lemma slice_length {A : Type} (items : list A) i :
  (length (slice i (i + batchSize) items) <= batchSize)%nat.
Proof. unfold slice. rewrite length_take. lia. Qed.

Lemma slice_drop {A : Type} (items : list A) i :
  slice i (i + batchSize) items ++ drop (i + batchSize) items = drop i items.
Proof.
  unfold slice. replace (i + batchSize - i)%nat with batchSize by lia.
  rewrite <- drop_drop. apply take_drop.
Qed.

(** What a save loop that returns has done: it appended batches of at
    most [batchSize] records, and when it completed, the batches are
    the items from [i] on. *)
Lemma saveLoop_spec {A : Type} (mk : list A -> Commit) items fuel :
  forall i store o,
    saveLoop runTransaction batchSize mk items fuel i store = Some o ->
    exists bs,
      storeOf o = store ++ map mk bs
      /\ Forall (fun b => (length b <= batchSize)%nat) bs
      /\ match o with
         | Completed _ => concat bs = drop i items
         | Threw _ => True
         end.
Proof.
  induction fuel as [|fuel IH]; intros i store o; simpl; [done|].
  destruct (Nat.ltb_spec i (length items)) as [Hlt|Hge].
  - pose proof (slice_length items i) as Hlen.
    pose proof (slice_drop items i) as Hdrop.
    destruct (slice i (i + batchSize) items) as [|x batch] eqn:Hb.
    + intros H. apply IH in H as (bs & Hs & Hf & Hc).
      exists bs. split_and!; [done|done|].
      destruct o; [|done]. by rewrite Hc.
    + destruct (runTransaction store (mk (x :: batch))).
      * intros H. apply IH in H as (bs & Hs & Hf & Hc).
        exists ((x :: batch) :: bs). split_and!.
        -- rewrite Hs. simpl. by rewrite <- app_assoc.
        -- by constructor.
        -- destruct o; [|done]. simpl. rewrite Hc. exact Hdrop.
      * intros [= <-]. exists []. simpl. by rewrite app_nil_r.
  - intros [= <-]. exists []. simpl. rewrite app_nil_r.
    split_and!; [done|done|]. by rewrite drop_ge.
Qed.

(** With a positive batch size the loop returns, given one unit of
    fuel per remaining item. *)
Lemma saveLoop_returns {A : Type} (mk : list A -> Commit) items fuel :
  (0 < batchSize)%nat ->
  forall i store,
    (length items - i < fuel)%nat ->
    is_Some (saveLoop runTransaction batchSize mk items fuel i store).
Proof.
  intros Hpos. induction fuel as [|fuel IH]; intros i store Hfuel; simpl; [lia|].
  destruct (Nat.ltb_spec i (length items)) as [Hlt|Hge]; [|done].
  destruct (slice i (i + batchSize) items) as [|x batch].
  - apply IH. lia.
  - destruct (runTransaction store (mk (x :: batch))); [|done].
    apply IH. lia.
Qed.

Lemma saveGroups_spec fuel groups :
  forall store o,
    saveGroups runTransaction batchSize fuel groups store = Some o ->
    exists cs,
      storeOf o = store ++ cs
      /\ Forall (fun c => isNodeBatch c = false
                          /\ (batchLength c <= batchSize)%nat) cs.
Proof.
  induction groups as [|[type batch] groups IH]; intros store o; simpl.
  - intros [= <-]. exists []. simpl. by rewrite app_nil_r.
  - unfold saveRelationshipsBatch.
    assert (Hone : forall o1,
              match batch with
              | [] => Some (Completed store)
              | _ => saveLoop runTransaction batchSize (RelationshipBatch type)
                              batch fuel 0 store
              end = Some o1 ->
              exists bs, storeOf o1 = store ++ map (RelationshipBatch type) bs
                         /\ Forall (fun b => (length b <= batchSize)%nat) bs).
    { intros o1. destruct batch as [|r batch].
      - intros [= <-]. exists []. simpl. by rewrite app_nil_r.
      - intros H. apply saveLoop_spec in H as (bs & Hs & Hf & _). eauto. }
    destruct (match batch with [] => _ | _ => _ end) as [[store'|store']|] eqn:Hsave;
      [|intros [= <-]|done].
    + destruct (Hone _ eq_refl) as (bs & Hs & Hf). simpl in Hs.
      intros H. apply IH in H as (cs & Hcs & Hfc).
      exists (map (RelationshipBatch type) bs ++ cs). split.
      * rewrite Hcs, Hs. by rewrite <- app_assoc.
      * apply Forall_app. split; [|done].
        apply Forall_fmap. eapply Forall_impl; [exact Hf|]. by intros b Hb.
    + destruct (Hone _ eq_refl) as (bs & Hs & Hf).
      exists (map (RelationshipBatch type) bs). split; [done|].
      apply Forall_fmap. eapply Forall_impl; [exact Hf|]. by intros b Hb.
Qed.

Lemma saveGroups_returns fuel groups :
  (0 < batchSize)%nat ->
  Forall (fun g => (length (snd g) < fuel)%nat) groups ->
  forall store, is_Some (saveGroups runTransaction batchSize fuel groups store).
Proof.
  intros Hpos. induction 1 as [|[type batch] groups Hg _ IH]; intros store; simpl.
  - done.
  - assert (Hs : is_Some (saveRelationshipsBatch runTransaction batchSize
                            fuel type batch store)).
    { unfold saveRelationshipsBatch. destruct batch as [|r batch]; [done|].
      apply saveLoop_returns; [done|]. simpl in *. lia. }
    destruct Hs as [[store'|store'] ->]; [apply IH|done].
Qed.
End WritePhaseFacts.

Lemma group_lengths_bounded {A : Type} (groups : list (string * list A)) :
  Forall (fun g => (length (snd g) <= sum_list (map (fun g => length (snd g)) groups))%nat)
         groups.
Proof.
  induction groups as [|g groups IH]; simpl; constructor; [lia|].
  eapply Forall_impl; [exact IH|]. simpl. intros; lia.
Qed.

(** C6. In the write phase of [analyze], with a positive batch size and
    enough fuel for the loops to finish, every node batch and every
    relationship batch has at most [batchSize] records, and the commits
    are node batches followed by relationship batches; when a
    relationship batch was committed, the node batches before it are
    all the nodes. *)
Theorem storeResults_bounded_batches_nodes_first
    (runTransaction : Store -> Commit -> bool) (batchSize : nat)
    (finalNodes : list AstNode)
    (pass1Relationships pass2Relationships : list RelationshipInfo)
    (store : Store) :
  (0 < batchSize)%nat ->
  exists fuel0, forall fuel, (fuel0 <= fuel)%nat ->
    exists outcome nodeBatches relationshipCommits,
      storeResults runTransaction batchSize fuel finalNodes
                   pass1Relationships pass2Relationships store = Some outcome
      /\ storeOf outcome
         = store ++ map NodeBatch nodeBatches ++ relationshipCommits
      /\ Forall (fun b => (length b <= batchSize)%nat) nodeBatches
      /\ Forall (fun c => isNodeBatch c = false
                          /\ (batchLength c <= batchSize)%nat)
                relationshipCommits
      /\ (relationshipCommits <> [] -> concat nodeBatches = finalNodes).
Proof.
  intros Hpos. unfold storeResults.
  set (groups := JsMap.entries (groupByType _)).
  exists (S (length finalNodes + sum_list (map (fun g => length (snd g)) groups))).
  intros fuel Hfuel.
  assert (Hnodes : is_Some (saveNodesBatch runTransaction batchSize fuel
                              finalNodes store)).
  { unfold saveNodesBatch. destruct finalNodes as [|n ns]; [done|].
    apply saveLoop_returns; [done|]. simpl in *. lia. }
  destruct Hnodes as [o1 Ho1]. rewrite Ho1.
  assert (Hspec1 : exists bs,
             storeOf o1 = store ++ map NodeBatch bs
             /\ Forall (fun b => (length b <= batchSize)%nat) bs
             /\ match o1 with
                | Completed _ => concat bs = finalNodes
                | Threw _ => True
                end).
  { unfold saveNodesBatch in Ho1. destruct finalNodes as [|n ns].
    - injection Ho1 as <-. exists []. simpl. by rewrite app_nil_r.
    - apply saveLoop_spec in Ho1 as (bs & Hs & Hf & Hc). exists bs.
      split_and!; [done|done|]. by destruct o1. }
  destruct Hspec1 as (bs & Hs1 & Hf1 & Hc1).
  destruct o1 as [store1|store1]; simpl in Hs1.
  - assert (Hg : is_Some (saveGroups runTransaction batchSize fuel groups store1)).
    { apply saveGroups_returns; [done|].
      eapply Forall_impl; [apply group_lengths_bounded|]. simpl. intros; lia. }
    destruct Hg as [o2 Ho2]. rewrite Ho2.
    apply saveGroups_spec in Ho2 as (cs & Hs2 & Hf2).
    exists o2, bs, cs. split_and!; try done.
    by rewrite Hs2, Hs1, <- app_assoc.
  - exists (Threw store1), bs, []. simpl. split_and!; try done.
    by rewrite app_nil_r.
Qed.

(** The configured batch size satisfies the hypothesis. *)
Lemma configuredBatchSize_positive env : (0 < configuredBatchSize env)%nat.
Proof.
  unfold configuredBatchSize.
  assert (0 < storageBatchSize env); [|lia].
  destruct env as [[|c s]|]; [done| |done].
  rewrite storageBatchSize_nonempty; [|done].
  destruct (parseInt10 (c :: s)) as [n|]; [|done].
  destruct (n <=? 0) eqn:Hle; lia.
Qed.

Lemma storeResults_bounded_batches_nodes_first_witness :
  exists fuel0, forall fuel, (fuel0 <= fuel)%nat ->
    exists outcome nodeBatches relationshipCommits,
      storeResults Scenario1.acceptAll 2 fuel Scenario1.pass1Nodes
                   Scenario1.pass1Relationships Scenario1.pass2Relationships []
      = Some outcome
      /\ storeOf outcome = [] ++ map NodeBatch nodeBatches ++ relationshipCommits
      /\ Forall (fun b => (length b <= 2)%nat) nodeBatches
      /\ Forall (fun c => isNodeBatch c = false /\ (batchLength c <= 2)%nat)
                relationshipCommits
      /\ (relationshipCommits <> [] -> concat nodeBatches = Scenario1.pass1Nodes).
Proof.
  apply (storeResults_bounded_batches_nodes_first
           Scenario1.acceptAll 2 Scenario1.pass1Nodes
           Scenario1.pass1Relationships Scenario1.pass2Relationships []).
  lia.
Defined.

(** The write phase of scenario 1 with batches of two: five nodes in
    three batches, then the two IMPORTS edges in one batch. *)
Example scenario1_write_phase :
  option_map (fun o => map Scenario1.commitSummary (storeOf o))
    (storeResults Scenario1.acceptAll 2 10 Scenario1.pass1Nodes
                  Scenario1.pass1Relationships Scenario1.pass2Relationships [])
  = Some [("nodes", 2%nat); ("nodes", 2%nat); ("nodes", 1%nat); ("IMPORTS", 2%nat)]
  /\ storeResults Scenario1.acceptAll 0 10 Scenario1.pass1Nodes
                  Scenario1.pass1Relationships Scenario1.pass2Relationships []
     = None.
Proof. split; reflexivity. Qed.

(* ================================================================== *)
(** * Variable identifiers in Pass 1 and in Pass 2 *)
(* ================================================================== *)

Lemma append_empty_r s : s +:+ "" = s.
Proof.
  induction s as [|c s IH]; [done|].
  change (String c s +:+ "") with (String c (s +:+ "")). by rewrite IH.
Qed.

Lemma append_nonempty_ne s t : t <> "" -> s <> s +:+ t.
Proof.
  intros Ht Heq. apply Ht. symmetry.
  apply (String.app_inj s). by rewrite append_empty_r.
Qed.

(** The identifier Pass 2 derives for a variable. *)
Lemma getTargetDeclarationInfo_variable gen resolveImportPath path d n currentFilePath :
  vd_initializerIsFunction d = false ->
  getTargetDeclarationInfo gen resolveImportPath
    (Some (symbolOfVariable path d n)) currentFilePath
  = Some {| ti_name := n; ti_kind := "Variable";
            ti_filePath := normalizeSlashes (resolveImportPath currentFilePath path);
            ti_entityId :=
              gen "variable"
                  (normalizeSlashes (resolveImportPath currentFilePath path)
                     +:+ ":" +:+ n) |}.
Proof.
  intros Hinit. unfold getTargetDeclarationInfo, symbolOfVariable. simpl.
  unfold classifyDeclaration. simpl. by rewrite Hinit.
Qed.

(** C1 does not hold of the code. For every variable declaration whose
    initializer is not function-like, resolved by Pass 2 to the file
    path that Pass 1 recorded, the [entityId] of Pass 2 is built from
    [filePath:name] and the one of Pass 1 from [filePath:name:startLine];
    with a generator that gives distinct names distinct identifiers the
    two are different. *)
Theorem variable_entityId_differs_between_passes
    (gen : EntityIdGenerator) (resolveImportPath : string -> string -> string)
    (sourceFile : SourceFile) (now : string)
    (statement : VariableStatement) (d : VariableDeclaration) (n : string)
    (currentFilePath : string) :
  UniqueIdsPerKind gen ->
  vd_name d = Some n ->
  vd_initializerIsFunction d = false ->
  let fileNode := tsFileNode gen now sourceFile in
  let ctx := mkParserContext sourceFile fileNode gen now in
  normalizeSlashes (resolveImportPath currentFilePath (sf_filePath sourceFile))
  = filePath fileNode ->
  exists info,
    getTargetDeclarationInfo gen resolveImportPath
      (Some (symbolOfVariable (sf_filePath sourceFile) d n)) currentFilePath
    = Some info
    /\ ti_entityId info = gen "variable" (filePath fileNode +:+ ":" +:+ n)
    /\ entityId (variableNodeOf ctx statement d)
       = gen "variable" ((filePath fileNode +:+ ":" +:+ n)
                           +:+ ":" +:+ num (vd_startLine d))
    /\ ti_entityId info <> entityId (variableNodeOf ctx statement d).
Proof.
  intros Huniq Hname Hinit fileNode ctx Hpath.
  eexists. split; [by apply getTargetDeclarationInfo_variable|].
  simpl ti_entityId. rewrite Hpath.
  assert (Hp1 : entityId (variableNodeOf ctx statement d)
                = gen "variable" ((filePath fileNode +:+ ":" +:+ n)
                                    +:+ ":" +:+ num (vd_startLine d))).
  { unfold variableNodeOf. simpl. by rewrite Hname. }
  split_and!; [done|done|].
  rewrite Hp1. intros Heq. apply Huniq in Heq.
  by apply append_nonempty_ne in Heq.
Qed.

Lemma generateEntityId_unique_per_kind : UniqueIdsPerKind generateEntityId.
Proof.
  intros k q1 q2 H. unfold generateEntityId in H.
  apply String.app_inj in H. by apply (String.app_inj ":") in H.
Qed.

Lemma variable_entityId_differs_between_passes_witness :
  exists info,
    getTargetDeclarationInfo generateEntityId pass1ResolveImportPath
      (Some (symbolOfVariable "/src/b.ts" Scenario1.limitDeclaration "limit"))
      "/src/a.ts" = Some info
    /\ ti_entityId info = "variable:/src/b.ts:limit"
    /\ entityId (variableNodeOf Scenario1.fileBContext Scenario1.limitStatement
                                Scenario1.limitDeclaration)
       = "variable:/src/b.ts:limit:3"
    /\ ti_entityId info
       <> entityId (variableNodeOf Scenario1.fileBContext Scenario1.limitStatement
                                  Scenario1.limitDeclaration).
Proof.
  exact (variable_entityId_differs_between_passes
           generateEntityId pass1ResolveImportPath Scenario1.fileB Scenario1.now
           Scenario1.limitStatement Scenario1.limitDeclaration "limit" "/src/a.ts"
           generateEntityId_unique_per_kind eq_refl eq_refl eq_refl).
Defined.

(* ================================================================== *)
(** * Scenario 1: named imports are not resolved *)
(* ================================================================== *)

(** A function node of Pass 1 records the export flag as a field of the
    node; its [properties] bag holds [isCallback] only. *)
Lemma functionNodeOf_properties ctx declaration :
  opt_prop "isExported" (properties (functionNodeOf ctx declaration)) = JUndefined
  /\ opt_prop "isDefaultExport" (properties (functionNodeOf ctx declaration))
     = JUndefined.
Proof.
  unfold functionNodeOf.
  destruct (functionIdentity declaration) as [[[fname exported] [[l1 l2] c]] cb].
  by split.
Qed.

(** A target whose [properties] bag has neither flag is never linked. *)
Lemma resolveNamedImport_unflagged context importAstNode targetFileNode namedImport :
  (forall n, n ∈ JsMap.values (nodeIndex context) ->
     truthy (opt_prop "isExported" (properties n)) = false
     /\ truthy (opt_prop "isDefaultExport" (properties n)) = false) ->
  NoDup (JsMap.keys (nodeIndex context)) ->
  resolveNamedImport context importAstNode targetFileNode namedImport = [].
Proof.
  intros Hflags Hnd. unfold resolveNamedImport.
  destruct (lookupExportedDeclaration _ _ _) as [targetNode|] eqn:Hl; [|done].
  assert (Hin : targetNode ∈ JsMap.values (nodeIndex context)).
  { unfold lookupExportedDeclaration in Hl.
    assert (Hget : forall k, JsMap.get k (nodeIndex context) = Some targetNode ->
                     targetNode ∈ JsMap.values (nodeIndex context)).
    { intros k Hk. apply JsMapFacts.elem_of_entries in Hk; [|done].
      unfold JsMap.values. apply list_elem_of_fmap. by exists (k, targetNode). }
    repeat match type of Hl with
           | match ?g with Some _ => _ | None => _ end = Some _ =>
               let H := fresh in
               destruct g eqn:H; [injection Hl as ->; by eapply Hget|]
           end.
    by eapply Hget. }
  destruct (Hflags _ Hin) as [-> ->]. done.
Qed.

Lemma values_ofEntries_elem_of {V : Type} (l : list (string * V)) x :
  x ∈ JsMap.values (JsMap.ofEntries l) -> x ∈ map snd l.
Proof.
  unfold JsMap.values. intros Hx.
  apply list_elem_of_fmap in Hx as ([k v] & -> & Hin). simpl.
  apply JsMapFacts.elem_of_entries in Hin; [|apply JsMapFacts.keys_NoDup_ofEntries].
  unfold JsMap.ofEntries in Hin.
  rewrite (JsMapFacts.get_fold_set fst snd) in Hin.
  destruct (lastWith fst k l) as [e|] eqn:Hl; [|done].
  injection Hin as <-. apply lastWith_elem_of in Hl.
  apply list_elem_of_fmap. by exists e.
Qed.

(** Every merged node is a node of one of the processed results. *)
Lemma collectResults_nodes_processed tempFiles tsResults n :
  n ∈ fst (collectResults tempFiles tsResults) ->
  n ∈ processedNodes tempFiles tsResults.
Proof.
  unfold collectResults, processedNodes. simpl. rewrite collectMaps_fold.
  destruct (fold_addFileResult (processedResults tempFiles tsResults) emptyCollected)
    as ((Hn & _) & Hgn & _).
  { split; apply NoDup_nil_2. }
  unfold JsMap.values. intros Hin.
  apply list_elem_of_fmap in Hin as ([k x] & -> & Hin). simpl.
  apply JsMapFacts.elem_of_entries in Hin; [|done].
  rewrite Hgn in Hin.
  destruct (lastWith entityId k _) eqn:Hl; [|done].
  injection Hin as <-. by apply lastWith_elem_of in Hl.
Qed.

Lemma addNode_unflagged n r :
  Unflagged n -> Forall Unflagged (res_nodes r) ->
  Forall Unflagged (res_nodes (addNode n r)).
Proof.
  intros Hn Hr. unfold addNode. simpl. apply Forall_app. split; [done|].
  by constructor.
Qed.

Lemma fold_unflagged {A : Type}
    (f : SingleFileParseResult -> A -> SingleFileParseResult) (l : list A) :
  (forall r x, Forall Unflagged (res_nodes r) -> Forall Unflagged (res_nodes (f r x))) ->
  forall r, Forall Unflagged (res_nodes r) ->
            Forall Unflagged (res_nodes (fold_left f l r)).
Proof.
  intros Hf. induction l as [|x l IH]; intros r Hr; simpl; [done|].
  apply IH. by apply Hf.
Qed.

Lemma parseImports_unflagged ctx r :
  Forall Unflagged (res_nodes r) -> Forall Unflagged (res_nodes (parseImports ctx r)).
Proof.
  unfold parseImports. apply fold_unflagged. clear r. intros r d Hr.
  unfold parseImport, addRel. simpl. apply Forall_app. split; [done|].
  constructor; [|done]. by split.
Qed.

Lemma parseParameters_unflagged ctx ps parentNode r :
  Forall Unflagged (res_nodes r) ->
  Forall Unflagged (res_nodes (parseParameters ctx ps parentNode r)).
Proof.
  unfold parseParameters. apply fold_unflagged. clear r. intros r p Hr.
  unfold parseParameter. destruct (existsb _ _); [done|].
  unfold addRel. simpl. apply Forall_app. split; [done|].
  constructor; [|done]. by split.
Qed.

Lemma parseFunctions_unflagged ctx r :
  Forall Unflagged (res_nodes r) -> Forall Unflagged (res_nodes (parseFunctions ctx r)).
Proof.
  unfold parseFunctions. apply fold_unflagged. clear r. intros r d Hr.
  unfold parseFunction. apply parseParameters_unflagged.
  apply addNode_unflagged; [|done].
  destruct (functionNodeOf_properties ctx d) as [H1 H2].
  unfold Unflagged. by rewrite H1, H2.
Qed.

Lemma parseVariables_unflagged ctx r :
  Forall Unflagged (res_nodes r) -> Forall Unflagged (res_nodes (parseVariables ctx r)).
Proof.
  unfold parseVariables. apply fold_unflagged. clear r. intros r s Hr.
  unfold parseVariableStatement. revert Hr. apply fold_unflagged. clear r.
  intros r d Hr. destruct (vd_initializerIsFunction d); [done|].
  apply addNode_unflagged; [by split|done].
Qed.

(** No node that Pass 1 makes for a file of functions, variables and
    imports has an export flag in its [properties] bag. *)
Lemma parseTsSourceFile_unflagged gen now sourceFile :
  Forall Unflagged
         (res_nodes (parseTsSourceFile noOtherConstructs gen now sourceFile)).
Proof.
  unfold parseTsSourceFile. simpl.
  assert (H : forall ctx,
             Forall Unflagged
               (res_nodes
                  (parseVariables ctx
                     (parseFunctions ctx
                        (parseImports ctx
                           (mkResult (filePath (tsFileNode gen now sourceFile))
                                     [tsFileNode gen now sourceFile] [])))))).
  { intros ctx. apply parseVariables_unflagged, parseFunctions_unflagged,
      parseImports_unflagged. simpl. constructor; [by split|done]. }
  by destruct (String.eqb _ "TSX").
Qed.

Lemma set_values_Forall {V : Type} (P : V -> Prop) k v (m : JsMap.t V) :
  P v -> Forall P (JsMap.values m) -> Forall P (JsMap.values (JsMap.set k v m)).
Proof.
  intros Hv. unfold JsMap.values.
  induction m as [|[k' v'] m IH]; simpl; intros Hm.
  - by constructor.
  - apply Forall_cons in Hm as [Hv' Hm].
    destruct (String.eqb k' k); simpl; constructor; auto.
Qed.

Lemma parseTsProjectFiles_unflagged gen now project targets :
  Forall (fun r => Forall Unflagged (res_nodes r))
         (JsMap.values (parseTsProjectFiles noOtherConstructs gen now project targets)).
Proof.
  unfold parseTsProjectFiles.
  assert (H : forall acc : JsMap.t SingleFileParseResult,
             Forall (fun r => Forall Unflagged (res_nodes r)) (JsMap.values acc) ->
             Forall (fun r => Forall Unflagged (res_nodes r))
               (JsMap.values
                  (fold_left
                     (fun tsResults sourceFile =>
                        let path := normalizeSlashes (sf_filePath sourceFile) in
                        if existsb (String.eqb path) targets
                        then JsMap.set path
                               (parseTsSourceFile noOtherConstructs gen now sourceFile)
                               tsResults
                        else tsResults)
                     project acc))).
  { induction project as [|sf project IH]; intros acc Hacc; simpl; [done|].
    apply IH. destruct (existsb _ targets); [|done].
    apply set_values_Forall; [apply parseTsSourceFile_unflagged|done]. }
  apply H. constructor.
Qed.

(** After Pass 1 of such files and the merge, the index holds no node
    with an export flag in its [properties] bag. *)
Lemma pass1_index_unflagged gen now project targets n :
  n ∈ JsMap.values
        (JsMap.ofEntries
           (map (fun n => (entityId n, n))
                (fst (collectResults []
                        (parseTsProjectFiles noOtherConstructs gen now project targets))))) ->
  Unflagged n.
Proof.
  intros Hn. apply values_ofEntries_elem_of in Hn.
  rewrite map_map, map_id in Hn.
  apply collectResults_nodes_processed in Hn.
  unfold processedNodes, processedResults in Hn. simpl in Hn.
  apply elem_of_concat in Hn as (ns & Hn & Hns).
  apply list_elem_of_fmap in Hns as (r & -> & Hr).
  pose proof (parseTsProjectFiles_unflagged gen now project targets) as Hall.
  rewrite Forall_forall in Hall. specialize (Hall r Hr).
  rewrite Forall_forall in Hall. by apply Hall.
Qed.

(** Named imports are never linked to a declaration of such an index. *)
Lemma named_imports_are_not_resolved context fileNode impDecl :
  (forall n, n ∈ JsMap.values (nodeIndex context) -> Unflagged n) ->
  NoDup (JsMap.keys (nodeIndex context)) ->
  isTruthyString (imp_defaultImport impDecl) = false ->
  isTruthyString (imp_namespaceImport impDecl) = false ->
  List.filter isResolvesImport (resolveImportDeclaration fileNode context impDecl) = [].
Proof.
  intros Hflags Hnd Hdef Hns. unfold resolveImportDeclaration.
  destruct (imp_moduleSpecifier impDecl) as [moduleSpecifier|]; [|done].
  destruct (String.eqb moduleSpecifier ""); [done|].
  rewrite Hdef, Hns.
  destruct (JsMap.get _ (nodeIndex context)) as [importAstNode|]; [|done].
  destruct (findNodeByFilePath _ context) as [targetFileNode|]; [|done].
  assert (Hnamed : concat (map (resolveNamedImport context importAstNode targetFileNode)
                               (imp_namedImports impDecl)) = []).
  { apply concat_nil_Forall, Forall_fmap, Forall_forall. intros ni _. simpl.
    by apply resolveNamedImport_unflagged. }
  by rewrite Hnamed.
Qed.

(** C2 does not hold of the code. In scenario 1 the index holds the
    Import node for ['./b'] and the exported Function node of [funcB],
    whose identifier ends with its start line; the lookups of Pass 2
    (kinds Function, Class, Interface, Variable, without a line) find
    nothing, and [resolveTsModules] submits the IMPORTS edge and no
    RESOLVES_IMPORT edge. Besides, no function node of Pass 1 carries
    the [properties.isExported] flag that the resolver tests, so that
    no RESOLVES_IMPORT edge is submitted whatever the identifier
    generator is. *)
Theorem scenario1_emits_no_resolves_import
    (resolveImportPath : string -> string -> string) :
  (exists importNode funcB,
      JsMap.get "import:/src/a.ts:./b:2"
                (nodeIndex (Scenario1.context resolveImportPath)) = Some importNode
      /\ kind importNode = "Import"
      /\ JsMap.get "function:/src/b.ts:funcB:2"
                   (nodeIndex (Scenario1.context resolveImportPath)) = Some funcB
      /\ kind funcB = "Function" /\ name funcB = "funcB"
      /\ isExported funcB = Some true
      /\ opt_prop "isExported" (properties funcB) = JUndefined)
  /\ lookupExportedDeclaration (Scenario1.context resolveImportPath)
                               "/src/b.ts" "funcB" = None
  /\ map rel_type (resolveTsModules Scenario1.fileA Scenario1.fileANode
                                    (Scenario1.context resolveImportPath))
     = ["IMPORTS"]
  /\ (forall gen : EntityIdGenerator,
        List.filter isResolvesImport
          (resolveTsModules Scenario1.fileA
                            (tsFileNode gen Scenario1.now Scenario1.fileA)
                            (Scenario1.contextWith gen resolveImportPath)) = []).
Proof.
  split_and!.
  - eexists _, _. split_and!; reflexivity.
  - reflexivity.
  - reflexivity.
  - intros gen. unfold resolveTsModules.
    cbn [Scenario1.fileA sf_importDeclarations sf_exportDeclarations
         sf_exportAssignments map concat].
    rewrite !app_nil_r.
    apply named_imports_are_not_resolved.
    + intros n Hn.
      unfold Scenario1.contextWith, Scenario1.pass1NodesWith,
        Scenario1.tsResultsWith in Hn.
      cbn [nodeIndex] in Hn.
      exact (pass1_index_unflagged gen _ _ _ n Hn).
    + apply JsMapFacts.keys_NoDup_ofEntries.
    + reflexivity.
    + reflexivity.
Qed.

(* ================================================================== *)
(** * Scenario 5: files of the JSX variant are skipped by Pass 2 *)
(* ================================================================== *)

Lemma tsFileNode_language gen now sourceFile :
  sf_languageVariant sourceFile = JSX ->
  language (tsFileNode gen now sourceFile) = "TSX"
  /\ kind (tsFileNode gen now sourceFile) = "File".
Proof. intros H. unfold tsFileNode. simpl. by rewrite H. Qed.

Lemma fileSubmissions_other_language others project context fileNode :
  isTsLanguage (language fileNode) = false ->
  isCLanguage (language fileNode) = false ->
  fileSubmissions others project context fileNode = [].
Proof. intros Hts Hc. unfold fileSubmissions. by rewrite Hts, Hc. Qed.

(** C3 does not hold of the code. The file node that Pass 1 creates for
    a source file of the JSX language variant has the language ["TSX"];
    Pass 2 runs the TS/JS resolvers, component usage included, only for
    file nodes whose language is ["TypeScript"] or ["JavaScript"]. When
    the file nodes of the run are such files, Pass 2 returns no
    relationship at all, whatever the resolvers would submit. *)
Theorem jsx_variant_files_get_no_pass2_edges
    (others : OtherTsResolvers) (gen : EntityIdGenerator)
    (resolveImportPath : string -> string -> string) (now : string)
    (project : Project) (sourceFile : SourceFile) (otherNodes : list AstNode) :
  sf_languageVariant sourceFile = JSX ->
  Forall (fun n => isFileKind n = false) otherNodes ->
  language (tsFileNode gen now sourceFile) = "TSX"
  /\ (forall context,
        fileSubmissions others project context (tsFileNode gen now sourceFile) = [])
  /\ resolveRelationships others gen resolveImportPath now
       (tsFileNode gen now sourceFile :: otherNodes) project = [].
Proof.
  intros Hjsx Hothers.
  destruct (tsFileNode_language gen now sourceFile Hjsx) as [Hlang Hkind].
  split_and!; [done| |].
  - intros context. apply fileSubmissions_other_language; by rewrite Hlang.
  - unfold resolveRelationships. rewrite fold_submitAll.
    set (index := JsMap.ofEntries _).
    set (context := mkResolverContext _ _ _ _).
    assert (Hnil : concat (map (fileSubmissions others project context)
                               (List.filter isFileKind (JsMap.values index))) = []).
    { apply concat_nil_Forall. apply Forall_fmap. apply Forall_forall.
      intros n Hn. apply list_elem_of_In, filter_In in Hn as [Hn Hfile].
      apply list_elem_of_In, values_ofEntries_elem_of in Hn.
      rewrite map_map, map_id in Hn. simpl.
      apply elem_of_cons in Hn as [->|Hn].
      - apply fileSubmissions_other_language; by rewrite Hlang.
      - rewrite Forall_forall in Hothers. by rewrite (Hothers n Hn) in Hfile. }
    by rewrite Hnil.
Qed.

Lemma jsx_variant_files_get_no_pass2_edges_witness :
  language Scenario5.fileNode = "TSX"
  /\ (forall context,
        fileSubmissions Scenario5.eagerResolvers [Scenario5.app] context
                        Scenario5.fileNode = [])
  /\ resolveRelationships Scenario5.eagerResolvers generateEntityId
       pass1ResolveImportPath Scenario5.now
       (Scenario5.fileNode :: Scenario5.otherNodes) [Scenario5.app] = [].
Proof.
  apply (jsx_variant_files_get_no_pass2_edges
           Scenario5.eagerResolvers generateEntityId pass1ResolveImportPath
           Scenario5.now [Scenario5.app] Scenario5.app Scenario5.otherNodes).
  - reflexivity.
  - vm_compute. repeat constructor.
Defined.

(** Had the file node been labelled ["TypeScript"], the same resolvers
    would have been run on it. *)
Example typescript_label_runs_the_resolvers :
  map rel_type
    (resolveRelationships Scenario5.eagerResolvers generateEntityId
       pass1ResolveImportPath Scenario5.now
       (tsFileNode generateEntityId Scenario5.now
          {| sf_filePath := "/src/App.tsx"; sf_languageVariant := Standard;
             sf_endLineNumber := 6; sf_importDeclarations := [];
             sf_functions := []; sf_variableStatements := [];
             sf_exportDeclarations := []; sf_exportAssignments := [] |}
        :: Scenario5.otherNodes)
       [Scenario5.app])
  = ["USES_COMPONENT"].
Proof. reflexivity. Qed.

(* ================================================================== *)
(** * C/C++ includes: what the include resolver submits *)
(* ================================================================== *)

Lemma resolveIncludeDirective_spec fileNode context directiveNode rel :
  rel ∈ resolveIncludeDirective fileNode context directiveNode <->
  exists p,
    opt_prop "includePath" (properties directiveNode) = JString p /\ p <> ""
    /\ rel = {| rel_entityId :=
                  rc_generateEntityId context "includes"
                    (entityId fileNode +:+ ":"
                       +:+ rc_generateEntityId context "file" p);
                rel_type := "INCLUDES";
                sourceId := entityId fileNode;
                targetId := rc_generateEntityId context "file" p;
                rel_weight := Some 4;
                rel_properties := Some
                  [("includePath", JString p);
                   ("isSystemInclude",
                     opt_prop "isSystemInclude" (properties directiveNode));
                   ("isPlaceholder", JBool true)];
                rel_createdAt := rc_now context |}.
Proof.
  unfold resolveIncludeDirective.
  destruct (opt_prop "includePath" (properties directiveNode)) as [| | |p|];
    try (split; [intros H; by apply elem_of_nil in H|by intros (p' & ? & _)]).
  destruct (String.eqb_spec p "") as [->|Hne].
  - split; [intros H; by apply elem_of_nil in H|].
    intros (p' & [= <-] & ? & _). done.
  - rewrite list_elem_of_singleton. split.
    + intros ->. by exists p.
    + by intros (p' & [= <-] & _ & ->).
Qed.


(* ================================================================== *)
(** * The dispatcher: [.cc] and [.hh] files *)
(* ================================================================== *)

Lemma dispatchFile_no_parser supportedExtensions w file :
  dispatch supportedExtensions file = (NoParser, []) ->
  dispatchFile supportedExtensions w file = w.
Proof.
  intros H. unfold dispatchFile. rewrite H. destruct w. simpl.
  by rewrite app_nil_r.
Qed.

Lemma parseTsProjectFiles_ignores_foreign_target others gen now project
    (before after : list string) path :
  Forall (fun sf => normalizeSlashes (sf_filePath sf) <> path) project ->
  parseTsProjectFiles others gen now project (before ++ path :: after)
  = parseTsProjectFiles others gen now project (before ++ after).
Proof.
  intros Hproj. unfold parseTsProjectFiles. generalize (@JsMap.empty SingleFileParseResult).
  induction Hproj as [|sf project Hsf _ IH]; intros acc; simpl; [done|].
  assert (Hex : existsb (String.eqb (normalizeSlashes (sf_filePath sf)))
                        (before ++ path :: after)
                = existsb (String.eqb (normalizeSlashes (sf_filePath sf)))
                          (before ++ after)).
  { rewrite !existsb_app. simpl.
    destruct (String.eqb_spec (normalizeSlashes (sf_filePath sf)) path); done. }
  rewrite Hex. apply IH.
Qed.

(** C10. A file whose extension is [.cc] or [.hh] is dropped without a
    trace by the Pass-1 dispatcher although both extensions are among
    the default supported extensions: no parser case matches, nothing
    is logged, and the run is the same as if the file were not there:
    the same files go to the same parsers, the same paths are added to
    the TS project, and, no source file of that project having the
    path of the file, the same TS/JS results are produced. So no File
    node is created for it. *)
Theorem cc_and_hh_files_are_silently_dropped (file : FileInfo) :
  fi_extension file = ".cc" \/ fi_extension file = ".hh" ->
  includes (fi_extension file) defaultSupportedExtensions = true
  /\ dispatch defaultSupportedExtensions file = (NoParser, [])
  /\ (forall before after,
        dispatchFiles defaultSupportedExtensions (before ++ file :: after)
        = dispatchFiles defaultSupportedExtensions (before ++ after))
  /\ (forall others gen now addSourceFilesAtPaths before after,
        (forall paths,
           Forall (fun sf => normalizeSlashes (sf_filePath sf)
                             <> normalizeSlashes (fi_path file))
                  (addSourceFilesAtPaths paths)) ->
        parseFilesTs others gen now addSourceFilesAtPaths
                     defaultSupportedExtensions (before ++ file :: after)
        = parseFilesTs others gen now addSourceFilesAtPaths
                       defaultSupportedExtensions (before ++ after)).
Proof.
  intros Hext.
  assert (Hd : dispatch defaultSupportedExtensions file = (NoParser, [])).
  { unfold dispatch. by destruct Hext as [-> | ->]. }
  assert (Hfiles : forall before after,
             dispatchFiles defaultSupportedExtensions (before ++ file :: after)
             = dispatchFiles defaultSupportedExtensions (before ++ after)).
  { intros before after. unfold dispatchFiles.
    rewrite !fold_left_app. simpl. by rewrite dispatchFile_no_parser. }
  split_and!.
  - by destruct Hext as [-> | ->].
  - done.
  - done.
  - intros others gen now addSourceFilesAtPaths before after Hproj.
    unfold parseFilesTs. rewrite Hfiles.
    destruct (tsFilesToAdd _) as [|p ps]; [done|].
    unfold targetFilePaths. rewrite !map_app. simpl.
    by apply parseTsProjectFiles_ignores_foreign_target.
Qed.

Lemma cc_and_hh_files_are_silently_dropped_witness :
  dispatch defaultSupportedExtensions
           (mkFileInfo "/project/shapes/Circle.cc" "Circle.cc" ".cc")
  = (NoParser, [])
  /\ dispatchFiles defaultSupportedExtensions
       [mkFileInfo "/project/main.cpp" "main.cpp" ".cpp";
        mkFileInfo "/project/shapes/Circle.cc" "Circle.cc" ".cc";
        mkFileInfo "/project/notes.txt" "notes.txt" ".txt"]
     = dispatchFiles defaultSupportedExtensions
         [mkFileInfo "/project/main.cpp" "main.cpp" ".cpp";
          mkFileInfo "/project/notes.txt" "notes.txt" ".txt"].
Proof.
  destruct (cc_and_hh_files_are_silently_dropped
              (mkFileInfo "/project/shapes/Circle.cc" "Circle.cc" ".cc"))
    as (_ & Hd & Hfiles & _).
  - left. reflexivity.
  - split; [exact Hd|].
    exact (Hfiles [mkFileInfo "/project/main.cpp" "main.cpp" ".cpp"]
                  [mkFileInfo "/project/notes.txt" "notes.txt" ".txt"]).
Defined.

(** When the dispatcher warns: no parser case matches and the extension
    is not among the supported extensions other than [.sql]. *)
Lemma dispatch_warns_iff supportedExtensions file :
  snd (dispatch supportedExtensions file)
  = [LogWarn ("Unsupported file type: " +:+ fi_extension file +:+ " for "
                +:+ fi_path file)]
  <-> fst (dispatch supportedExtensions file) = NoParser
      /\ includes (fi_extension file)
                  (List.filter (fun e => negb (String.eqb e ".sql")) supportedExtensions)
         = false.
Proof.
  unfold dispatch.
  repeat match goal with
         | |- context [if ?b then (Delegate _, _) else _] => destruct b; [by split; [|intros []]|]
         | |- context [if ?b then (AddToTsProject, _) else _] => destruct b; [by split; [|intros []]|]
         end.
  simpl. destruct (includes _ _); simpl.
  - split; [|by intros []]. by destruct (String.eqb _ ".sql").
  - done.
Qed.

(** For comparison: an extension outside the supported list is skipped
    with a warning, and [.cpp] goes to the C/C++ parser. *)
Example dispatch_other_extensions :
  dispatch defaultSupportedExtensions (mkFileInfo "/p/notes.txt" "notes.txt" ".txt")
  = (NoParser, [LogWarn "Unsupported file type: .txt for /p/notes.txt"])
  /\ dispatch defaultSupportedExtensions (mkFileInfo "/p/a.cpp" "a.cpp" ".cpp")
     = (Delegate CCppParser, [])
  /\ dispatch defaultSupportedExtensions (mkFileInfo "/p/q.sql" "q.sql" ".sql")
     = (NoParser, [LogWarn "Unsupported file type: .sql for /p/q.sql"]).
Proof. split_and!; reflexivity. Qed.

(* ================================================================== *)
(** * The write phase: what is committed *)
(* ================================================================== *)

Section WritePhaseCommits.
Variable runTransaction : Store -> Commit -> bool.
Variable batchSize : nat.

(** A save loop stops at the first batch the store rejects: the batches
    committed before it, the rejected batch and the rest make up the
    items from [i] on. *)
Lemma saveLoop_prefix {A : Type} (mk : list A -> Commit) items fuel :
  forall i store o,
    saveLoop runTransaction batchSize mk items fuel i store = Some o ->
    exists bs,
      storeOf o = store ++ map mk bs
      /\ Forall (fun b => b <> [] /\ (length b <= batchSize)%nat) bs
      /\ match o with
         | Completed _ => concat bs = drop i items
         | Threw s =>
             exists b rest,
               b <> [] /\ runTransaction s (mk b) = false
               /\ concat bs ++ b ++ rest = drop i items
         end.
Proof.
  induction fuel as [|fuel IH]; intros i store o; simpl; [done|].
  destruct (Nat.ltb_spec i (length items)) as [Hlt|Hge].
  - pose proof (slice_length batchSize items i) as Hlen.
    pose proof (slice_drop batchSize items i) as Hdrop.
    destruct (slice i (i + batchSize) items) as [|x batch] eqn:Hb.
    + intros H. apply IH in H as (bs & Hs & Hf & Hc).
      exists bs. split_and!; [done|done|].
      simpl in Hdrop. rewrite <- Hdrop. exact Hc.
    + destruct (runTransaction store (mk (x :: batch))) eqn:Hrun.
      * intros H. apply IH in H as (bs & Hs & Hf & Hc).
        exists ((x :: batch) :: bs). split_and!.
        -- rewrite Hs. simpl. by rewrite <- app_assoc.
        -- by constructor.
        -- destruct o as [s|s].
           ++ simpl. rewrite Hc. exact Hdrop.
           ++ destruct Hc as (b & rest & Hne & Hrej & Hc).
              exists b, rest. split_and!; [done|done|].
              rewrite <- Hdrop, <- Hc. simpl. by rewrite <- app_assoc.
      * intros [= <-]. exists []. simpl. rewrite app_nil_r.
        split_and!; [done|done|].
        exists (x :: batch), (drop (i + batchSize) items). by split_and!.
  - intros [= <-]. exists []. simpl. rewrite app_nil_r.
    split_and!; [done|done|]. by rewrite drop_ge.
Qed.

Lemma saveNodesBatch_prefix (fuel : nat) (nodes : list AstNode) (store : Store) :
  (0 < batchSize)%nat ->
  (length nodes < fuel)%nat ->
  exists o bs,
    saveNodesBatch runTransaction batchSize fuel nodes store = Some o
    /\ storeOf o = store ++ map NodeBatch bs
    /\ Forall (fun b => b <> [] /\ (length b <= batchSize)%nat) bs
    /\ match o with
       | Completed _ => concat bs = nodes
       | Threw s =>
           exists b rest,
             b <> [] /\ runTransaction s (NodeBatch b) = false
             /\ concat bs ++ b ++ rest = nodes
       end.
Proof.
  intros Hpos Hfuel. unfold saveNodesBatch.
  destruct nodes as [|n ns].
  - exists (Completed store), []. simpl. by rewrite app_nil_r.
  - destruct (saveLoop_returns runTransaction batchSize NodeBatch (n :: ns) fuel
                Hpos 0%nat store) as [o Ho]; [lia|].
    exists o. apply saveLoop_prefix in Ho as Hp. destruct Hp as (bs & Hs & Hf & Hc).
    exists bs. by split_and!.
Qed.

(** X1. [saveNodesBatch] with a positive batch size returns; it has
    appended non-empty batches of at most [batchSize] nodes that are,
    in order, a prefix of its input: all of it when it completed, and
    otherwise everything before the first batch the store rejected. *)
Theorem saveNodesBatch_commits_a_prefix (fuel : nat) (nodes : list AstNode)
    (store : Store) :
  (0 < batchSize)%nat ->
  (length nodes < fuel)%nat ->
  exists o bs,
    saveNodesBatch runTransaction batchSize fuel nodes store = Some o
    /\ storeOf o = store ++ map NodeBatch bs
    /\ Forall (fun b => b <> [] /\ (length b <= batchSize)%nat) bs
    /\ match o with
       | Completed _ => concat bs = nodes
       | Threw s =>
           exists b rest,
             b <> [] /\ runTransaction s (NodeBatch b) = false
             /\ concat bs ++ b ++ rest = nodes
       end.
Proof. apply saveNodesBatch_prefix. Qed.
End WritePhaseCommits.

Lemma saveNodesBatch_commits_a_prefix_witness :
  exists o bs,
    saveNodesBatch (fun s _ => Nat.ltb (length s) 1) 2 10 Scenario1.pass1Nodes []
    = Some o
    /\ storeOf o = [] ++ map NodeBatch bs
    /\ Forall (fun b => b <> [] /\ (length b <= 2)%nat) bs
    /\ match o with
       | Completed _ => concat bs = Scenario1.pass1Nodes
       | Threw s =>
           exists b rest,
             b <> [] /\ (fun s _ => Nat.ltb (length s) 1) s (NodeBatch b) = false
             /\ concat bs ++ b ++ rest = Scenario1.pass1Nodes
       end.
Proof.
  apply (saveNodesBatch_commits_a_prefix (fun s _ => Nat.ltb (length s) 1) 2 10
           Scenario1.pass1Nodes []); [lia|vm_compute; lia].
Defined.

(* ================================================================== *)
(** * Maps built from keyed records *)
(* ================================================================== *)

Lemma fold_left_keyed {A : Type} (key : A -> string) (l : list A) (m : JsMap.t A) :
  fold_left (fun m kv => JsMap.set (fst kv) (snd kv) m)
            (map (fun x => (key x, x)) l) m
  = fold_left (fun m x => JsMap.set (key x) x m) l m.
Proof. revert m. induction l as [|x l IH]; intros m; simpl; [done|apply IH]. Qed.

(** [new Map(items.map(x => [key(x), x]))]: a key is bound to the last
    item that has it. *)
Lemma get_ofEntries_keyed {A : Type} (key : A -> string) (l : list A) k :
  JsMap.get k (JsMap.ofEntries (map (fun x => (key x, x)) l)) = lastWith key k l.
Proof.
  unfold JsMap.ofEntries. rewrite fold_left_keyed.
  rewrite (JsMapFacts.get_fold_set key (fun x => x)).
  by destruct (lastWith key k l).
Qed.

Lemma ofEntries_WellKeyed {A : Type} (key : A -> string) (l : list A) :
  WellKeyed key (JsMap.ofEntries (map (fun x => (key x, x)) l)).
Proof.
  split; [apply JsMapFacts.keys_NoDup_ofEntries|].
  intros k x. rewrite get_ofEntries_keyed. apply lastWith_key.
Qed.

(* ================================================================== *)
(** * Grouping by type *)
(* ================================================================== *)

Lemma groupByType_get_from (rels : list RelationshipInfo) :
  forall (groups : JsMap.t (list RelationshipInfo)) t,
    JsMap.get t
      (fold_left
         (fun groups rel =>
            JsMap.set (rel_type rel)
                      (default [] (JsMap.get (rel_type rel) groups) ++ [rel])
                      groups)
         rels groups)
    = match JsMap.get t groups with
      | Some g => Some (g ++ List.filter (hasType t) rels)
      | None =>
          match List.filter (hasType t) rels with
          | [] => None
          | g => Some g
          end
      end.
Proof.
  induction rels as [|r rels IH]; intros groups t; simpl.
  - destruct (JsMap.get t groups); [by rewrite app_nil_r|done].
  - rewrite IH, JsMapFacts.get_set.
    assert (Hh : hasType t r = String.eqb (rel_type r) t) by done. rewrite Hh.
    destruct (String.eqb (rel_type r) t) eqn:Ht.
    + apply String.eqb_eq in Ht. rewrite Ht.
      destruct (JsMap.get t groups) as [g|]; simpl.
      * by rewrite <- app_assoc.
      * done.
    + by destruct (JsMap.get t groups).
Qed.

Lemma groupByType_keys_NoDup rels : NoDup (JsMap.keys (groupByType rels)).
Proof.
  unfold groupByType.
  assert (H : forall groups : JsMap.t (list RelationshipInfo),
             NoDup (JsMap.keys groups) ->
             NoDup (JsMap.keys
               (fold_left
                  (fun groups rel =>
                     JsMap.set (rel_type rel)
                       (default [] (JsMap.get (rel_type rel) groups) ++ [rel])
                       groups)
                  rels groups))).
  { induction rels as [|r rels IH]; intros groups Hg; simpl; [done|].
    apply IH. by apply JsMapFacts.keys_NoDup_set. }
  apply H. constructor.
Qed.

(** X2. [relationshipsByType] has one entry per type that occurs; the
    entry of a type holds exactly the relationships of that type, in
    the order of the input, and a type that does not occur has no
    entry. *)
Theorem groupByType_partitions rels :
  NoDup (JsMap.keys (groupByType rels))
  /\ forall t,
       JsMap.get t (groupByType rels)
       = match List.filter (hasType t) rels with
         | [] => None
         | g => Some g
         end.
Proof.
  split; [apply groupByType_keys_NoDup|].
  intros t. unfold groupByType. by rewrite groupByType_get_from.
Qed.

Lemma set_append_concat {A : Type} k (x : A) (groups : JsMap.t (list A)) :
  concat (map snd (JsMap.set k (default [] (JsMap.get k groups) ++ [x]) groups))
  ≡ₚ concat (map snd groups) ++ [x].
Proof.
  induction groups as [|[k' v'] groups IH]; simpl; [done|].
  destruct (String.eqb k' k); simpl.
  - rewrite <- !app_assoc. apply Permutation_app_head, Permutation_app_comm.
  - rewrite IH. by rewrite <- app_assoc.
Qed.

Lemma groupByType_concat rels :
  concat (map snd (JsMap.entries (groupByType rels))) ≡ₚ rels.
Proof.
  unfold groupByType, JsMap.entries.
  assert (H : forall groups : JsMap.t (list RelationshipInfo),
             concat (map snd
               (fold_left
                  (fun groups rel =>
                     JsMap.set (rel_type rel)
                       (default [] (JsMap.get (rel_type rel) groups) ++ [rel])
                       groups)
                  rels groups))
             ≡ₚ concat (map snd groups) ++ rels).
  { induction rels as [|r rels IH]; intros groups; simpl.
    - by rewrite app_nil_r.
    - rewrite IH, set_append_concat. by rewrite <- app_assoc. }
  by rewrite H.
Qed.

Lemma groupByType_typed rels :
  Forall (fun g => Forall (fun r => rel_type r = fst g) (snd g))
         (JsMap.entries (groupByType rels)).
Proof.
  apply Forall_forall. intros [t g] Hin. simpl.
  apply JsMapFacts.elem_of_entries in Hin; [|apply groupByType_keys_NoDup].
  destruct (groupByType_partitions rels) as [_ Hget]. rewrite Hget in Hin.
  assert (Hg : g = List.filter (hasType t) rels).
  { by destruct (List.filter (hasType t) rels); simplify_eq. }
  subst g. apply Forall_forall. intros r Hr.
  apply list_elem_of_In, filter_In in Hr as [_ Hr].
  by apply String.eqb_eq in Hr.
Qed.

(* ================================================================== *)
(** * The write phase, end to end *)
(* ================================================================== *)

Lemma writtenNodes_app s1 s2 : writtenNodes (s1 ++ s2) = writtenNodes s1 ++ writtenNodes s2.
Proof. unfold writtenNodes. by rewrite map_app, concat_app. Qed.

Lemma writtenRelationships_app s1 s2 :
  writtenRelationships (s1 ++ s2) = writtenRelationships s1 ++ writtenRelationships s2.
Proof. unfold writtenRelationships. by rewrite map_app, concat_app. Qed.

Lemma written_NodeBatch bs :
  writtenNodes (map NodeBatch bs) = concat bs
  /\ writtenRelationships (map NodeBatch bs) = [].
Proof.
  unfold writtenNodes, writtenRelationships.
  induction bs as [|b bs [IH1 IH2]]; simpl; [done|]. by rewrite IH1, IH2.
Qed.

Lemma written_RelationshipBatch t bs :
  writtenNodes (map (RelationshipBatch t) bs) = []
  /\ writtenRelationships (map (RelationshipBatch t) bs) = concat bs.
Proof.
  unfold writtenNodes, writtenRelationships.
  induction bs as [|b bs [IH1 IH2]]; simpl; [done|]. by rewrite IH1, IH2.
Qed.

Lemma wellTyped_batches t (bs : list (list RelationshipInfo)) :
  Forall (fun r => rel_type r = t) (concat bs) ->
  Forall wellTyped (map (RelationshipBatch t) bs).
Proof.
  induction bs as [|b bs IH]; simpl; [constructor|].
  intros [Hb Hbs]%Forall_app. constructor; [exact Hb|by apply IH].
Qed.

Lemma wellTyped_NodeBatches (bs : list (list AstNode)) :
  Forall wellTyped (map NodeBatch bs).
Proof. induction bs as [|b bs IH]; simpl; constructor; [exact I|exact IH]. Qed.

Section WritePhaseEndToEnd.
Variable runTransaction : Store -> Commit -> bool.
Variable batchSize : nat.

Lemma saveRelationshipsBatch_prefix fuel t rels store o :
  saveRelationshipsBatch runTransaction batchSize fuel t rels store = Some o ->
  exists bs,
    storeOf o = store ++ map (RelationshipBatch t) bs
    /\ concat bs `prefix_of` rels
    /\ (forall s, o = Completed s -> concat bs = rels).
Proof.
  unfold saveRelationshipsBatch. destruct rels as [|r rels].
  - intros [= <-]. exists []. simpl. rewrite app_nil_r.
    split_and!; [done|by exists []|done].
  - intros H. apply saveLoop_prefix in H as (bs & Hs & _ & Hc).
    exists bs. split; [done|]. destruct o as [s|s]; simpl in Hc.
    + split; [by exists []; rewrite app_nil_r|done].
    + destruct Hc as (b & rest & _ & _ & Hc). split; [by exists (b ++ rest)|done].
Qed.

(** The relationship groups are written in order; the commits hold a
    prefix of the groups' records, all of them when the run
    completed. *)
Lemma saveGroups_prefix fuel groups :
  Forall (fun g => Forall (fun r => rel_type r = fst g) (snd g)) groups ->
  forall store o,
    saveGroups runTransaction batchSize fuel groups store = Some o ->
    exists cs,
      storeOf o = store ++ cs
      /\ writtenNodes cs = []
      /\ Forall wellTyped cs
      /\ writtenRelationships cs `prefix_of` concat (map snd groups)
      /\ (forall s, o = Completed s ->
            writtenRelationships cs = concat (map snd groups)).
Proof.
  induction groups as [|[t batch] groups IH]; intros Hty store o; simpl.
  - intros [= <-]. exists []. simpl. rewrite app_nil_r.
    split_and!; try done; try by exists [].
  - apply Forall_cons in Hty as [Ht Hty]. simpl in Ht.
    destruct (saveRelationshipsBatch runTransaction batchSize fuel t batch store)
      as [o1|] eqn:H1; [|done].
    apply saveRelationshipsBatch_prefix in H1 as (bs & Hs1 & [k Hk] & Hc1).
    destruct (written_RelationshipBatch t bs) as [Hwn Hwr].
    assert (Hwt : Forall wellTyped (map (RelationshipBatch t) bs)).
    { apply wellTyped_batches. rewrite Hk in Ht. by apply Forall_app in Ht as [? _]. }
    destruct o1 as [store1|store1]; simpl in Hs1.
    + intros H2. apply (IH Hty) in H2 as (cs & Hs2 & Hn2 & Hw2 & [k2 Hk2] & Hc2).
      exists (map (RelationshipBatch t) bs ++ cs). split_and!.
      * by rewrite Hs2, Hs1, <- app_assoc.
      * by rewrite writtenNodes_app, Hwn, Hn2.
      * by apply Forall_app.
      * rewrite writtenRelationships_app, Hwr, (Hc1 store1 eq_refl), Hk2.
        exists k2. by rewrite <- app_assoc.
      * intros s Hs. rewrite writtenRelationships_app, Hwr, (Hc1 store1 eq_refl).
        by rewrite (Hc2 s Hs).
    + intros [= <-]. exists (map (RelationshipBatch t) bs). split_and!; try done.
      rewrite Hwr, Hk. exists (k ++ concat (map snd groups)).
      by rewrite <- app_assoc.
Qed.
End WritePhaseEndToEnd.

Lemma uniqueRelationships_spec (l : list RelationshipInfo) :
  NoDup (map rel_entityId (uniqueRelationships l))
  /\ forall r, r ∈ uniqueRelationships l <->
               lastWith rel_entityId (rel_entityId r) l = Some r.
Proof.
  unfold uniqueRelationships.
  destruct (WellKeyed_values rel_entityId _ (ofEntries_WellKeyed rel_entityId l))
    as [Hnd Hin].
  split; [exact Hnd|]. intros r. by rewrite Hin, get_ofEntries_keyed.
Qed.

(** What the write phase appends to the store. *)
Lemma storeResults_spec
    (runTransaction : Store -> Commit -> bool) (batchSize : nat)
    (finalNodes : list AstNode)
    (pass1Relationships pass2Relationships : list RelationshipInfo)
    (store : Store) :
  (0 < batchSize)%nat ->
  exists fuel0, forall fuel, (fuel0 <= fuel)%nat ->
    exists o cs,
      storeResults runTransaction batchSize fuel finalNodes
                   pass1Relationships pass2Relationships store = Some o
      /\ storeOf o = store ++ cs
      /\ Forall wellTyped cs
      /\ writtenNodes cs `prefix_of` finalNodes
      /\ writtenRelationships cs
         ⊆ uniqueRelationships (pass1Relationships ++ pass2Relationships)
      /\ NoDup (map rel_entityId (writtenRelationships cs))
      /\ (forall s, o = Completed s ->
            writtenNodes cs = finalNodes
            /\ writtenRelationships cs
               ≡ₚ uniqueRelationships (pass1Relationships ++ pass2Relationships)).
Proof.
  intros Hpos. unfold storeResults.
  change (JsMap.values (JsMap.ofEntries
            (map (fun r => (rel_entityId r, r))
                 (pass1Relationships ++ pass2Relationships))))
    with (uniqueRelationships (pass1Relationships ++ pass2Relationships)).
  set (u := uniqueRelationships _).
  pose proof (groupByType_concat u) as Hperm.
  pose proof (groupByType_typed u) as Hty.
  destruct (uniqueRelationships_spec (pass1Relationships ++ pass2Relationships))
    as [Hnd _]. fold u in Hnd.
  set (groups := JsMap.entries (groupByType u)) in *.
  exists (S (length finalNodes + sum_list (map (fun g => length (snd g)) groups))).
  intros fuel Hfuel.
  destruct (saveNodesBatch_prefix runTransaction batchSize fuel finalNodes store Hpos)
    as (o1 & bs & Ho1 & Hs1 & _ & Hc1); [lia|].
  rewrite Ho1. destruct (written_NodeBatch bs) as [Hwn Hwr].
  destruct o1 as [store1|store1]; simpl in Hs1.
  - assert (Hg : is_Some (saveGroups runTransaction batchSize fuel groups store1)).
    { apply saveGroups_returns; [done|].
      eapply Forall_impl; [apply group_lengths_bounded|]. simpl. intros; lia. }
    destruct Hg as [o2 Ho2]. rewrite Ho2.
    apply saveGroups_prefix in Ho2 as (cs & Hs2 & Hn2 & Hw2 & [k Hk] & Hc2); [|done].
    assert (Hall : writtenRelationships cs ++ k ≡ₚ u) by by rewrite <- Hk.
    exists o2, (map NodeBatch bs ++ cs).
    rewrite writtenNodes_app, writtenRelationships_app, Hwn, Hwr, Hn2, app_nil_r.
    simpl. split_and!.
    + done.
    + by rewrite Hs2, Hs1, <- app_assoc.
    + apply Forall_app. split; [|done].
      apply wellTyped_NodeBatches.
    + rewrite Hc1. exists []. by rewrite app_nil_r.
    + intros r Hr. rewrite <- Hall. apply elem_of_app. by left.
    + rewrite <- Hall, map_app in Hnd. by apply NoDup_app in Hnd as [? _].
    + intros s Hs. split; [done|]. by rewrite (Hc2 s Hs).
  - destruct Hc1 as (b & rest & _ & _ & Hc1).
    exists (Threw store1), (map NodeBatch bs).
    rewrite Hwn, Hwr. simpl. split_and!.
    + done.
    + done.
    + apply wellTyped_NodeBatches.
    + by exists (b ++ rest).
    + intros r Hr. by apply elem_of_nil in Hr.
    + constructor.
    + done.
Qed.

(** X3. The write phase of [analyze] with a positive batch size: the
    run appends commits to the store and changes nothing that was
    there; every relationship batch holds relationships of the type it
    is written under; the nodes written are a prefix of the final
    nodes; no relationship id is written twice and every relationship
    written is one of the relationships made unique by [entityId].
    When the run completes, all nodes are written in their order and
    the relationships written are the unique relationships, each
    exactly once. *)
Theorem storeResults_writes_each_record_once
    (runTransaction : Store -> Commit -> bool) (batchSize : nat)
    (finalNodes : list AstNode)
    (pass1Relationships pass2Relationships : list RelationshipInfo)
    (store : Store) :
  (0 < batchSize)%nat ->
  exists fuel0, forall fuel, (fuel0 <= fuel)%nat ->
    exists o cs,
      storeResults runTransaction batchSize fuel finalNodes
                   pass1Relationships pass2Relationships store = Some o
      /\ storeOf o = store ++ cs
      /\ Forall wellTyped cs
      /\ writtenNodes cs `prefix_of` finalNodes
      /\ writtenRelationships cs
         ⊆ uniqueRelationships (pass1Relationships ++ pass2Relationships)
      /\ NoDup (map rel_entityId (writtenRelationships cs))
      /\ (forall s, o = Completed s ->
            writtenNodes cs = finalNodes
            /\ writtenRelationships cs
               ≡ₚ uniqueRelationships (pass1Relationships ++ pass2Relationships)).
Proof. apply storeResults_spec. Qed.

Lemma storeResults_writes_each_record_once_witness :
  exists fuel0, forall fuel, (fuel0 <= fuel)%nat ->
    exists o cs,
      storeResults Scenario1.acceptAll 2 fuel Scenario1.pass1Nodes
                   Scenario1.pass1Relationships Scenario1.pass2Relationships []
      = Some o
      /\ storeOf o = [] ++ cs
      /\ Forall wellTyped cs
      /\ writtenNodes cs `prefix_of` Scenario1.pass1Nodes
      /\ writtenRelationships cs
         ⊆ uniqueRelationships
             (Scenario1.pass1Relationships ++ Scenario1.pass2Relationships)
      /\ NoDup (map rel_entityId (writtenRelationships cs))
      /\ (forall s, o = Completed s ->
            writtenNodes cs = Scenario1.pass1Nodes
            /\ writtenRelationships cs
               ≡ₚ uniqueRelationships
                    (Scenario1.pass1Relationships ++ Scenario1.pass2Relationships)).
Proof.
  apply (storeResults_writes_each_record_once Scenario1.acceptAll 2
           Scenario1.pass1Nodes Scenario1.pass1Relationships
           Scenario1.pass2Relationships []).
  lia.
Defined.

(** X4. The relationships of both passes made unique by [entityId]: no
    id occurs twice and no id is lost; when an id occurs in Pass 2, the
    record kept is the last Pass-2 record with that id, and otherwise
    the last Pass-1 record. *)
Theorem uniqueRelationships_pass2_wins
    (pass1Relationships pass2Relationships : list RelationshipInfo) :
  let unique := uniqueRelationships (pass1Relationships ++ pass2Relationships) in
  NoDup (map rel_entityId unique)
  /\ (forall r, r ∈ unique <->
        match lastWith rel_entityId (rel_entityId r) pass2Relationships with
        | Some r2 => r2 = r
        | None => lastWith rel_entityId (rel_entityId r) pass1Relationships = Some r
        end)
  /\ (forall r, r ∈ pass1Relationships ++ pass2Relationships ->
        rel_entityId r ∈ map rel_entityId unique).
Proof.
  intros unique.
  destruct (uniqueRelationships_spec (pass1Relationships ++ pass2Relationships))
    as [Hnd Hin]. fold unique in Hnd, Hin.
  split_and!; [exact Hnd| |].
  - intros r. rewrite Hin, lastWith_app.
    destruct (lastWith rel_entityId (rel_entityId r) pass2Relationships);
      [|done]. split; congruence.
  - intros r Hr.
    destruct (lastWith rel_entityId (rel_entityId r)
                (pass1Relationships ++ pass2Relationships)) as [r'|] eqn:Hl.
    + apply list_elem_of_fmap. exists r'. split.
      * symmetry. by apply lastWith_key in Hl.
      * apply Hin. by rewrite (lastWith_key _ _ _ _ Hl).
    + apply lastWith_None in Hl. exfalso. apply Hl.
      apply list_elem_of_fmap. by exists r.
Qed.

(* ================================================================== *)
(** * The module resolver and the index *)
(* ================================================================== *)

Lemma indexed_get context k n :
  WellKeyed entityId (nodeIndex context) ->
  JsMap.get k (nodeIndex context) = Some n -> indexed context (entityId n).
Proof. intros [_ Hk] Hget. unfold indexed. rewrite (Hk _ _ Hget). by exists n. Qed.

Lemma findNodeByFilePath_indexed context path n :
  WellKeyed entityId (nodeIndex context) ->
  findNodeByFilePath path context = Some n -> indexed context (entityId n).
Proof.
  intros Hwk. unfold findNodeByFilePath.
  destruct (JsMap.get _ (nodeIndex context)) as [n'|] eqn:H1.
  - intros [= <-]. by eapply indexed_get.
  - intros H2. by eapply indexed_get.
Qed.

Lemma lookupExportedDeclaration_indexed context targetFilePath importName n :
  WellKeyed entityId (nodeIndex context) ->
  lookupExportedDeclaration context targetFilePath importName = Some n ->
  indexed context (entityId n).
Proof.
  intros Hwk. unfold lookupExportedDeclaration.
  repeat match goal with
         | |- match ?g with Some _ => _ | None => _ end = _ -> _ =>
             destruct g eqn:?; [intros [= <-]; by eapply indexed_get|]
         end.
  intros H. by eapply indexed_get.
Qed.

Lemma resolveToIndexedNode_indexed context fileNode sym n :
  WellKeyed entityId (nodeIndex context) ->
  resolveToIndexedNode context fileNode sym = Some n -> indexed context (entityId n).
Proof.
  intros Hwk. unfold resolveToIndexedNode.
  destruct (getTargetDeclarationInfo _ _ _ _); [|done].
  intros H. by eapply indexed_get.
Qed.

Ltac anchored_record :=
  unfold Anchored, isPlaceholderEdge, idFromEndpoints; simpl; naive_solver.

Lemma resolveNamedImport_anchored context fileNode importAstNode targetFileNode
    namedImport :
  WellKeyed entityId (nodeIndex context) ->
  indexed context (entityId importAstNode) ->
  Forall (Anchored context fileNode)
         (resolveNamedImport context importAstNode targetFileNode namedImport).
Proof.
  intros Hwk Himp. unfold resolveNamedImport.
  destruct (lookupExportedDeclaration _ _ _) as [targetNode|] eqn:Hl; [|constructor].
  apply lookupExportedDeclaration_indexed in Hl; [|done].
  destruct (_ || _)%bool; constructor; [|constructor].
  anchored_record.
Qed.

Lemma resolveImportDeclaration_anchored context fileNode impDecl :
  WellKeyed entityId (nodeIndex context) ->
  Forall (Anchored context fileNode)
         (resolveImportDeclaration fileNode context impDecl).
Proof.
  intros Hwk. unfold resolveImportDeclaration.
  destruct (imp_moduleSpecifier impDecl) as [moduleSpecifier|]; [|constructor].
  destruct (String.eqb moduleSpecifier ""); [constructor|].
  set (resolvedImportPath :=
         match imp_resolvedSourceFile impDecl with
         | Some p => p
         | None => rc_resolveImportPath context (filePath fileNode) moduleSpecifier
         end).
  destruct (findNodeByFilePath resolvedImportPath context) as [targetFileNode|] eqn:Hf.
  - apply findNodeByFilePath_indexed in Hf; [|done].
    destruct (JsMap.get _ (nodeIndex context)) as [importAstNode|] eqn:Hi.
    + apply indexed_get in Hi; [|done].
      constructor; [anchored_record|].
      apply Forall_app. split; [|apply Forall_app; split].
      * apply Forall_concat, Forall_forall. intros l Hl.
        apply list_elem_of_fmap in Hl as (ni & -> & _).
        by apply resolveNamedImport_anchored.
      * destruct (isTruthyString (imp_defaultImport impDecl)); [|constructor].
        destruct (List.find _ _) as [targetNode|] eqn:Hfind; [|constructor].
        apply find_some in Hfind as [Hin _].
        apply list_elem_of_In, (WellKeyed_values entityId _ Hwk) in Hin.
        apply indexed_get in Hin; [|done].
        constructor; [anchored_record|constructor].
      * destruct (isTruthyString (imp_namespaceImport impDecl)); [|constructor].
        constructor; [anchored_record|constructor].
    + constructor; [anchored_record|constructor].
  - destruct (JsMap.get _ (nodeIndex context));
      (constructor; [anchored_record|constructor]).
Qed.

Lemma resolveExportDeclaration_anchored context fileNode expDecl :
  WellKeyed entityId (nodeIndex context) ->
  Forall (Anchored context fileNode)
         (resolveExportDeclaration fileNode context expDecl).
Proof.
  intros Hwk. unfold resolveExportDeclaration.
  destruct (isTruthyString (exp_moduleSpecifier expDecl)).
  - destruct (findNodeByFilePath _ context) as [targetFileNode|] eqn:Hf;
      [|constructor].
    apply findNodeByFilePath_indexed in Hf; [|done].
    constructor; [anchored_record|constructor].
  - apply Forall_concat, Forall_forall. intros l Hl.
    apply list_elem_of_fmap in Hl as (namedExport & -> & _).
    destruct (ne_localDeclaration namedExport) as [localSymbol|]; [|constructor].
    destruct (resolveToIndexedNode context fileNode localSymbol)
      as [targetNode|] eqn:Hr; [|constructor].
    apply resolveToIndexedNode_indexed in Hr; [|done].
    constructor; [anchored_record|constructor].
Qed.

Lemma resolveExportAssignment_anchored context fileNode expression :
  WellKeyed entityId (nodeIndex context) ->
  Forall (Anchored context fileNode)
         (resolveExportAssignment fileNode context expression).
Proof.
  intros Hwk. unfold resolveExportAssignment.
  destruct (resolveToIndexedNode context fileNode expression)
    as [targetNode|] eqn:Hr; [|constructor].
  apply resolveToIndexedNode_indexed in Hr; [|done].
  constructor; [anchored_record|constructor].
Qed.

Lemma resolveTsModules_anchored context sourceFile fileNode :
  WellKeyed entityId (nodeIndex context) ->
  Forall (Anchored context fileNode) (resolveTsModules sourceFile fileNode context).
Proof.
  intros Hwk. unfold resolveTsModules.
  repeat (apply Forall_app; split);
    apply Forall_concat, Forall_forall; intros l Hl;
    apply list_elem_of_fmap in Hl as (d & -> & _).
  - by apply resolveImportDeclaration_anchored.
  - by apply resolveExportDeclaration_anchored.
  - by apply resolveExportAssignment_anchored.
Qed.

(** X5. The edges the module resolver submits for a file, with the
    index the resolver builds from the nodes of Pass 1: each is an
    [IMPORTS], [RESOLVES_IMPORT] or [EXPORTS] edge; [IMPORTS] and
    [EXPORTS] edges leave the file node and a [RESOLVES_IMPORT] edge
    leaves one of the given nodes; every edge arrives at one of the
    given nodes, except an [IMPORTS] edge that carries
    [isPlaceholder: true]. *)
Theorem resolveTsModules_edges_hang_on_the_index
    (gen : EntityIdGenerator) (resolveImportPath : string -> string -> string)
    (now : string) (allNodes : list AstNode)
    (sourceFile : SourceFile) (fileNode : AstNode) :
  let context :=
    mkResolverContext (JsMap.ofEntries (map (fun n => (entityId n, n)) allNodes))
                      gen resolveImportPath now in
  Forall
    (fun r =>
       (rel_type r = "IMPORTS" \/ rel_type r = "RESOLVES_IMPORT"
        \/ rel_type r = "EXPORTS")
       /\ (rel_type r <> "RESOLVES_IMPORT" -> sourceId r = entityId fileNode)
       /\ (rel_type r = "RESOLVES_IMPORT" -> sourceId r ∈ map entityId allNodes)
       /\ (isPlaceholderEdge r = false -> targetId r ∈ map entityId allNodes)
       /\ (isPlaceholderEdge r = true -> rel_type r = "IMPORTS"))
    (resolveTsModules sourceFile fileNode context).
Proof.
  intros context. apply Forall_forall. intros r Hr.
  assert (Hwk : WellKeyed entityId (nodeIndex context))
    by apply ofEntries_WellKeyed.
  assert (Hidx : forall k, indexed context k -> k ∈ map entityId allNodes).
  { intros k [n Hn]. unfold context in Hn. simpl in Hn.
    rewrite get_ofEntries_keyed in Hn.
    apply list_elem_of_fmap. exists n. split.
    - symmetry. by apply lastWith_key in Hn.
    - by apply lastWith_elem_of in Hn. }
  pose proof (resolveTsModules_anchored context sourceFile fileNode Hwk) as Hall.
  rewrite Forall_forall in Hall.
  destruct (Hall r Hr) as (Ht & Hs & Hsi & Hti & Hp & _).
  split_and!; auto.
Qed.

(* ================================================================== *)
(** * File nodes and function nodes, seen from Pass 2 *)
(* ================================================================== *)

Lemma normalizeSlashes_idem s : normalizeSlashes (normalizeSlashes s) = normalizeSlashes s.
Proof.
  induction s as [|c s IH]; simpl; [done|]. rewrite IH. f_equal.
  destruct (Ascii.eqb c backslash) eqn:Hc; [done|]. by rewrite Hc.
Qed.

Lemma append_assoc (s1 s2 s3 : string) : (s1 +:+ s2) +:+ s3 = s1 +:+ s2 +:+ s3.
Proof.
  induction s1 as [|c s1 IH]; [done|].
  change ((String c s1 +:+ s2) +:+ s3) with (String c ((s1 +:+ s2) +:+ s3)).
  change (String c s1 +:+ s2 +:+ s3) with (String c (s1 +:+ s2 +:+ s3)).
  by rewrite IH.
Qed.

(** The lookup of a file by the path ts-morph reports for it finds the
    file node Pass 1 made for it. *)
Lemma findNodeByFilePath_tsFileNode context now target :
  let targetNode := tsFileNode (rc_generateEntityId context) now target in
  startsWith (filePath targetNode) "/" = true
  \/ filePath targetNode = sf_filePath target ->
  JsMap.get (entityId targetNode) (nodeIndex context) = Some targetNode ->
  findNodeByFilePath (sf_filePath target) context = Some targetNode.
Proof.
  intros targetNode Hpath Hget. unfold findNodeByFilePath.
  assert (Hid : (if startsWith (normalizeSlashes (sf_filePath target)) "/"
                 then normalizeSlashes (sf_filePath target)
                 else sf_filePath target)
                = normalizeSlashes (sf_filePath target)).
  { destruct Hpath as [Hs|Hs]; simpl in Hs; [by rewrite Hs|].
    rewrite Hs. by destruct (startsWith _ _). }
  rewrite Hid. simpl in Hget. by rewrite Hget.
Qed.

(** X6. An import that ts-morph resolves to a source file whose File
    node of Pass 1 is in the index: the lookup by path finds that node,
    and the first edge submitted for the import is an [IMPORTS] edge
    from the importing file to it that is not marked as a placeholder.
    The path is absolute, or has no backslash. *)
Theorem import_of_an_analyzed_file_is_not_a_placeholder
    (context : ResolverContext) (now : string) (fileNode : AstNode)
    (impDecl : ImportDeclaration) (moduleSpecifier : string) (target : SourceFile) :
  let targetNode := tsFileNode (rc_generateEntityId context) now target in
  imp_moduleSpecifier impDecl = Some moduleSpecifier ->
  moduleSpecifier <> "" ->
  imp_resolvedSourceFile impDecl = Some (sf_filePath target) ->
  startsWith (filePath targetNode) "/" = true
  \/ filePath targetNode = sf_filePath target ->
  JsMap.get (entityId targetNode) (nodeIndex context) = Some targetNode ->
  findNodeByFilePath (sf_filePath target) context = Some targetNode
  /\ exists rel rest,
       resolveImportDeclaration fileNode context impDecl = rel :: rest
       /\ rel_type rel = "IMPORTS"
       /\ sourceId rel = entityId fileNode
       /\ targetId rel = entityId targetNode
       /\ isPlaceholderEdge rel = false.
Proof.
  intros targetNode Hspec Hne Hres Hpath Hget.
  pose proof (findNodeByFilePath_tsFileNode context now target Hpath Hget) as Hfind.
  split; [exact Hfind|].
  unfold resolveImportDeclaration. rewrite Hspec, Hres.
  apply String.eqb_neq in Hne. rewrite Hne. rewrite Hfind.
  destruct (JsMap.get (rc_generateEntityId context "import" _) (nodeIndex context));
    eexists _, _; by split_and!.
Qed.

Lemma import_of_an_analyzed_file_is_not_a_placeholder_witness :
  findNodeByFilePath "/src/b.ts" (Scenario1.context pass1ResolveImportPath)
  = Some (tsFileNode generateEntityId Scenario1.now Scenario1.fileB)
  /\ exists rel rest,
       resolveImportDeclaration Scenario1.fileANode
         (Scenario1.context pass1ResolveImportPath)
         (mkImportDeclaration (Some "./b") 2 2 0 [mkNamedImport "funcB" None]
                              None None false (Some "/src/b.ts"))
       = rel :: rest
       /\ rel_type rel = "IMPORTS"
       /\ sourceId rel = entityId Scenario1.fileANode
       /\ targetId rel
          = entityId (tsFileNode generateEntityId Scenario1.now Scenario1.fileB)
       /\ isPlaceholderEdge rel = false.
Proof.
  apply (import_of_an_analyzed_file_is_not_a_placeholder
           (Scenario1.context pass1ResolveImportPath) Scenario1.now
           Scenario1.fileANode _ "./b" Scenario1.fileB).
  - reflexivity.
  - discriminate.
  - reflexivity.
  - left. reflexivity.
  - vm_compute. reflexivity.
Defined.

Lemma function_qualifiedName_inj (gen : EntityIdGenerator) (base : string)
    (line line' : Z) :
  UniqueIdsPerKind gen ->
  gen "function" ((base +:+ ":") +:+ num line)
  = gen "function" ((base +:+ ":") +:+ num line') ->
  line = line'.
Proof.
  intros Hgen Heq. apply Hgen in Heq.
  apply String.app_inj in Heq. by apply (inj pretty) in Heq.
Qed.

(** X7. The identifier Pass 2 computes for a reference to a function,
    against the [entityId] Pass 1 gave the function; the symbol of the
    reference is any symbol, what counts is its first declaration. When
    that is a function declaration with the name of the function
    declaration [d] Pass 1 recorded, the two identifiers agree if the
    first declaration starts on the line of [d], and for a generator
    that is injective on each kind only then: a symbol whose first
    declaration is another declaration of that name (an overload
    signature on an earlier line) gets another identifier. When it is a
    variable declaration whose initializer is a function, with the name
    of the nearest variable declaration that encloses the function
    expression or arrow function [d], the same holds with the line of
    that variable declaration. When the initializer is not a function
    (the function lies deeper inside it), Pass 2 computes an identifier
    of kind [variable] without a line, while Pass 1 recorded the
    function under an identifier of kind [function] with the line of
    the variable declaration. The resolver maps the file to the path
    Pass 1 used. *)
Theorem function_entityId_agrees_between_passes
    (gen : EntityIdGenerator) (resolveImportPath : string -> string -> string)
    (sourceFile : SourceFile) (now : string) (currentFilePath : string) :
  let fileNode := tsFileNode gen now sourceFile in
  let ctx := mkParserContext sourceFile fileNode gen now in
  let path := sf_filePath sourceFile in
  let referenced self :=
    referencedEntityId gen resolveImportPath (Some (mkSymbol self None))
                       currentFilePath in
  normalizeSlashes (resolveImportPath currentFilePath path) = filePath fileNode ->
  (forall d n self line declarations,
     fl_kind d = FunctionDeclarationKind ->
     fl_name d = Some n ->
     sym_declarations self
     = mkDeclaration (FunctionDeclarationShape (Some n)) path line :: declarations ->
     referenced self
     = Some (gen "function" (filePath fileNode +:+ ":" +:+ n +:+ ":" +:+ num line))
     /\ (line = fl_startLine d ->
         referenced self = Some (entityId (functionNodeOf ctx d)))
     /\ (UniqueIdsPerKind gen ->
         referenced self = Some (entityId (functionNodeOf ctx d)) ->
         line = fl_startLine d))
  /\ (forall d variableDecl n self line declarations,
        fl_kind d <> FunctionDeclarationKind ->
        fl_variableDecl d = Some variableDecl ->
        va_name variableDecl = Some n ->
        sym_declarations self
        = mkDeclaration (VariableShape n true) path line :: declarations ->
        referenced self
        = Some (gen "function"
                    (filePath fileNode +:+ ":" +:+ n +:+ ":" +:+ num line))
        /\ (line = va_startLine variableDecl ->
            referenced self = Some (entityId (functionNodeOf ctx d)))
        /\ (UniqueIdsPerKind gen ->
            referenced self = Some (entityId (functionNodeOf ctx d)) ->
            line = va_startLine variableDecl))
  /\ (forall d variableDecl n self line declarations,
        fl_kind d <> FunctionDeclarationKind ->
        fl_variableDecl d = Some variableDecl ->
        va_name variableDecl = Some n ->
        sym_declarations self
        = mkDeclaration (VariableShape n false) path line :: declarations ->
        referenced self
        = Some (gen "variable" (filePath fileNode +:+ ":" +:+ n))
        /\ entityId (functionNodeOf ctx d)
           = gen "function"
                 (filePath fileNode +:+ ":" +:+ n +:+ ":"
                    +:+ num (va_startLine variableDecl))).
Proof.
  intros fileNode ctx path referenced Hpath.
  split_and!.
  - intros d n self line declarations Hkind Hname Hdecl.
    assert (Href : referenced self
                   = Some (gen "function"
                             (filePath fileNode +:+ ":" +:+ n +:+ ":" +:+ num line))).
    { unfold referenced, referencedEntityId, getTargetDeclarationInfo. simpl.
      rewrite Hdecl. simpl. fold path. rewrite Hpath. simpl.
      by rewrite ?append_assoc. }
    assert (Hnode : entityId (functionNodeOf ctx d)
                    = gen "function"
                        (filePath fileNode +:+ ":" +:+ n +:+ ":"
                           +:+ num (fl_startLine d))).
    { unfold functionNodeOf, functionIdentity. rewrite Hkind, Hname. reflexivity. }
    split_and!; [done| |].
    + intros ->. by rewrite Href, Hnode.
    + intros Hgen. rewrite Href, Hnode. intros [= Heq].
      rewrite <- !append_assoc in Heq.
      by apply function_qualifiedName_inj in Heq.
  - intros d variableDecl n self line declarations Hkind Hva Hname Hdecl.
    assert (Href : referenced self
                   = Some (gen "function"
                             (filePath fileNode +:+ ":" +:+ n +:+ ":" +:+ num line))).
    { unfold referenced, referencedEntityId, getTargetDeclarationInfo. simpl.
      rewrite Hdecl. simpl. fold path. rewrite Hpath. simpl.
      by rewrite ?append_assoc. }
    assert (Hnode : entityId (functionNodeOf ctx d)
                    = gen "function"
                        (filePath fileNode +:+ ":" +:+ n +:+ ":"
                           +:+ num (va_startLine variableDecl))).
    { unfold functionNodeOf, functionIdentity. rewrite Hva, Hname.
      by destruct (fl_kind d). }
    split_and!; [done| |].
    + intros ->. by rewrite Href, Hnode.
    + intros Hgen. rewrite Href, Hnode. intros [= Heq].
      rewrite <- !append_assoc in Heq.
      by apply function_qualifiedName_inj in Heq.
  - intros d variableDecl n self line declarations Hkind Hva Hname Hdecl. split.
    + unfold referenced, referencedEntityId, getTargetDeclarationInfo. simpl.
      rewrite Hdecl. simpl. fold path. by rewrite Hpath.
    + unfold functionNodeOf, functionIdentity. rewrite Hva, Hname.
      by destruct (fl_kind d).
Qed.

Lemma function_entityId_agrees_between_passes_witness :
  referencedEntityId generateEntityId pass1ResolveImportPath
    (declarationSymbol "funcB" (FunctionDeclarationShape (Some "funcB"))
                       "/src/b.ts" 2)
    "/src/a.ts"
  = Some (entityId (functionNodeOf Scenario1.fileBContext
                                   (plainFunction "funcB" true 2 [])))
  /\ referencedEntityId generateEntityId pass1ResolveImportPath
       (Some (mkSymbol
                (mkSymbolInfo "funcB"
                   [mkDeclaration (FunctionDeclarationShape (Some "funcB"))
                                  "/src/b.ts" 1;
                    mkDeclaration (FunctionDeclarationShape (Some "funcB"))
                                  "/src/b.ts" 2])
                None))
       "/src/a.ts"
     <> Some (entityId (functionNodeOf Scenario1.fileBContext
                                       (plainFunction "funcB" true 2 []))).
Proof.
  destruct (function_entityId_agrees_between_passes generateEntityId
              pass1ResolveImportPath Scenario1.fileB Scenario1.now "/src/a.ts"
              eq_refl) as (Hdeclaration & _ & _).
  split.
  - apply (Hdeclaration (plainFunction "funcB" true 2 []) "funcB"
             (mkSymbolInfo "funcB"
                [mkDeclaration (FunctionDeclarationShape (Some "funcB"))
                               "/src/b.ts" 2])
             2 [] eq_refl eq_refl eq_refl).
    reflexivity.
  - intros Heq.
    apply (Hdeclaration (plainFunction "funcB" true 2 []) "funcB"
             (mkSymbolInfo "funcB"
                [mkDeclaration (FunctionDeclarationShape (Some "funcB"))
                               "/src/b.ts" 1;
                 mkDeclaration (FunctionDeclarationShape (Some "funcB"))
                               "/src/b.ts" 2])
             1 _ eq_refl eq_refl eq_refl) in Heq;
      [discriminate Heq|apply generateEntityId_unique_per_kind].
Defined.

(* ================================================================== *)
(** * Parameters *)
(* ================================================================== *)

Lemma parseParameter_adds ctx parentNode param r :
  NoDup (map entityId (res_nodes r)) ->
  let r' := parseParameter ctx parentNode param r in
  exists addedNodes addedEdges,
    res_nodes r' = res_nodes r ++ addedNodes
    /\ res_relationships r' = res_relationships r ++ addedEdges
    /\ Forall2 (isParameterOf parentNode) addedNodes addedEdges
    /\ NoDup (map entityId (res_nodes r'))
    /\ parameterEntityId (pc_generateEntityId ctx) parentNode param
       ∈ map entityId (res_nodes r').
Proof.
  intros Hnd. unfold parseParameter, parameterEntityId.
  set (paramId := pc_generateEntityId ctx "parameter" _).
  destruct (existsb _ (res_nodes r)) eqn:Hex; simpl.
  - exists [], []. rewrite !app_nil_r. split_and!; try done.
    apply existsb_exists in Hex as (n & Hn & Heq).
    apply String.eqb_eq in Heq. apply list_elem_of_fmap. exists n.
    split; [done|]. by apply list_elem_of_In.
  - eexists [_], [_]. split_and!; try reflexivity.
    + constructor; [|constructor]. by unfold isParameterOf.
    + rewrite map_app. apply NoDup_app. split_and!; [done| |apply NoDup_singleton].
      intros k Hk Hk'. simpl in Hk'. apply list_elem_of_singleton in Hk' as ->.
      apply list_elem_of_fmap in Hk as (n & Heq & Hn).
      assert (Hfalse : existsb (fun n => String.eqb (entityId n) paramId)
                               (res_nodes r) = true); [|congruence].
      apply existsb_exists. exists n. split; [by apply list_elem_of_In|].
      by apply String.eqb_eq.
    + rewrite map_app. apply elem_of_app. right. simpl.
      by apply list_elem_of_singleton.
Qed.

(** X8. [parseParameters] on a result without duplicate ids: it only
    appends; the nodes it adds are [Parameter] nodes of the parent's
    file, matched one to one and in order by the [HAS_PARAMETER] edges
    it adds, each from the parent to its node; the result has no
    duplicate ids, so two parameters with one name give one node; and
    the id of every parameter is among the nodes afterwards. *)
Theorem parseParameters_adds_each_parameter_once
    (ctx : ParserContext) (parameters : list ParameterDeclaration)
    (parentNode : AstNode) (r : SingleFileParseResult) :
  NoDup (map entityId (res_nodes r)) ->
  let r' := parseParameters ctx parameters parentNode r in
  exists addedNodes addedEdges,
    res_nodes r' = res_nodes r ++ addedNodes
    /\ res_relationships r' = res_relationships r ++ addedEdges
    /\ Forall2 (isParameterOf parentNode) addedNodes addedEdges
    /\ NoDup (map entityId (res_nodes r'))
    /\ forall param, param ∈ parameters ->
         parameterEntityId (pc_generateEntityId ctx) parentNode param
         ∈ map entityId (res_nodes r').
Proof.
  unfold parseParameters. revert r.
  induction parameters as [|p ps IH]; intros r Hnd; simpl.
  - exists [], []. rewrite !app_nil_r. split_and!; try done.
    intros param Hp. by apply elem_of_nil in Hp.
  - destruct (parseParameter_adds ctx parentNode p r Hnd)
      as (n1 & e1 & Hn1 & He1 & Hf1 & Hnd1 & Hin1).
    destruct (IH _ Hnd1) as (n2 & e2 & Hn2 & He2 & Hf2 & Hnd2 & Hin2).
    exists (n1 ++ n2), (e1 ++ e2). split_and!.
    + by rewrite Hn2, Hn1, <- app_assoc.
    + by rewrite He2, He1, <- app_assoc.
    + by apply Forall2_app.
    + done.
    + intros param [->|Hp]%elem_of_cons; [|by apply Hin2].
      rewrite Hn2, map_app. apply elem_of_app. by left.
Qed.

Lemma parseParameters_adds_each_parameter_once_witness :
  exists addedNodes addedEdges,
    res_nodes
      (parseParameters Scenario1.fileBContext
         [mkParameterDeclaration "x" 2 2 16; mkParameterDeclaration "x" 2 2 19]
         (pc_fileNode Scenario1.fileBContext)
         (mkResult "/src/b.ts" [pc_fileNode Scenario1.fileBContext] []))
    = [pc_fileNode Scenario1.fileBContext] ++ addedNodes
    /\ res_relationships
         (parseParameters Scenario1.fileBContext
            [mkParameterDeclaration "x" 2 2 16; mkParameterDeclaration "x" 2 2 19]
            (pc_fileNode Scenario1.fileBContext)
            (mkResult "/src/b.ts" [pc_fileNode Scenario1.fileBContext] []))
       = [] ++ addedEdges
    /\ Forall2 (isParameterOf (pc_fileNode Scenario1.fileBContext))
               addedNodes addedEdges
    /\ NoDup (map entityId
         (res_nodes
            (parseParameters Scenario1.fileBContext
               [mkParameterDeclaration "x" 2 2 16; mkParameterDeclaration "x" 2 2 19]
               (pc_fileNode Scenario1.fileBContext)
               (mkResult "/src/b.ts" [pc_fileNode Scenario1.fileBContext] []))))
    /\ forall param,
         param ∈ [mkParameterDeclaration "x" 2 2 16; mkParameterDeclaration "x" 2 2 19] ->
         parameterEntityId generateEntityId (pc_fileNode Scenario1.fileBContext) param
         ∈ map entityId
             (res_nodes
                (parseParameters Scenario1.fileBContext
                   [mkParameterDeclaration "x" 2 2 16; mkParameterDeclaration "x" 2 2 19]
                   (pc_fileNode Scenario1.fileBContext)
                   (mkResult "/src/b.ts" [pc_fileNode Scenario1.fileBContext] []))).
Proof.
  apply (parseParameters_adds_each_parameter_once Scenario1.fileBContext
           [mkParameterDeclaration "x" 2 2 16; mkParameterDeclaration "x" 2 2 19]
           (pc_fileNode Scenario1.fileBContext)
           (mkResult "/src/b.ts" [pc_fileNode Scenario1.fileBContext] [])).
  simpl. apply NoDup_singleton.
Defined.

(* ================================================================== *)
(** * The targets of references *)
(* ================================================================== *)

(** Membership in a list that is written out. *)
Ltac in_list :=
  repeat first [apply list_elem_of_here | apply list_elem_of_further].

Lemma classifyDeclaration_kind resolveImportPath currentFilePath resolved symbolName
    declaration :
  let tkind :=
    fst (fst (classifyDeclaration resolveImportPath currentFilePath resolved
                                  symbolName declaration)) in
  tkind = "unknown" \/ tkind ∈ targetKinds.
Proof.
  unfold classifyDeclaration, targetKinds.
  destruct (decl_shape declaration) as
    [?|?| |? ?|?|?|? []|? ?|?|?|? ?|]; simpl;
    first [by left | right; in_list].
Qed.

Lemma getTargetDeclarationInfo_kinds gen resolveImportPath sym currentFilePath info :
  getTargetDeclarationInfo gen resolveImportPath sym currentFilePath = Some info ->
  ti_kind info ∈ targetKinds
  /\ exists q, ti_entityId info = gen (toLowerCase (ti_kind info)) q.
Proof.
  unfold getTargetDeclarationInfo.
  destruct sym as [symbol0|]; [|done].
  destruct (sym_declarations _) as [|declaration ds]; [done|].
  pose proof (classifyDeclaration_kind resolveImportPath currentFilePath
                (normalizeSlashes
                   (resolveImportPath currentFilePath (decl_filePath declaration)))
                (sym_name (default (sym_self symbol0) (sym_aliased symbol0)))
                declaration) as Hkind.
  destruct (classifyDeclaration _ _ _ _ _) as [[tkind tname] base].
  simpl in Hkind.
  destruct (String.eqb_spec tkind "unknown") as [->|Hne]; [done|].
  intros [= <-]. simpl. split; [by destruct Hkind|]. by eexists.
Qed.

(** X9. What [getTargetDeclarationInfo] returns: nothing for an
    expression without a symbol or whose symbol has no declaration;
    otherwise the result is decided by the first declaration of the
    symbol, an alias being replaced by the symbol it stands for; its
    kind is one of Function, Method, Class, Interface, Variable,
    Parameter and TypeAlias, its [entityId] is generated for that kind
    in lower case, and its file path is the resolved, normalized path
    of that declaration. *)
Theorem getTargetDeclarationInfo_targets
    (gen : EntityIdGenerator) (resolveImportPath : string -> string -> string)
    (currentFilePath : string) :
  getTargetDeclarationInfo gen resolveImportPath None currentFilePath = None
  /\ (forall self aliased,
        getTargetDeclarationInfo gen resolveImportPath
          (Some (mkSymbol self (Some aliased))) currentFilePath
        = getTargetDeclarationInfo gen resolveImportPath
            (Some (mkSymbol aliased None)) currentFilePath)
  /\ (forall self,
        sym_declarations self = [] ->
        getTargetDeclarationInfo gen resolveImportPath
          (Some (mkSymbol self None)) currentFilePath = None)
  /\ (forall self declaration declarations info,
        sym_declarations self = declaration :: declarations ->
        getTargetDeclarationInfo gen resolveImportPath
          (Some (mkSymbol self None)) currentFilePath = Some info ->
        ti_kind info ∈ targetKinds
        /\ (exists q, ti_entityId info = gen (toLowerCase (ti_kind info)) q)
        /\ ti_filePath info
           = normalizeSlashes
               (resolveImportPath currentFilePath (decl_filePath declaration))
        /\ getTargetDeclarationInfo gen resolveImportPath
             (Some (mkSymbol (mkSymbolInfo (sym_name self) [declaration]) None))
             currentFilePath = Some info).
Proof.
  split_and!; [done|done| |].
  - intros self Hnil. unfold getTargetDeclarationInfo. simpl. by rewrite Hnil.
  - intros self declaration declarations info Hdecl Hinfo.
    destruct (getTargetDeclarationInfo_kinds _ _ _ _ _ Hinfo) as [Hk Hid].
    split_and!; [done|done| |].
    + unfold getTargetDeclarationInfo in Hinfo. simpl in Hinfo.
      rewrite Hdecl in Hinfo.
      destruct (classifyDeclaration _ _ _ _ _) as [[tkind tname] base].
      destruct (String.eqb tkind "unknown"); [done|]. by injection Hinfo as <-.
    + unfold getTargetDeclarationInfo in *. simpl in *. by rewrite Hdecl in Hinfo.
Qed.

Lemma getTargetDeclarationInfo_targets_witness :
  exists info,
    getTargetDeclarationInfo generateEntityId pass1ResolveImportPath
      (Some (mkSymbol
               (mkSymbolInfo "Color"
                  [mkDeclaration (EnumMemberShape "Color" "Red") "/src/c.ts" 4;
                   mkDeclaration OtherShape "/src/d.ts" 1])
               None))
      "/src/a.ts" = Some info
    /\ ti_kind info ∈ targetKinds
    /\ (exists q, ti_entityId info = generateEntityId (toLowerCase (ti_kind info)) q)
    /\ ti_filePath info = normalizeSlashes (pass1ResolveImportPath "/src/a.ts" "/src/c.ts")
    /\ getTargetDeclarationInfo generateEntityId pass1ResolveImportPath
         (Some (mkSymbol
                  (mkSymbolInfo "Color"
                     [mkDeclaration (EnumMemberShape "Color" "Red") "/src/c.ts" 4])
                  None))
         "/src/a.ts" = Some info.
Proof.
  eexists. split; [reflexivity|].
  destruct (getTargetDeclarationInfo_targets generateEntityId pass1ResolveImportPath
              "/src/a.ts") as (_ & _ & _ & H).
  exact (H (mkSymbolInfo "Color"
              [mkDeclaration (EnumMemberShape "Color" "Red") "/src/c.ts" 4;
               mkDeclaration OtherShape "/src/d.ts" 1])
           (mkDeclaration (EnumMemberShape "Color" "Red") "/src/c.ts" 4)
           [mkDeclaration OtherShape "/src/d.ts" 1] _ eq_refl eq_refl).
Defined.

(* ================================================================== *)
(** * Component usage *)
(* ================================================================== *)

Lemma parseComponent_Some gen node path now n :
  parseComponent gen node path now = Some n ->
  kind n = "Component"
  /\ startsUpperCase (name n) = true
  /\ entityId n = gen "component" (path +:+ ":" +:+ name n)
  /\ filePath n = path.
Proof.
  unfold parseComponent.
  destruct (cand_name node) as [componentName|] eqn:Hname; [|done].
  destruct (String.eqb componentName ""); [done|].
  destruct (isPotentialComponent node) eqn:Hpot; [|done].
  intros [= <-]. simpl. split_and!; try done.
  unfold isPotentialComponent in Hpot. rewrite Hname in Hpot.
  by destruct (startsUpperCase componentName).
Qed.

(** A reference never resolves to a component: the identifier computed
    for it is not the identifier of a [Component] node. *)
Lemma resolveToIndexedNode_not_component gen resolveImportPath now allNodes
    fileNode sym n :
  ComponentIdsApart gen ->
  (forall n, n ∈ allNodes -> kind n = "Component" ->
     exists node path now', parseComponent gen node path now' = Some n) ->
  resolveToIndexedNode
    (mkResolverContext (JsMap.ofEntries (map (fun n => (entityId n, n)) allNodes))
                       gen resolveImportPath now)
    fileNode sym = Some n ->
  isComponent n = false.
Proof.
  intros Hapart Hcomp. unfold resolveToIndexedNode. simpl.
  destruct (getTargetDeclarationInfo gen resolveImportPath sym (filePath fileNode))
    as [info|] eqn:Hinfo; [|done].
  rewrite get_ofEntries_keyed. intros Hlast.
  destruct (isComponent n) eqn:Hc; [|done]. exfalso.
  apply String.eqb_eq in Hc.
  destruct (getTargetDeclarationInfo_kinds _ _ _ _ _ Hinfo) as [Hk [q Hq]].
  pose proof (lastWith_key _ _ _ _ Hlast) as Hkey.
  apply lastWith_elem_of in Hlast.
  destruct (Hcomp n Hlast Hc) as (node & path & now' & Hparse).
  apply parseComponent_Some in Hparse as (_ & _ & Hid & _).
  apply (Hapart (ti_kind info) q (path +:+ ":" +:+ name n) Hk).
  by rewrite <- Hq, <- Hid.
Qed.

(** X10. The component-usage resolver looks its targets up under the
    identifier [getTargetDeclarationInfo] computes, which is generated
    for one of the seven target kinds, and accepts a node only if its
    kind is [Component]; [parseComponent] records a component under an
    identifier generated for the kind [component]. When the two sorts
    of identifiers are apart and the [Component] nodes of the index
    come from [parseComponent], the resolver submits no edge for any
    file. *)
Theorem resolveTsComponentUsage_finds_no_component
    (gen : EntityIdGenerator) (resolveImportPath : string -> string -> string)
    (now : string) (allNodes : list AstNode) (jsxOf : SourceFile -> list JsxUsage)
    (sourceFile : SourceFile) (fileNode : AstNode) :
  ComponentIdsApart gen ->
  (forall n, n ∈ allNodes -> kind n = "Component" ->
     exists node path now', parseComponent gen node path now' = Some n) ->
  resolveTsComponentUsageOf jsxOf sourceFile fileNode
    (mkResolverContext (JsMap.ofEntries (map (fun n => (entityId n, n)) allNodes))
                       gen resolveImportPath now)
  = [].
Proof.
  intros Hapart Hcomp. unfold resolveTsComponentUsageOf.
  apply concat_nil_Forall, Forall_fmap, Forall_forall. intros jsxNode _. simpl.
  unfold resolveJsxUsage.
  destruct (negb (startsUpperCase (jsx_tagName jsxNode))); [done|].
  pose proof (resolveToIndexedNode_not_component gen resolveImportPath now allNodes
                fileNode (jsx_tagSymbol jsxNode)) as Hnot.
  unfold resolveToIndexedNode in Hnot. simpl in *.
  destruct (getTargetDeclarationInfo gen resolveImportPath (jsx_tagSymbol jsxNode)
              (filePath fileNode)) as [info|]; [|done].
  destruct (JsMap.get (ti_entityId info) _) as [target|]; [|done].
  by rewrite (Hnot target Hapart Hcomp eq_refl).
Qed.

Lemma generateEntityId_components_apart : ComponentIdsApart generateEntityId.
Proof.
  intros k q q' Hk. unfold targetKinds in Hk.
  repeat (apply elem_of_cons in Hk as [->|Hk]); [..|by apply elem_of_nil in Hk];
    intros H; vm_compute in H; congruence.
Qed.

Lemma resolveTsComponentUsage_finds_no_component_witness :
  resolveTsComponentUsageOf Scenario5b.usages Scenario5.app
    (tsFileNode generateEntityId Scenario5.now
       {| sf_filePath := "/src/App.tsx"; sf_languageVariant := Standard;
          sf_endLineNumber := 6; sf_importDeclarations := [];
          sf_functions := []; sf_variableStatements := [];
          sf_exportDeclarations := []; sf_exportAssignments := [] |})
    (mkResolverContext
       (JsMap.ofEntries (map (fun n => (entityId n, n)) Scenario5b.allNodes))
       generateEntityId pass1ResolveImportPath Scenario5.now)
  = [].
Proof.
  apply (resolveTsComponentUsage_finds_no_component generateEntityId
           pass1ResolveImportPath Scenario5.now Scenario5b.allNodes).
  - exact generateEntityId_components_apart.
  - intros n Hn Hkind. vm_compute in Hn.
    repeat (apply elem_of_cons in Hn as [->|Hn]);
      try (by apply elem_of_nil in Hn); try discriminate Hkind.
    + by exists (Scenario5b.candidate "Parent" 1), "/src/App.tsx", Scenario5.now.
    + by exists (Scenario5b.candidate "Child" 4), "/src/App.tsx", Scenario5.now.
Defined.

(* ================================================================== *)
(** * Inheritance, calls and mutations *)
(* ================================================================== *)

Lemma not_indexed context k :
  ~ indexed context k <-> JsMap.get k (nodeIndex context) = None.
Proof.
  unfold indexed. split.
  - intros H. destruct (JsMap.get k (nodeIndex context)); [|done].
    exfalso. apply H. by eexists.
  - intros -> [? ?]. done.
Qed.

Lemma indexed_elem_of gen resolveImportPath now (allNodes : list AstNode) k :
  indexed
    (mkResolverContext (JsMap.ofEntries (map (fun n => (entityId n, n)) allNodes))
                       gen resolveImportPath now) k
  <-> k ∈ map entityId allNodes.
Proof.
  unfold indexed. simpl. rewrite get_ofEntries_keyed. split.
  - intros [n Hn]. apply list_elem_of_fmap. exists n. split.
    + symmetry. by apply lastWith_key in Hn.
    + by apply lastWith_elem_of in Hn.
  - intros Hk. destruct (lastWith entityId k allNodes) eqn:Hl; [by eexists|].
    by apply lastWith_None in Hl.
Qed.

Lemma resolveReference_spec context fileNode type idKind sourceNode expression :
  idKind = toLowerCase type ->
  Forall (fun r =>
            rel_type r = type
            /\ sourceId r = entityId sourceNode
            /\ rel_weight r = Some 9
            /\ FlaggedExactly context r
            /\ idFromEndpoints (rc_generateEntityId context) r)
         (resolveReference context fileNode type idKind sourceNode expression).
Proof.
  intros ->. unfold resolveReference.
  destruct (getTargetDeclarationInfo _ _ _ _) as [targetInfo|]; [|constructor].
  constructor; [|constructor].
  unfold FlaggedExactly, idFromEndpoints, isPlaceholderEdge. simpl.
  rewrite not_indexed. split_and!; try done.
  by destruct (JsMap.get (ti_entityId targetInfo) (nodeIndex context)).
Qed.

Lemma resolveTsInheritance_spec declarationsOf sourceFile fileNode context :
  WellKeyed entityId (nodeIndex context) ->
  Forall (fun r =>
            (rel_type r = "EXTENDS" \/ rel_type r = "IMPLEMENTS")
            /\ indexed context (sourceId r)
            /\ rel_weight r = Some 9
            /\ FlaggedExactly context r
            /\ idFromEndpoints (rc_generateEntityId context) r)
         (resolveTsInheritanceOf declarationsOf sourceFile fileNode context).
Proof.
  intros Hwk. unfold resolveTsInheritanceOf.
  assert (Href : forall type sourceNode expression,
             type = "EXTENDS" \/ type = "IMPLEMENTS" ->
             indexed context (entityId sourceNode) ->
             Forall (fun r =>
                       (rel_type r = "EXTENDS" \/ rel_type r = "IMPLEMENTS")
                       /\ indexed context (sourceId r)
                       /\ rel_weight r = Some 9
                       /\ FlaggedExactly context r
                       /\ idFromEndpoints (rc_generateEntityId context) r)
                    (resolveReference context fileNode type (toLowerCase type)
                                      sourceNode expression)).
  { intros type sourceNode expression Htype Hsrc.
    eapply Forall_impl;
      [apply (resolveReference_spec context fileNode type _ sourceNode expression
                eq_refl)|].
    intros r (Ht & Hs & Hw & Hf & Hid). rewrite Ht, Hs. by split_and!. }
  apply Forall_app. split; apply Forall_concat, Forall_forall; intros l Hl;
    apply list_elem_of_fmap in Hl as (declaration & -> & _).
  - unfold resolveClassInheritance.
    destruct (cd_name declaration) as [className|]; [|constructor].
    destruct (String.eqb className ""); [constructor|].
    destruct (JsMap.get _ (nodeIndex context)) as [classNode|] eqn:Hget;
      [|constructor].
    apply indexed_get in Hget; [|done].
    apply Forall_app. split.
    + destruct (cd_extends declaration) as [baseClassRef|]; [|constructor].
      apply (Href "EXTENDS"); [by left|done].
    + apply Forall_concat, Forall_forall. intros l Hl.
      apply list_elem_of_fmap in Hl as (impl & -> & _).
      apply (Href "IMPLEMENTS"); [by right|done].
  - unfold resolveInterfaceInheritance.
    destruct (String.eqb (id_name declaration) ""); [constructor|].
    destruct (JsMap.get _ (nodeIndex context)) as [interfaceNode|] eqn:Hget;
      [|constructor].
    apply indexed_get in Hget; [|done].
    apply Forall_concat, Forall_forall. intros l Hl.
    apply list_elem_of_fmap in Hl as (baseRef & -> & _).
    apply (Href "EXTENDS"); [by left|done].
Qed.

(** X11. The edges the inheritance resolver submits for a file, with
    the index built from the nodes of Pass 1: each is an [EXTENDS] or
    [IMPLEMENTS] edge of weight 9 that leaves one of the given nodes;
    it carries [isPlaceholder: true] exactly when its target is none
    of the given nodes; and its [entityId] is generated from its type
    and its two ends. *)
Theorem resolveTsInheritance_marks_missing_targets
    (gen : EntityIdGenerator) (resolveImportPath : string -> string -> string)
    (now : string) (allNodes : list AstNode)
    (declarationsOf : SourceFile -> TsDeclarations)
    (sourceFile : SourceFile) (fileNode : AstNode) :
  let context :=
    mkResolverContext (JsMap.ofEntries (map (fun n => (entityId n, n)) allNodes))
                      gen resolveImportPath now in
  Forall
    (fun r =>
       (rel_type r = "EXTENDS" \/ rel_type r = "IMPLEMENTS")
       /\ rel_weight r = Some 9
       /\ sourceId r ∈ map entityId allNodes
       /\ (isPlaceholderEdge r = true <-> targetId r ∉ map entityId allNodes)
       /\ idFromEndpoints gen r)
    (resolveTsInheritanceOf declarationsOf sourceFile fileNode context).
Proof.
  intros context. apply Forall_forall. intros r Hr.
  pose proof (resolveTsInheritance_spec declarationsOf sourceFile fileNode context
                (ofEntries_WellKeyed entityId allNodes)) as Hall.
  rewrite Forall_forall in Hall.
  destruct (Hall r Hr) as (Ht & Hs & Hw & Hf & Hid).
  unfold FlaggedExactly in Hf. unfold context in Hs, Hf.
  rewrite indexed_elem_of in Hs, Hf. by split_and!.
Qed.

Lemma isCrossFileTarget_true sourceNode targetNode :
  isCrossFileTarget sourceNode targetNode = true ->
  exists t, targetNode = Some t /\ filePath t <> filePath sourceNode.
Proof.
  destruct targetNode as [t|]; [|done]. simpl. intros H. exists t. split; [done|].
  apply negb_true_iff in H. by apply String.eqb_neq.
Qed.

Lemma resolveCall_spec sourceNode context callExpr :
  Forall (InteractionEdge context sourceNode) (resolveCall sourceNode context callExpr).
Proof.
  unfold resolveCall.
  destruct (getTargetDeclarationInfo _ _ _ _) as [targetInfo|]; [|constructor].
  constructor; [|constructor].
  unfold InteractionEdge, FlaggedExactly, idFromEndpoints, isPlaceholderEdge,
    isCrossFileEdge. simpl. rewrite not_indexed.
  pose proof (isCrossFileTarget_true sourceNode
                (JsMap.get (ti_entityId targetInfo) (nodeIndex context))) as Hx.
  destruct (JsMap.get (ti_entityId targetInfo) (nodeIndex context)) as [t|];
    simpl in *.
  - split_and!; [done|done| |].
    + left. split_and!; [done| |done].
      by destruct (negb (String.eqb (filePath t) (filePath sourceNode))).
    + destruct (negb (String.eqb (filePath t) (filePath sourceNode))); [|done].
      intros _. destruct (Hx eq_refl) as (t' & [= <-] & Hne). by exists t.
  - split_and!; [done|done| |done]. left. by split_and!.
Qed.

Lemma resolveAssignment_spec sourceNode context assignment :
  Forall (InteractionEdge context sourceNode)
         (resolveAssignment sourceNode context assignment).
Proof.
  unfold resolveAssignment.
  destruct (getTargetDeclarationInfo _ _ _ _) as [targetInfo|]; [|constructor].
  constructor; [|constructor].
  unfold InteractionEdge, FlaggedExactly, idFromEndpoints, isPlaceholderEdge,
    isCrossFileEdge. simpl. rewrite not_indexed.
  pose proof (isCrossFileTarget_true sourceNode
                (JsMap.get (ti_entityId targetInfo) (nodeIndex context))) as Hx.
  destruct (JsMap.get (ti_entityId targetInfo) (nodeIndex context)) as [t|];
    simpl in *.
  - split_and!; [done|done| |].
    + right. left. by split_and!.
    + destruct (negb (String.eqb (filePath t) (filePath sourceNode))); [|done].
      intros _. destruct (Hx eq_refl) as (t' & [= <-] & Hne). by exists t.
  - split_and!; [done|done| |done]. right. left. by split_and!.
Qed.

Lemma resolveCatch_spec sourceNode context catchClause :
  InteractionEdge context sourceNode (resolveCatch sourceNode context catchClause).
Proof.
  unfold resolveCatch, InteractionEdge, idFromEndpoints, isPlaceholderEdge,
    isCrossFileEdge.
  destruct (catch_binding catchClause); simpl;
    (split_and!; [done|done| |done]); right; right; by split_and!.
Qed.

Lemma analyzeTsBodyInteractions_spec body sourceNode context :
  Forall (InteractionEdge context sourceNode)
         (analyzeTsBodyInteractions body sourceNode context).
Proof.
  unfold analyzeTsBodyInteractions. repeat (apply Forall_app; split).
  - apply Forall_concat, Forall_forall. intros l Hl.
    apply list_elem_of_fmap in Hl as (c & -> & _). apply resolveCall_spec.
  - apply Forall_concat, Forall_forall. intros l Hl.
    apply list_elem_of_fmap in Hl as (a & -> & _). apply resolveAssignment_spec.
  - apply Forall_fmap, Forall_forall. intros c _. apply resolveCatch_spec.
Qed.

Lemma resolveTsCrossFileInteractions_spec bodiesOf sourceFile fileNode context :
  Forall (fun r =>
            exists sourceNode k,
              JsMap.get k (nodeIndex context) = Some sourceNode
              /\ InteractionEdge context sourceNode r)
         (resolveTsCrossFileInteractionsOf bodiesOf sourceFile fileNode context).
Proof.
  unfold resolveTsCrossFileInteractionsOf.
  apply Forall_app. split; apply Forall_concat, Forall_forall; intros l Hl;
    apply list_elem_of_fmap in Hl as (owner & -> & _);
    unfold resolveOwner;
    (destruct (owner_body owner) as [body|]; [|constructor]);
    (destruct (resolveToIndexedNode context fileNode (owner_symbol owner))
       as [sourceNode|] eqn:Hsrc; [|constructor]);
    unfold resolveToIndexedNode in Hsrc;
    (destruct (getTargetDeclarationInfo _ _ _ _) as [info|]; [|done]);
    (eapply Forall_impl; [apply analyzeTsBodyInteractions_spec|]);
    intros r Hr; by exists sourceNode, (ti_entityId info).
Qed.

(** X12. The edges submitted for the bodies of the function
    declarations and method declarations of a file, with the index
    built from the nodes of Pass 1. Each is a [CALLS] edge of weight 6
    when it is marked cross-file and 7 otherwise, a [MUTATES_STATE]
    edge of weight 8 or a [HANDLES_ERROR] edge of weight 5; it leaves
    one of the given nodes and its [entityId] is generated from its
    type and its two ends. A [CALLS] or [MUTATES_STATE] edge carries
    [isPlaceholder: true] exactly when its target is none of the given
    nodes, and [isCrossFile: true] only when its target is a given node
    of another file than its source. *)
Theorem resolveTsCrossFileInteractions_edges
    (gen : EntityIdGenerator) (resolveImportPath : string -> string -> string)
    (now : string) (allNodes : list AstNode) (bodiesOf : SourceFile -> TsBodies)
    (sourceFile : SourceFile) (fileNode : AstNode) :
  let context :=
    mkResolverContext (JsMap.ofEntries (map (fun n => (entityId n, n)) allNodes))
                      gen resolveImportPath now in
  Forall
    (fun r =>
       idFromEndpoints gen r
       /\ (rel_type r = "CALLS"
             /\ rel_weight r = Some (if isCrossFileEdge r then 6 else 7)
           \/ rel_type r = "MUTATES_STATE" /\ rel_weight r = Some 8
           \/ rel_type r = "HANDLES_ERROR" /\ rel_weight r = Some 5)
       /\ (rel_type r <> "HANDLES_ERROR" ->
           (isPlaceholderEdge r = true <-> targetId r ∉ map entityId allNodes))
       /\ exists sourceNode,
            sourceNode ∈ allNodes /\ entityId sourceNode = sourceId r
            /\ (isCrossFileEdge r = true ->
                exists targetNode,
                  targetNode ∈ allNodes /\ entityId targetNode = targetId r
                  /\ filePath targetNode <> filePath sourceNode))
    (resolveTsCrossFileInteractionsOf bodiesOf sourceFile fileNode context).
Proof.
  intros context. apply Forall_forall. intros r Hr.
  pose proof (resolveTsCrossFileInteractions_spec bodiesOf sourceFile fileNode
                context) as Hall.
  rewrite Forall_forall in Hall.
  destruct (Hall r Hr) as (sourceNode & k & Hk & Hs & Hid & Hcases & Hx).
  assert (Hget : forall k n,
             JsMap.get k (nodeIndex context) = Some n ->
             n ∈ allNodes /\ entityId n = k).
  { intros k' n Hn. unfold context in Hn. simpl in Hn.
    rewrite get_ofEntries_keyed in Hn. split.
    - by apply lastWith_elem_of in Hn.
    - by apply lastWith_key in Hn. }
  split_and!.
  - exact Hid.
  - destruct Hcases as [(?&?&?)|[(?&?&?)|(?&?&?&?)]]; auto.
  - intros Hne. unfold FlaggedExactly, context in Hcases.
    rewrite indexed_elem_of in Hcases.
    by destruct Hcases as [(?&?&?)|[(?&?&?)|(?&?&?&?)]].
  - exists sourceNode. destruct (Hget _ _ Hk) as [Hin _].
    split_and!; [done|done|].
    intros Hcross. destruct (Hx Hcross) as (t & Ht & Hne).
    exists t. destruct (Hget _ _ Ht) as [? ?]. by split_and!.
Qed.

(* ================================================================== *)
(** * One edge for each type and pair of ends *)
(* ================================================================== *)

Lemma resolveRelationships_submitted others gen resolveImportPath now allNodes
    project :
  NoDup (map rel_entityId
           (resolveRelationships others gen resolveImportPath now allNodes project))
  /\ forall r,
       r ∈ resolveRelationships others gen resolveImportPath now allNodes project ->
       r ∈ allSubmissions others gen resolveImportPath now allNodes project.
Proof.
  unfold resolveRelationships, allSubmissions. simpl. rewrite fold_submitAll.
  split; [apply submitAll_ok, initialResolverState_ok|].
  intros r. rewrite (submitAll_first_wins _ _ _ initialResolverState_ok). simpl.
  intros [H|[_ H]]; [by apply elem_of_nil in H|].
  apply list_elem_of_In. unfold firstWith in H. by apply find_some in H as [? _].
Qed.

Lemma NoDup_fmap_eq {A B : Type} (f : A -> B) (l : list A) x y :
  NoDup (map f l) -> x ∈ l -> y ∈ l -> f x = f y -> x = y.
Proof.
  induction l as [|a l IH]; simpl; intros Hnd Hx Hy Heq.
  - by apply elem_of_nil in Hx.
  - apply NoDup_cons in Hnd as [Ha Hnd].
    apply elem_of_cons in Hx as [->|Hx]; apply elem_of_cons in Hy as [->|Hy].
    + done.
    + exfalso. apply Ha. rewrite Heq. apply list_elem_of_fmap. by exists y.
    + exfalso. apply Ha. rewrite <- Heq. apply list_elem_of_fmap. by exists x.
    + by apply IH.
Qed.

Lemma resolveJsxUsage_id_law fileNode context jsxNode :
  Forall (idFromEndpoints (rc_generateEntityId context))
         (resolveJsxUsage fileNode context jsxNode).
Proof.
  unfold resolveJsxUsage.
  destruct (negb (startsUpperCase (jsx_tagName jsxNode))); [constructor|].
  destruct (getTargetDeclarationInfo _ _ _ _) as [info|]; [|constructor].
  destruct (JsMap.get (ti_entityId info) (nodeIndex context)) as [t|]; [|constructor].
  destruct (negb (isComponent t)); [constructor|].
  destruct (findSourceComponent _ _ _) as [s|]; constructor; [done|constructor].
Qed.

Lemma fileSubmissions_id_law declarationsOf bodiesOf jsxOf project context fileNode :
  WellKeyed entityId (nodeIndex context) ->
  Forall (fun r =>
            rel_type r = "RESOLVES_IMPORT" \/ rel_type r = "EXPORTS"
            \/ idFromEndpoints (rc_generateEntityId context) r)
         (fileSubmissions (tsResolvers declarationsOf bodiesOf jsxOf) project context
                          fileNode).
Proof.
  intros Hwk. unfold fileSubmissions. apply Forall_app. split.
  - destruct (isTsLanguage (language fileNode)); [|constructor].
    destruct (getSourceFile project (filePath fileNode)) as [sourceFile|];
      [|constructor].
    apply Forall_app; split; [|apply Forall_app; split; [|apply Forall_app; split]].
    + eapply Forall_impl; [by apply resolveTsModules_anchored|].
      intros r (Ht & _ & _ & _ & _ & Hid).
      destruct Ht as [Ht|[Ht|Ht]]; auto.
    + eapply Forall_impl; [by apply resolveTsInheritance_spec|].
      intros r (_ & _ & _ & _ & Hid). auto.
    + eapply Forall_impl; [apply resolveTsCrossFileInteractions_spec|].
      intros r (s & k & _ & _ & Hid & _). auto.
    + simpl. unfold resolveTsComponentUsageOf. apply Forall_concat, Forall_forall.
      intros l Hl. apply list_elem_of_fmap in Hl as (j & -> & _).
      eapply Forall_impl; [apply resolveJsxUsage_id_law|]. auto.
  - destruct (isCLanguage (language fileNode)); [|constructor].
    destruct (getSourceFile project (filePath fileNode)) as [sourceFile|];
      [|constructor].
    unfold resolveCIncludes.
    destruct (negb (isCLanguage (language fileNode))); [constructor|].
    apply Forall_concat, Forall_forall. intros l Hl.
    apply list_elem_of_fmap in Hl as (d & -> & _).
    apply Forall_forall. intros r Hr.
    apply resolveIncludeDirective_spec in Hr as (p & _ & _ & ->).
    right. right. reflexivity.
Qed.

(** X13. Pass 2 with the resolvers of ts-resolver.ts returns at most
    one edge for each type and pair of ends, for every type but
    [RESOLVES_IMPORT] and [EXPORTS]: the identifier of such an edge is
    generated from its type and its ends, and a submission whose
    identifier was seen before is dropped. A second call of the same
    target from the same function leaves no edge of its own. *)
Theorem resolveRelationships_one_edge_per_pair_of_ends
    (gen : EntityIdGenerator) (resolveImportPath : string -> string -> string)
    (now : string) (allNodes : list AstNode) (project : Project)
    (declarationsOf : SourceFile -> TsDeclarations)
    (bodiesOf : SourceFile -> TsBodies) (jsxOf : SourceFile -> list JsxUsage) :
  NoDup
    (map (fun r => (rel_type r, sourceId r, targetId r))
         (List.filter
            (fun r => negb (hasType "RESOLVES_IMPORT" r || hasType "EXPORTS" r))
            (resolveRelationships (tsResolvers declarationsOf bodiesOf jsxOf) gen
                                  resolveImportPath now allNodes project))).
Proof.
  set (result := resolveRelationships _ _ _ _ _ _).
  destruct (resolveRelationships_submitted
              (tsResolvers declarationsOf bodiesOf jsxOf) gen resolveImportPath now
              allNodes project) as [Hnd Hsub]. fold result in Hnd, Hsub.
  assert (Hlaw : forall r, r ∈ result ->
             rel_type r = "RESOLVES_IMPORT" \/ rel_type r = "EXPORTS"
             \/ idFromEndpoints gen r).
  { intros r Hr. apply Hsub in Hr. unfold allSubmissions in Hr.
    apply elem_of_concat in Hr as (l & Hr & Hl).
    apply list_elem_of_fmap in Hl as (fileNode & -> & _).
    pose proof (fileSubmissions_id_law declarationsOf bodiesOf jsxOf project
                  (mkResolverContext
                     (JsMap.ofEntries (map (fun n => (entityId n, n)) allNodes))
                     gen resolveImportPath now)
                  fileNode (ofEntries_WellKeyed entityId allNodes)) as Hall.
    rewrite Forall_forall in Hall. exact (Hall r Hr). }
  assert (Hkept : forall r,
             r ∈ List.filter
                   (fun r => negb (hasType "RESOLVES_IMPORT" r || hasType "EXPORTS" r))
                   result ->
             r ∈ result /\ idFromEndpoints gen r).
  { intros r Hr. apply list_elem_of_In, filter_In in Hr as [Hr Hf].
    apply list_elem_of_In in Hr. split; [done|].
    apply negb_true_iff, orb_false_iff in Hf as [Hf1 Hf2].
    apply String.eqb_neq in Hf1, Hf2.
    by destruct (Hlaw r Hr) as [?|[?|?]]. }
  apply NoDup_fmap_2_strong.
  - intros r1 r2 H1 H2 Heq. injection Heq as Htype Hsource Htarget.
    destruct (Hkept r1 H1) as [Hr1 Hid1]. destruct (Hkept r2 H2) as [Hr2 Hid2].
    apply (NoDup_fmap_eq rel_entityId result); [done|done|done|].
    unfold idFromEndpoints in *. by rewrite Hid1, Hid2, Htype, Hsource, Htarget.
  - apply NoDup_ListNoDup, List.NoDup_filter, NoDup_ListNoDup.
    by apply NoDup_fmap_1 in Hnd.
Qed.

(* ================================================================== *)
(** * Classes, interfaces and type aliases, seen from Pass 2 *)
(* ================================================================== *)

Lemma orElse_nonempty s fallback : s <> "" -> orElse s fallback = s.
Proof. intros Hs. unfold orElse. apply String.eqb_neq in Hs. by rewrite Hs. Qed.

(** X14. For a named class, a named interface, their named methods, a
    named type alias and a named enum of a source file, the identifier
    Pass 2 computes for a reference to the declaration is the
    [entityId] of the node Pass 1 recorded for it, whenever the
    resolver maps the file to the path Pass 1 used; a reference to an
    enum member gets the identifier of the enum. *)
Theorem declaration_entityIds_agree_between_passes
    (gen : EntityIdGenerator) (resolveImportPath : string -> string -> string)
    (sourceFile : SourceFile) (now : string) (currentFilePath : string) :
  let fileNode := tsFileNode gen now sourceFile in
  let ctx := mkParserContext sourceFile fileNode gen now in
  let path := sf_filePath sourceFile in
  let referenced sym :=
    referencedEntityId gen resolveImportPath sym currentFilePath in
  normalizeSlashes (resolveImportPath currentFilePath path) = filePath fileNode ->
  (forall d n line,
     cd_name d = Some n -> n <> "" ->
     referenced (declarationSymbol n (ClassShape (Some n)) path line)
     = Some (entityId (classNodeOf ctx d)))
  /\ (forall d n md line,
        cd_name d = Some n -> n <> "" -> md_name md <> "" ->
        referenced (declarationSymbol (md_name md)
                      (MethodShape (md_name md) (Some (Some n))) path line)
        = Some (entityId (classMethodNodeOf ctx (classNodeOf ctx d) md)))
  /\ (forall d line,
        id_name d <> "" ->
        referenced (declarationSymbol (id_name d) (InterfaceShape (id_name d))
                                      path line)
        = Some (entityId (interfaceNodeOf ctx d)))
  /\ (forall d ms line,
        id_name d <> "" -> ms_name ms <> "" ->
        referenced (declarationSymbol (ms_name ms)
                      (MethodShape (ms_name ms) (Some (Some (id_name d))))
                      path line)
        = Some (entityId (interfaceMethodNodeOf ctx (interfaceNodeOf ctx d) ms)))
  /\ (forall d n fallback props line,
        nd_name d = Some n ->
        referenced (declarationSymbol n (TypeAliasShape n) path line)
        = Some (entityId (typeAliasNodeOf ctx fallback props d))
        /\ referenced (declarationSymbol n (EnumShape n) path line)
           = Some (entityId (typeAliasNodeOf ctx fallback props d))
        /\ forall member,
             referenced (declarationSymbol member (EnumMemberShape n member)
                                           path line)
             = Some (entityId (typeAliasNodeOf ctx fallback props d))).
Proof.
  intros fileNode ctx path referenced Hpath.
  unfold referenced, referencedEntityId, declarationSymbol, getTargetDeclarationInfo.
  split_and!.
  - intros d n line Hn Hne. simpl. rewrite Hpath. simpl.
    by rewrite Hn, (orElse_nonempty _ _ Hne).
  - intros d n md line Hn Hne Hm. simpl. rewrite Hpath. simpl.
    rewrite Hn. simpl. rewrite (orElse_nonempty _ _ Hne), (orElse_nonempty _ _ Hm).
    by rewrite ?append_assoc.
  - intros d line Hne. simpl. rewrite Hpath. simpl.
    by rewrite (orElse_nonempty _ _ Hne).
  - intros d ms line Hne Hm. simpl. rewrite Hpath. simpl.
    rewrite (orElse_nonempty _ _ Hne), (orElse_nonempty _ _ Hm).
    by rewrite ?append_assoc.
  - intros d n fallback props line Hn. simpl. rewrite Hpath. simpl. rewrite Hn.
    by split_and!.
Qed.

Lemma declaration_entityIds_agree_between_passes_witness :
  referencedEntityId generateEntityId pass1ResolveImportPath
    (declarationSymbol "Shape" (ClassShape (Some "Shape")) "/src/b.ts" 7) "/src/a.ts"
  = Some (entityId
            (classNodeOf Scenario1.fileBContext
               (mkClassDeclaration (Some "Shape") true 7 9 0 ["export"] [] None [])))
  /\ entityId
       (classNodeOf Scenario1.fileBContext
          (mkClassDeclaration (Some "Shape") true 7 9 0 ["export"] [] None []))
     = "class:/src/b.ts:Shape".
Proof.
  split; [|reflexivity].
  destruct (declaration_entityIds_agree_between_passes generateEntityId
              pass1ResolveImportPath Scenario1.fileB Scenario1.now "/src/a.ts"
              eq_refl) as (H & _).
  apply H; [reflexivity|discriminate].
Defined.

(* ================================================================== *)
(** * Pass 1 leaves no dangling edge *)
(* ================================================================== *)

Lemma ClosedWith_weaken k required r :
  ClosedWith (k :: required) r -> ClosedWith required r.
Proof. intros [Hc Hr]. split; [done|]. by apply Forall_cons in Hr as [_ ?]. Qed.

Lemma ClosedWith_addNode n required r :
  ClosedWith required r -> ClosedWith (entityId n :: required) (addNode n r).
Proof.
  intros [Hc Hr]. unfold ClosedWith, Closed, nodeIds, addNode in *. simpl.
  rewrite map_app. split.
  - eapply Forall_impl; [exact Hc|]. simpl. intros rel [Hs Ht].
    split; apply elem_of_app; by left.
  - constructor.
    + apply elem_of_app. right. simpl. by apply list_elem_of_singleton.
    + eapply Forall_impl; [exact Hr|]. simpl. intros k Hk.
      apply elem_of_app. by left.
Qed.

Lemma ClosedWith_addRel rel required r :
  ClosedWith required r -> sourceId rel ∈ required -> targetId rel ∈ required ->
  ClosedWith required (addRel rel r).
Proof.
  intros [Hc Hr] Hs Ht. unfold ClosedWith, Closed, nodeIds, addRel in *. simpl.
  split; [|done]. apply Forall_app. split; [done|].
  rewrite Forall_forall in Hr. constructor; [|constructor]. split; by apply Hr.
Qed.

Lemma ClosedWith_fold {A : Type}
    (f : SingleFileParseResult -> A -> SingleFileParseResult) (l : list A) required :
  (forall r x, ClosedWith required r -> ClosedWith required (f r x)) ->
  forall r, ClosedWith required r -> ClosedWith required (fold_left f l r).
Proof.
  intros Hf. induction l as [|x l IH]; intros r Hr; simpl; [done|].
  apply IH. by apply Hf.
Qed.

Lemma parseParameters_closed ctx parameters parentNode required r :
  entityId parentNode ∈ required ->
  ClosedWith required r ->
  ClosedWith required (parseParameters ctx parameters parentNode r).
Proof.
  intros Hparent. unfold parseParameters. apply ClosedWith_fold.
  intros r' param Hr'. unfold parseParameter.
  destruct (existsb _ (res_nodes r')); [done|].
  eapply ClosedWith_weaken. apply ClosedWith_addRel.
  - by apply ClosedWith_addNode.
  - simpl. apply elem_of_cons. by right.
  - simpl. apply elem_of_cons. by left.
Qed.

Lemma parseImports_closed ctx required r :
  entityId (pc_fileNode ctx) ∈ required ->
  ClosedWith required r -> ClosedWith required (parseImports ctx r).
Proof.
  intros Hfile. unfold parseImports. apply ClosedWith_fold.
  intros r' d Hr'. unfold parseImport.
  eapply ClosedWith_weaken. apply ClosedWith_addRel.
  - by apply ClosedWith_addNode.
  - simpl. apply elem_of_cons. by right.
  - simpl. apply elem_of_cons. by left.
Qed.

Lemma parseFunctions_closed ctx required r :
  ClosedWith required r -> ClosedWith required (parseFunctions ctx r).
Proof.
  unfold parseFunctions. apply ClosedWith_fold.
  intros r' d Hr'. unfold parseFunction.
  eapply ClosedWith_weaken. apply parseParameters_closed.
  - apply elem_of_cons. by left.
  - by apply ClosedWith_addNode.
Qed.

Lemma parseVariables_closed ctx required r :
  ClosedWith required r -> ClosedWith required (parseVariables ctx r).
Proof.
  unfold parseVariables. apply ClosedWith_fold.
  intros r' s Hr'. unfold parseVariableStatement. revert r' Hr'.
  apply ClosedWith_fold. intros r' d Hr'.
  destruct (vd_initializerIsFunction d); [done|].
  eapply ClosedWith_weaken. by apply ClosedWith_addNode.
Qed.

Lemma parseClasses_closed declarationsOf ctx required r :
  ClosedWith required r -> ClosedWith required (parseClassesOf declarationsOf ctx r).
Proof.
  unfold parseClassesOf. apply ClosedWith_fold.
  intros r' d Hr'. eapply ClosedWith_weaken.
  unfold parseClassMethods. apply ClosedWith_fold.
  - intros r'' md Hr''. eapply ClosedWith_weaken. apply parseParameters_closed.
    + apply elem_of_cons. by left.
    + apply ClosedWith_addRel.
      * by apply ClosedWith_addNode.
      * simpl. apply elem_of_cons. right. apply elem_of_cons. by left.
      * simpl. apply elem_of_cons. by left.
  - by apply ClosedWith_addNode.
Qed.

Lemma parseInterfaces_closed declarationsOf ctx required r :
  ClosedWith required r ->
  ClosedWith required (parseInterfacesOf declarationsOf ctx r).
Proof.
  unfold parseInterfacesOf. apply ClosedWith_fold.
  intros r' d Hr'. eapply ClosedWith_weaken.
  unfold parseInterfaceMethods. apply ClosedWith_fold.
  - intros r'' ms Hr''. eapply ClosedWith_weaken. apply parseParameters_closed.
    + apply elem_of_cons. by left.
    + apply ClosedWith_addRel.
      * by apply ClosedWith_addNode.
      * simpl. apply elem_of_cons. right. apply elem_of_cons. by left.
      * simpl. apply elem_of_cons. by left.
  - by apply ClosedWith_addNode.
Qed.

Lemma parseTypeAliases_closed declarationsOf ctx required r :
  ClosedWith required r ->
  ClosedWith required (parseTypeAliasesOf declarationsOf ctx r).
Proof.
  intros Hr. unfold parseTypeAliasesOf.
  apply ClosedWith_fold.
  - intros r' d Hr'. eapply ClosedWith_weaken. by apply ClosedWith_addNode.
  - revert r Hr. apply ClosedWith_fold.
    intros r' d Hr'. eapply ClosedWith_weaken. by apply ClosedWith_addNode.
Qed.

Lemma parseTsSourceFile_closed declarationsOf parseJsx gen now sourceFile :
  sf_languageVariant sourceFile = Standard
  \/ (forall ctx r, Closed r -> Closed (parseJsx ctx r)) ->
  Closed (parseTsSourceFile (tsParsers declarationsOf parseJsx) gen now sourceFile).
Proof.
  intros Hjsx. unfold parseTsSourceFile. simpl.
  set (fileNode := tsFileNode gen now sourceFile).
  set (ctx := mkParserContext sourceFile fileNode gen now).
  assert (H0 : ClosedWith [entityId fileNode]
                 (mkResult (normalizeSlashes (sf_filePath sourceFile)) [fileNode] [])).
  { split; [constructor|]. constructor; [|constructor].
    unfold nodeIds. simpl. by apply list_elem_of_singleton. }
  assert (H : ClosedWith [entityId fileNode]
                (parseTypeAliasesOf declarationsOf ctx
                   (parseInterfacesOf declarationsOf ctx
                      (parseVariables ctx
                         (parseClassesOf declarationsOf ctx
                            (parseFunctions ctx
                               (parseImports ctx
                                  (mkResult (normalizeSlashes (sf_filePath sourceFile))
                                            [fileNode] [])))))))).
  { apply parseTypeAliases_closed, parseInterfaces_closed, parseVariables_closed,
      parseClasses_closed, parseFunctions_closed, parseImports_closed; [|done].
    simpl. by apply list_elem_of_singleton. }
  destruct H as [Hc _].
  destruct (sf_languageVariant sourceFile) eqn:Hv; simpl; [done|].
  destruct Hjsx as [?|Hjsx]; [done|]. by apply Hjsx.
Qed.

Lemma parseTsProjectFiles_values_Forall others gen now project targets
    (P : SingleFileParseResult -> Prop) :
  (forall sourceFile, sourceFile ∈ project ->
     P (parseTsSourceFile others gen now sourceFile)) ->
  Forall P (JsMap.values (parseTsProjectFiles others gen now project targets)).
Proof.
  unfold parseTsProjectFiles.
  assert (H : forall acc : JsMap.t SingleFileParseResult,
             (forall sourceFile, sourceFile ∈ project ->
                P (parseTsSourceFile others gen now sourceFile)) ->
             Forall P (JsMap.values acc) ->
             Forall P
               (JsMap.values
                  (fold_left
                     (fun tsResults sourceFile =>
                        let path := normalizeSlashes (sf_filePath sourceFile) in
                        if existsb (String.eqb path) targets
                        then JsMap.set path
                               (parseTsSourceFile others gen now sourceFile)
                               tsResults
                        else tsResults)
                     project acc))).
  { induction project as [|sf project IH]; intros acc HP Hacc; simpl; [done|].
    apply IH.
    - intros sf' Hsf'. apply HP. apply elem_of_cons. by right.
    - destruct (existsb _ targets); [|done].
      apply set_values_Forall; [|done]. apply HP. apply elem_of_cons. by left. }
  intros HP. apply H; [done|constructor].
Qed.

(** The merge keeps every identifier and takes every relationship from
    one of the results. *)
Lemma collectResults_members tempFiles tsResults :
  (forall k, k ∈ map entityId (processedNodes tempFiles tsResults) ->
             k ∈ map entityId (fst (collectResults tempFiles tsResults)))
  /\ (forall rel, rel ∈ snd (collectResults tempFiles tsResults) ->
                  rel ∈ processedRelationships tempFiles tsResults).
Proof.
  unfold collectResults, processedNodes, processedRelationships. simpl.
  rewrite collectMaps_fold.
  destruct (fold_addFileResult (processedResults tempFiles tsResults) emptyCollected)
    as ((Hn & Hr) & Hgn & Hgr).
  { split; apply NoDup_nil_2. }
  split.
  - intros k Hk.
    destruct (lastWith entityId k
                (concat (map res_nodes (processedResults tempFiles tsResults))))
      as [n|] eqn:Hl.
    + apply list_elem_of_fmap. exists n. split.
      * symmetry. by apply lastWith_key in Hl.
      * unfold JsMap.values. apply list_elem_of_fmap. exists (k, n).
        split; [done|]. apply JsMapFacts.elem_of_entries; [done|].
        by rewrite Hgn, Hl.
    + by apply lastWith_None in Hl.
  - intros rel. unfold JsMap.values. intros Hin.
    apply list_elem_of_fmap in Hin as ([k x] & -> & Hin). simpl.
    apply JsMapFacts.elem_of_entries in Hin; [|done].
    rewrite Hgr in Hin.
    destruct (lastWith rel_entityId k _) eqn:Hl; [|done].
    injection Hin as <-. by apply lastWith_elem_of in Hl.
Qed.

Lemma collectResults_closed tempFiles tsResults :
  Forall Closed (processedResults tempFiles tsResults) ->
  Forall (fun rel =>
            sourceId rel ∈ map entityId (fst (collectResults tempFiles tsResults))
            /\ targetId rel ∈ map entityId (fst (collectResults tempFiles tsResults)))
         (snd (collectResults tempFiles tsResults)).
Proof.
  intros Hclosed. destruct (collectResults_members tempFiles tsResults) as [Hids Hrels].
  apply Forall_forall. intros rel Hrel. apply Hrels in Hrel.
  unfold processedRelationships in Hrel.
  apply elem_of_concat in Hrel as (rels & Hrel & Hrels').
  apply list_elem_of_fmap in Hrels' as (r & -> & Hr).
  rewrite Forall_forall in Hclosed. pose proof (Hclosed r Hr) as Hc.
  unfold Closed in Hc. rewrite Forall_forall in Hc.
  destruct (Hc rel Hrel) as [Hs Ht].
  assert (Hsub : forall k, k ∈ nodeIds r ->
                 k ∈ map entityId (processedNodes tempFiles tsResults)).
  { intros k Hk. unfold nodeIds in Hk.
    apply list_elem_of_fmap in Hk as (n & -> & Hn).
    apply list_elem_of_fmap. exists n. split; [done|].
    unfold processedNodes. apply elem_of_concat. exists (res_nodes r).
    split; [done|]. apply list_elem_of_fmap. by exists r. }
  split; apply Hids, Hsub; done.
Qed.

(** X15. Pass 1 stores no dangling edge. The result of parsing a
    TypeScript or JavaScript source file (its imports, functions,
    classes, variables, interfaces, type aliases and enums, with their
    methods and parameters) is closed: both ends of each of its
    relationships are nodes of the same result. The merge keeps this:
    when the results read from the temporary directory are closed too,
    both ends of every merged relationship are merged nodes. Files of
    the JSX variant also go through the JSX parser, which is assumed to
    keep a result closed. *)
Theorem pass1_leaves_no_dangling_edge
    (declarationsOf : SourceFile -> TsDeclarations)
    (parseJsx : ParserContext -> SingleFileParseResult -> SingleFileParseResult)
    (gen : EntityIdGenerator) (now : string) (project : Project)
    (targetFiles : list string) (tempFiles : list TempFile) :
  Forall (fun sourceFile => sf_languageVariant sourceFile = Standard) project
  \/ (forall ctx r, Closed r -> Closed (parseJsx ctx r)) ->
  Forall Closed (processedResults tempFiles JsMap.empty) ->
  let tsResults :=
    parseTsProjectFiles (tsParsers declarationsOf parseJsx) gen now project
                        targetFiles in
  Forall Closed (JsMap.values tsResults)
  /\ Forall (fun rel =>
               sourceId rel ∈ map entityId (fst (collectResults tempFiles tsResults))
               /\ targetId rel
                  ∈ map entityId (fst (collectResults tempFiles tsResults)))
            (snd (collectResults tempFiles tsResults)).
Proof.
  intros Hjsx Htemp tsResults.
  assert (Hts : Forall Closed (JsMap.values tsResults)).
  { apply parseTsProjectFiles_values_Forall. intros sourceFile Hsf.
    apply parseTsSourceFile_closed. destruct Hjsx as [Hstd|Hjsx]; [left|by right].
    rewrite Forall_forall in Hstd. by apply Hstd. }
  split; [exact Hts|].
  apply collectResults_closed. unfold processedResults in *.
  simpl in Htemp. rewrite app_nil_r in Htemp.
  apply Forall_app. split; [exact Htemp|exact Hts].
Qed.

Lemma pass1_leaves_no_dangling_edge_witness :
  Forall Closed (JsMap.values Scenario2.tsResults)
  /\ Forall (fun rel =>
               sourceId rel
               ∈ map entityId (fst (collectResults [] Scenario2.tsResults))
               /\ targetId rel
                  ∈ map entityId (fst (collectResults [] Scenario2.tsResults)))
            (snd (collectResults [] Scenario2.tsResults)).
Proof.
  apply (pass1_leaves_no_dangling_edge Scenario2.declarationsOf Scenario2.noJsx
           generateEntityId Scenario1.now Scenario1.project
           ["/src/a.ts"; "/src/b.ts"] []).
  - left. repeat constructor.
  - constructor.
Defined.

(** Scenario 2, both passes: the relationships of Pass 1 and of Pass 2.
    The two calls of [funcB] leave one [CALLS] edge, with the call site
    of the first; the interface that is not analyzed is a placeholder. *)
Example scenario2_relationships :
  map Scenario2.summary (snd (collectResults [] Scenario2.tsResults))
  = [("IMPORTS", "file:/src/a.ts", "import:/src/a.ts:./b:2", false);
     ("HAS_METHOD", "class:/src/b.ts:Shape", "method:/src/b.ts:Shape.area", false);
     ("HAS_PARAMETER", "method:/src/b.ts:Shape.area",
      "parameter:method:/src/b.ts:Shape.area:scale", false)]
  /\ map Scenario2.summary Scenario2.pass2Relationships
     = [("IMPORTS", "file:/src/a.ts", "file:/src/b.ts", false);
        ("EXTENDS", "class:/src/a.ts:Circle", "class:/src/b.ts:Shape", false);
        ("IMPLEMENTS", "class:/src/a.ts:Circle", "interface:/src/lib.ts:Drawable",
         true);
        ("CALLS", "function:/src/a.ts:funcA:3", "function:/src/b.ts:funcB:2", false)]
  /\ map (fun r => (opt_prop "callSiteLine" (rel_properties r),
                    opt_prop "isConditional" (rel_properties r),
                    opt_prop "isCrossFile" (rel_properties r), rel_weight r))
         (List.filter (hasType "CALLS") Scenario2.pass2Relationships)
     = [(JNumber 4, JBool false, JBool true, Some 6)].
Proof. vm_compute. done. Qed.

(* ================================================================== *)
(** * The nodes of a parsed file *)
(* ================================================================== *)

Lemma HeadedBy_addNode fileNode n r :
  OwnedBy fileNode n -> HeadedBy fileNode r -> HeadedBy fileNode (addNode n r).
Proof.
  intros Hn (Hp & rest & Hnodes & Hrest). split; [done|].
  exists (rest ++ [n]). unfold addNode. simpl. rewrite Hnodes. split; [done|].
  apply Forall_app. split; [done|]. by constructor.
Qed.

Lemma HeadedBy_addRel fileNode rel r :
  HeadedBy fileNode r -> HeadedBy fileNode (addRel rel r).
Proof.
  intros (Hp & rest & Hnodes & Hrest). split; [done|]. exists rest. by split.
Qed.

Lemma HeadedBy_fold {A : Type} fileNode
    (f : SingleFileParseResult -> A -> SingleFileParseResult) (l : list A) :
  (forall r x, HeadedBy fileNode r -> HeadedBy fileNode (f r x)) ->
  forall r, HeadedBy fileNode r -> HeadedBy fileNode (fold_left f l r).
Proof.
  intros Hf. induction l as [|x l IH]; intros r Hr; simpl; [done|].
  apply IH. by apply Hf.
Qed.

Ltac owned :=
  unfold OwnedBy, declarationKinds; simpl; split_and!; [done|done|in_list].

Lemma parseParameters_headed fileNode ctx parameters parentNode r :
  filePath parentNode = filePath fileNode ->
  HeadedBy fileNode r ->
  HeadedBy fileNode (parseParameters ctx parameters parentNode r).
Proof.
  intros Hparent. unfold parseParameters. apply HeadedBy_fold.
  intros r' param Hr'. unfold parseParameter.
  destruct (existsb _ (res_nodes r')); [done|].
  apply HeadedBy_addRel, HeadedBy_addNode; [owned|done].
Qed.

Lemma parseTsSourceFile_headed declarationsOf parseJsx gen now sourceFile :
  sf_languageVariant sourceFile = Standard ->
  HeadedBy (tsFileNode gen now sourceFile)
           (parseTsSourceFile (tsParsers declarationsOf parseJsx) gen now sourceFile).
Proof.
  intros Hstd. unfold parseTsSourceFile. simpl. rewrite Hstd. simpl.
  set (fileNode := tsFileNode gen now sourceFile).
  set (ctx := mkParserContext sourceFile fileNode gen now).
  assert (Hpath : filePath (pc_fileNode ctx) = filePath fileNode) by done.
  assert (H0 : HeadedBy fileNode
                 (mkResult (normalizeSlashes (sf_filePath sourceFile)) [fileNode] [])).
  { split; [done|]. exists []. by split. }
  assert (H1 : HeadedBy fileNode (parseImports ctx
                 (mkResult (normalizeSlashes (sf_filePath sourceFile)) [fileNode] []))).
  { revert H0. unfold parseImports. apply HeadedBy_fold. intros r d Hr.
    unfold parseImport. apply HeadedBy_addRel, HeadedBy_addNode; [owned|done]. }
  assert (H2 : forall r, HeadedBy fileNode r -> HeadedBy fileNode (parseFunctions ctx r)).
  { intros r. unfold parseFunctions. apply HeadedBy_fold. intros r' d Hr'.
    unfold parseFunction. apply parseParameters_headed.
    - unfold functionNodeOf. by destruct (functionIdentity d) as [[[? ?] [[? ?] ?]] ?].
    - apply HeadedBy_addNode; [|done].
      unfold functionNodeOf. destruct (functionIdentity d) as [[[? ?] [[? ?] ?]] ?].
      owned. }
  assert (H3 : forall r, HeadedBy fileNode r ->
                 HeadedBy fileNode (parseClassesOf declarationsOf ctx r)).
  { intros r. unfold parseClassesOf. apply HeadedBy_fold. intros r' d Hr'.
    unfold parseClassMethods. apply HeadedBy_fold.
    - intros r'' md Hr''. apply parseParameters_headed; [done|].
      apply HeadedBy_addRel, HeadedBy_addNode; [owned|done].
    - apply HeadedBy_addNode; [owned|done]. }
  assert (H4 : forall r, HeadedBy fileNode r -> HeadedBy fileNode (parseVariables ctx r)).
  { intros r. unfold parseVariables. apply HeadedBy_fold. intros r' s Hr'.
    unfold parseVariableStatement. revert r' Hr'. apply HeadedBy_fold.
    intros r' d Hr'. destruct (vd_initializerIsFunction d); [done|].
    apply HeadedBy_addNode; [owned|done]. }
  assert (H5 : forall r, HeadedBy fileNode r ->
                 HeadedBy fileNode (parseInterfacesOf declarationsOf ctx r)).
  { intros r. unfold parseInterfacesOf. apply HeadedBy_fold. intros r' d Hr'.
    unfold parseInterfaceMethods. apply HeadedBy_fold.
    - intros r'' ms Hr''. apply parseParameters_headed; [done|].
      apply HeadedBy_addRel, HeadedBy_addNode; [owned|done].
    - apply HeadedBy_addNode; [owned|done]. }
  assert (H6 : forall r, HeadedBy fileNode r ->
                 HeadedBy fileNode (parseTypeAliasesOf declarationsOf ctx r)).
  { intros r Hr. unfold parseTypeAliasesOf. apply HeadedBy_fold.
    - intros r' d Hr'. apply HeadedBy_addNode; [owned|done].
    - revert r Hr. apply HeadedBy_fold. intros r' d Hr'.
      apply HeadedBy_addNode; [owned|done]. }
  by apply H6, H5, H4, H3, H2.
Qed.

(** X16. The result of Pass 1 for a source file of the standard
    language variant: it is stored under the normalized path of the
    file; its first node is the File node and no other node has the
    kind [File]; every other node has the file's path, the language
    [TypeScript] and one of the kinds Import, Function, Parameter,
    Class, Method, Variable, Interface and TypeAlias; and the kind of
    every node is a label of the schema. *)
Theorem parseTsSourceFile_nodes_belong_to_the_file
    (declarationsOf : SourceFile -> TsDeclarations)
    (parseJsx : ParserContext -> SingleFileParseResult -> SingleFileParseResult)
    (gen : EntityIdGenerator) (now : string) (sourceFile : SourceFile) :
  sf_languageVariant sourceFile = Standard ->
  let r := parseTsSourceFile (tsParsers declarationsOf parseJsx) gen now sourceFile in
  let fileNode := tsFileNode gen now sourceFile in
  res_filePath r = normalizeSlashes (sf_filePath sourceFile)
  /\ (exists rest,
        res_nodes r = fileNode :: rest
        /\ Forall (fun n => filePath n = res_filePath r
                            /\ language n = "TypeScript"
                            /\ kind n ∈ declarationKinds
                            /\ kind n <> "File") rest)
  /\ Forall (fun n => kind n ∈ NODE_LABELS) (res_nodes r).
Proof.
  intros Hstd r fileNode.
  destruct (parseTsSourceFile_headed declarationsOf parseJsx gen now sourceFile Hstd)
    as (Hp & rest & Hnodes & Hrest).
  fold r in Hp, Hnodes. fold fileNode in Hp, Hnodes, Hrest.
  split_and!; [done| |].
  - exists rest. split; [done|]. eapply Forall_impl; [exact Hrest|]. simpl.
    intros n (Hf & Hl & Hk). rewrite Hp. split_and!; try done.
    intros Hfile. rewrite Hfile in Hk. unfold declarationKinds in Hk.
    repeat (apply elem_of_cons in Hk as [Hk|Hk]; [discriminate Hk|]).
    by apply elem_of_nil in Hk.
  - rewrite Hnodes. constructor.
    + simpl. in_list.
    + eapply Forall_impl; [exact Hrest|]. simpl. intros n (_ & _ & Hk).
      unfold declarationKinds in Hk.
      repeat (apply elem_of_cons in Hk as [->|Hk]); [in_list..|].
      by apply elem_of_nil in Hk.
Qed.

Lemma parseTsSourceFile_nodes_belong_to_the_file_witness :
  map kind (res_nodes (parseTsSourceFile
                         (tsParsers Scenario2.declarationsOf Scenario2.noJsx)
                         generateEntityId Scenario1.now Scenario1.fileB))
  = ["File"; "Function"; "Class"; "Method"; "Parameter"]
  /\ Forall (fun n => kind n ∈ NODE_LABELS)
            (res_nodes (parseTsSourceFile
                          (tsParsers Scenario2.declarationsOf Scenario2.noJsx)
                          generateEntityId Scenario1.now Scenario1.fileB)).
Proof.
  split; [reflexivity|].
  apply (parseTsSourceFile_nodes_belong_to_the_file Scenario2.declarationsOf
           Scenario2.noJsx generateEntityId Scenario1.now Scenario1.fileB eq_refl).
Defined.

(* ================================================================== *)
(** * Pass 2: every edge leaves a node of Pass 1 *)
(* ================================================================== *)

Lemma flagged_or_indexed context r :
  FlaggedExactly context r ->
  indexed context (targetId r) \/ isPlaceholderEdge r = true.
Proof.
  intros Hf. unfold FlaggedExactly in Hf. rewrite not_indexed in Hf.
  unfold indexed. destruct (JsMap.get (targetId r) (nodeIndex context)).
  - left. by eexists.
  - right. by apply Hf.
Qed.

Lemma findSourceComponent_indexed context fileNode enclosing n :
  WellKeyed entityId (nodeIndex context) ->
  findSourceComponent context fileNode enclosing = Some n ->
  indexed context (entityId n).
Proof.
  intros Hwk. induction enclosing as [|ancestor enclosing IH]; simpl; [done|].
  unfold resolveToComponent.
  destruct (resolveToIndexedNode context fileNode ancestor) as [c|] eqn:Hc;
    [|exact IH].
  destruct (isComponent c); [|exact IH].
  intros [= <-]. by eapply resolveToIndexedNode_indexed.
Qed.

Lemma resolveJsxUsage_grounded fileNode context jsxNode :
  WellKeyed entityId (nodeIndex context) ->
  Forall (Grounded context) (resolveJsxUsage fileNode context jsxNode).
Proof.
  intros Hwk. unfold resolveJsxUsage.
  destruct (negb (startsUpperCase (jsx_tagName jsxNode))); [constructor|].
  destruct (getTargetDeclarationInfo _ _ _ _) as [info|]; [|constructor].
  destruct (JsMap.get (ti_entityId info) (nodeIndex context)) as [t|] eqn:Ht;
    [|constructor].
  destruct (negb (isComponent t)); [constructor|].
  destruct (findSourceComponent _ _ _) as [s|] eqn:Hs; constructor; [|constructor].
  split; simpl.
  - by eapply findSourceComponent_indexed.
  - left. unfold indexed. rewrite Ht. by eexists.
Qed.

Lemma fileSubmissions_grounded declarationsOf bodiesOf jsxOf project context fileNode :
  WellKeyed entityId (nodeIndex context) ->
  indexed context (entityId fileNode) ->
  Forall (Grounded context)
         (fileSubmissions (tsResolvers declarationsOf bodiesOf jsxOf) project context
                          fileNode).
Proof.
  intros Hwk Hfile. unfold fileSubmissions. apply Forall_app. split.
  - destruct (isTsLanguage (language fileNode)); [|constructor].
    destruct (getSourceFile project (filePath fileNode)) as [sourceFile|];
      [|constructor].
    apply Forall_app; split; [|apply Forall_app; split; [|apply Forall_app; split]].
    + eapply Forall_impl; [by apply resolveTsModules_anchored|].
      intros r (Ht & Hs & Hsi & Hti & _ & _). split.
      * destruct Ht as [Ht|[Ht|Ht]].
        -- rewrite Hs; [done|]. by rewrite Ht.
        -- by apply Hsi.
        -- rewrite Hs; [done|]. by rewrite Ht.
      * destruct (isPlaceholderEdge r); [by right; left|]. left. by apply Hti.
    + eapply Forall_impl; [by apply resolveTsInheritance_spec|].
      intros r (_ & Hs & _ & Hf & _). split; [done|].
      destruct (flagged_or_indexed _ _ Hf); auto.
    + eapply Forall_impl; [apply resolveTsCrossFileInteractions_spec|].
      intros r (s & k & Hk & Hs & _ & Hcases & _). split.
      * rewrite Hs. by eapply indexed_get.
      * destruct Hcases as [(_ & _ & Hf)|[(_ & _ & Hf)|(Ht & _)]];
          [destruct (flagged_or_indexed _ _ Hf); auto..|auto].
    + simpl. unfold resolveTsComponentUsageOf. apply Forall_concat, Forall_forall.
      intros l Hl. apply list_elem_of_fmap in Hl as (j & -> & _).
      by apply resolveJsxUsage_grounded.
  - destruct (isCLanguage (language fileNode)); [|constructor].
    destruct (getSourceFile project (filePath fileNode)) as [sourceFile|];
      [|constructor].
    unfold resolveCIncludes.
    destruct (negb (isCLanguage (language fileNode))); [constructor|].
    apply Forall_concat, Forall_forall. intros l Hl.
    apply list_elem_of_fmap in Hl as (d & -> & _).
    apply Forall_forall. intros r Hr.
    apply resolveIncludeDirective_spec in Hr as (p & _ & _ & ->).
    split; [done|]. right. left. reflexivity.
Qed.

(** The edges of Pass 2 and the nodes of Pass 1. *)
Lemma resolveRelationships_grounded
    (gen : EntityIdGenerator) (resolveImportPath : string -> string -> string)
    (now : string) (allNodes : list AstNode) (project : Project)
    (declarationsOf : SourceFile -> TsDeclarations)
    (bodiesOf : SourceFile -> TsBodies) (jsxOf : SourceFile -> list JsxUsage) :
  Forall
    (fun r =>
       sourceId r ∈ map entityId allNodes
       /\ (targetId r ∈ map entityId allNodes
           \/ isPlaceholderEdge r = true
           \/ rel_type r = "HANDLES_ERROR"))
    (resolveRelationships (tsResolvers declarationsOf bodiesOf jsxOf) gen
                          resolveImportPath now allNodes project).
Proof.
  apply Forall_forall. intros r Hr.
  apply (resolveRelationships_submitted
           (tsResolvers declarationsOf bodiesOf jsxOf) gen resolveImportPath now
           allNodes project) in Hr.
  unfold allSubmissions in Hr.
  set (context := mkResolverContext _ gen resolveImportPath now) in Hr.
  apply elem_of_concat in Hr as (l & Hr & Hl).
  apply list_elem_of_fmap in Hl as (fileNode & -> & Hfile).
  apply list_elem_of_In, filter_In in Hfile as [Hfile _].
  apply list_elem_of_In in Hfile.
  assert (Hwk : WellKeyed entityId (nodeIndex context))
    by apply ofEntries_WellKeyed.
  assert (Hidx : indexed context (entityId fileNode)).
  { unfold indexed. exists fileNode.
    by apply (WellKeyed_values entityId _ Hwk). }
  pose proof (fileSubmissions_grounded declarationsOf bodiesOf jsxOf project context
                fileNode Hwk Hidx) as Hall.
  rewrite Forall_forall in Hall. destruct (Hall r Hr) as [Hs Ht].
  unfold context in Hs, Ht. rewrite !indexed_elem_of in *. by split.
Qed.

(** X17. Every edge Pass 2 returns, with the resolvers of
    ts-resolver.ts and the include resolver, leaves one of the nodes of
    Pass 1. It arrives at one of them too, unless it carries
    [isPlaceholder: true] or is a [HANDLES_ERROR] edge, whose target
    stands for a catch clause and has no node. *)
Theorem pass2_edges_leave_known_nodes
    (gen : EntityIdGenerator) (resolveImportPath : string -> string -> string)
    (now : string) (allNodes : list AstNode) (project : Project)
    (declarationsOf : SourceFile -> TsDeclarations)
    (bodiesOf : SourceFile -> TsBodies) (jsxOf : SourceFile -> list JsxUsage) :
  Forall
    (fun r =>
       sourceId r ∈ map entityId allNodes
       /\ (targetId r ∈ map entityId allNodes
           \/ isPlaceholderEdge r = true
           \/ rel_type r = "HANDLES_ERROR"))
    (resolveRelationships (tsResolvers declarationsOf bodiesOf jsxOf) gen
                          resolveImportPath now allNodes project).
Proof. apply resolveRelationships_grounded. Qed.

(* ================================================================== *)
(** * Pass 2 works through the ts-morph project *)
(* ================================================================== *)

(** X18. Pass 2 submits edges for a file node only when the ts-morph
    project has a source file at the path of that node: this holds for
    the C/C++ include resolver as for the TS/JS resolvers. When no file
    node of the run has a source file in the project, Pass 2 returns no
    relationship. *)
Theorem pass2_needs_a_project_source_file
    (others : OtherTsResolvers) (gen : EntityIdGenerator)
    (resolveImportPath : string -> string -> string) (now : string)
    (allNodes : list AstNode) (project : Project) :
  (forall n, n ∈ allNodes -> isFileKind n = true ->
             getSourceFile project (filePath n) = None) ->
  (forall context fileNode,
     fileNode ∈ allNodes -> isFileKind fileNode = true ->
     fileSubmissions others project context fileNode = [])
  /\ resolveRelationships others gen resolveImportPath now allNodes project = [].
Proof.
  intros Hnone.
  assert (Hsub : forall context fileNode,
             fileNode ∈ allNodes -> isFileKind fileNode = true ->
             fileSubmissions others project context fileNode = []).
  { intros context fileNode Hin Hkind. unfold fileSubmissions.
    rewrite (Hnone fileNode Hin Hkind).
    by destruct (isTsLanguage (language fileNode)),
                (isCLanguage (language fileNode)). }
  split; [exact Hsub|].
  unfold resolveRelationships. rewrite fold_submitAll.
  set (index := JsMap.ofEntries _).
  set (context := mkResolverContext _ _ _ _).
  assert (Hnil : concat (map (fileSubmissions others project context)
                             (List.filter isFileKind (JsMap.values index))) = []).
  { apply concat_nil_Forall. apply Forall_fmap. apply Forall_forall.
    intros n Hn. apply list_elem_of_In, filter_In in Hn as [Hn Hfile].
    apply list_elem_of_In, values_ofEntries_elem_of in Hn.
    rewrite map_map, map_id in Hn. simpl. by apply Hsub. }
  by rewrite Hnil.
Qed.

Lemma pass2_needs_a_project_source_file_witness :
  (forall context fileNode,
     fileNode ∈ [Scenario4.mainFile; Scenario4.includeCircle; Scenario4.circleHeader] ->
     isFileKind fileNode = true ->
     fileSubmissions Scenario1.modulesOnly Scenario1.project context fileNode = [])
  /\ resolveRelationships Scenario1.modulesOnly generateEntityId
       pass1ResolveImportPath Scenario4.now
       [Scenario4.mainFile; Scenario4.includeCircle; Scenario4.circleHeader]
       Scenario1.project
     = [].
Proof.
  apply (pass2_needs_a_project_source_file Scenario1.modulesOnly generateEntityId
           pass1ResolveImportPath Scenario4.now
           [Scenario4.mainFile; Scenario4.includeCircle; Scenario4.circleHeader]
           Scenario1.project).
  intros n Hn _.
  repeat (apply elem_of_cons in Hn as [->|Hn]); try reflexivity.
  by apply elem_of_nil in Hn.
Defined.

(* ================================================================== *)
(** * Cyclomatic complexity: bounds and composition *)
(* ================================================================== *)

Lemma count_le_length {A : Type} (p q : A -> bool) (l : list A) :
  (forall x, p x = true -> q x = false) ->
  0 <= count p l + count q l <= Z.of_nat (length l).
Proof.
  intros Hpq. unfold count.
  induction l as [|x l IH]; simpl; [lia|].
  pose proof (Hpq x) as Hx.
  destruct (p x), (q x); simpl; first [lia | by specialize (Hx eq_refl)].
Qed.

Lemma descendants_Node k cs :
  descendants (Node k cs) = concat (map (fun c => c :: descendants c) cs).
Proof.
  simpl. induction cs as [|c cs IH]; simpl; [done|]. by rewrite IH.
Qed.

(** X19. The complexity of a node is at least 1 and at most 1 plus the
    number of its descendants; and it is 1 plus, for each child, what
    the child itself counts for and the complexity of the child less 1.
    So the decision points of a nested function count towards the
    function that encloses it. *)
Theorem calculateCyclomaticComplexity_bounds_and_composition :
  (forall n,
     1 <= calculateCyclomaticComplexity (Some n)
       <= 1 + Z.of_nat (length (descendants n)))
  /\ (forall k cs,
        calculateCyclomaticComplexity (Some (Node k cs))
        = 1 + foldr Z.add 0
                (map (fun c => complexityStep c 0
                               + (calculateCyclomaticComplexity (Some c) - 1))
                     cs)).
Proof.
  split.
  - intros n. simpl. rewrite forEachDescendant_complexity.
    pose proof (count_le_length isBranchingKind isLogicalBinary (descendants n)) as H.
    assert (Hdisj : forall x, isBranchingKind x = true -> isLogicalBinary x = false).
    { intros x. unfold isBranchingKind, isLogicalBinary.
      by destruct (getKind x) as [| | | | | | | | |[]|]. }
    specialize (H Hdisj). lia.
  - intros k cs. unfold calculateCyclomaticComplexity.
    rewrite forEachDescendant_complexity, descendants_Node.
    induction cs as [|c cs IH]; simpl; [unfold count; simpl; lia|].
    rewrite !count_cons, !count_app, forEachDescendant_complexity,
      complexityStep_count. lia.
Qed.

(* ================================================================== *)
(** * The names of callbacks *)
(* ================================================================== *)

Lemma replaceUnit_identifier (c : Z) : isIdentifierChar (replaceUnit c) = true.
Proof.
  unfold replaceUnit. destruct (isIdentifierUnit c) eqn:Hc; [|reflexivity].
  unfold isIdentifierUnit in Hc. unfold isIdentifierChar. cbv zeta.
  rewrite ?orb_true_iff, ?andb_true_iff, ?Z.leb_le, ?Z.eqb_eq in Hc.
  rewrite Ascii.nat_ascii_embedding by lia.
  rewrite ?orb_true_iff, ?andb_true_iff, ?Nat.leb_le, ?Nat.eqb_eq. lia.
Qed.

Lemma replaceNonIdentifier_units (s : JsChars) :
  String.list_ascii_of_string (replaceNonIdentifier s) = map replaceUnit s.
Proof. induction s as [|c s IH]; simpl; [done|]. by rewrite IH. Qed.

Lemma substring_0_spec (m : nat) (s : string) :
  String.list_ascii_of_string (String.substring 0 m s)
  = take m (String.list_ascii_of_string s).
Proof.
  revert s. induction m as [|m IH]; intros [|c s]; simpl; try done.
  by rewrite IH.
Qed.

Lemma length_list_ascii s :
  length (String.list_ascii_of_string s) = String.length s.
Proof. induction s as [|c s IH]; simpl; [done|]. by rewrite IH. Qed.

(** X20. The name [parseFunctions] gives a function expression or
    arrow function. When a variable declaration encloses it (the
    nearest one counts, also when the function is not its initializer
    but lies deeper inside it, as an argument of a call for instance),
    it is recorded under the name of that variable, at the position of
    the variable declaration and with the export flag of the variable
    statement, and it is not a callback. When no variable declaration
    encloses it but a call expression does, it is recorded as a
    callback named [callback_<callee>_arg<index>], not exported, at its
    own position; [<index>] is its position among the arguments of the
    nearest enclosing call (-1 when it is not one of them) and
    [<callee>] has one character for each of the first 30 UTF-16 code
    units of the text of the called expression: the code unit itself
    when it is an ASCII letter, a digit or an underscore, and an
    underscore otherwise. *)
Theorem callback_name_has_a_safe_callee_part (declaration : FunctionLike) :
  fl_kind declaration <> FunctionDeclarationKind ->
  (forall variableDecl n,
     fl_variableDecl declaration = Some variableDecl ->
     va_name variableDecl = Some n ->
     functionIdentity declaration
     = (n, default false (va_statementExported variableDecl),
        (va_startLine variableDecl, va_endLine variableDecl,
         va_startColumn variableDecl),
        false))
  /\ (forall callExprArg,
        fl_variableDecl declaration = None ->
        fl_callExprArg declaration = Some callExprArg ->
        exists safe,
          functionIdentity declaration
          = ("callback_" +:+ safe +:+ "_arg" +:+ num (ca_argIndex callExprArg),
             false,
             (fl_startLine declaration, fl_endLine declaration,
              fl_startColumn declaration),
             true)
          /\ String.length safe
             = Nat.min 30 (length (ca_calleeText callExprArg))
          /\ Forall (fun c => isIdentifierChar c = true)
                    (String.list_ascii_of_string safe)
          /\ Forall2 (fun c c' =>
                        c' = if isIdentifierUnit c
                             then Ascii.ascii_of_nat (Z.to_nat c)
                             else Ascii.ascii_of_nat 95)
                     (take 30 (ca_calleeText callExprArg))
                     (String.list_ascii_of_string safe)).
Proof.
  intros Hkind. split.
  - intros variableDecl n Hvar Hname. unfold functionIdentity.
    rewrite Hvar, Hname. by destruct (fl_kind declaration).
  - intros callExprArg Hvar Hcall.
    exists (String.substring 0 30
              (replaceNonIdentifier (ca_calleeText callExprArg))).
    split_and!.
    + unfold functionIdentity. rewrite Hvar, Hcall.
      by destruct (fl_kind declaration).
    + rewrite <- length_list_ascii, substring_0_spec, length_take,
        replaceNonIdentifier_units, length_map. lia.
    + rewrite substring_0_spec, replaceNonIdentifier_units.
      apply Forall_take, Forall_fmap, Forall_forall. intros c _.
      apply replaceUnit_identifier.
    + rewrite substring_0_spec, replaceNonIdentifier_units.
      rewrite <- fmap_take. apply Forall2_fmap_r, Forall_Forall2_diag, Forall_forall.
      by intros c _.
Qed.

Lemma callback_name_has_a_safe_callee_part_witness :
  (exists safe,
     functionIdentity
       {| fl_kind := ArrowFunctionKind; fl_name := None; fl_isExported := false;
          fl_startLine := 4; fl_endLine := 4; fl_startColumn := 14;
          fl_variableDecl := None;
          fl_callExprArg := Some (mkCallAncestor (codeUnits "items.map") 0);
          fl_modifiers := []; fl_parameters := [];
          fl_node := leaf "ArrowFunction" |}
     = ("callback_" +:+ safe +:+ "_arg" +:+ num 0, false, (4, 4, 14), true)
     /\ String.length safe = Nat.min 30 (length (codeUnits "items.map"))
     /\ Forall (fun c => isIdentifierChar c = true)
               (String.list_ascii_of_string safe)
     /\ Forall2 (fun c c' =>
                   c' = if isIdentifierUnit c
                        then Ascii.ascii_of_nat (Z.to_nat c)
                        else Ascii.ascii_of_nat 95)
                (take 30 (codeUnits "items.map"))
                (String.list_ascii_of_string safe))
  /\ functionIdentity
       {| fl_kind := ArrowFunctionKind; fl_name := None; fl_isExported := false;
          fl_startLine := 4; fl_endLine := 4; fl_startColumn := 20;
          fl_variableDecl := Some (mkVariableAncestor (Some "r") (Some false) 4 4 6);
          fl_callExprArg := Some (mkCallAncestor (codeUnits "items.map") 0);
          fl_modifiers := []; fl_parameters := [];
          fl_node := leaf "ArrowFunction" |}
     = ("r", false, (4, 4, 6), false).
Proof.
  split.
  - refine (proj2 (callback_name_has_a_safe_callee_part
                     {| fl_kind := ArrowFunctionKind; fl_name := None;
                        fl_isExported := false;
                        fl_startLine := 4; fl_endLine := 4; fl_startColumn := 14;
                        fl_variableDecl := None;
                        fl_callExprArg :=
                          Some (mkCallAncestor (codeUnits "items.map") 0);
                        fl_modifiers := []; fl_parameters := [];
                        fl_node := leaf "ArrowFunction" |} _)
                  (mkCallAncestor (codeUnits "items.map") 0) eq_refl eq_refl).
    discriminate.
  - refine (proj1 (callback_name_has_a_safe_callee_part
                     {| fl_kind := ArrowFunctionKind; fl_name := None;
                        fl_isExported := false;
                        fl_startLine := 4; fl_endLine := 4; fl_startColumn := 20;
                        fl_variableDecl :=
                          Some (mkVariableAncestor (Some "r") (Some false) 4 4 6);
                        fl_callExprArg :=
                          Some (mkCallAncestor (codeUnits "items.map") 0);
                        fl_modifiers := []; fl_parameters := [];
                        fl_node := leaf "ArrowFunction" |} _)
                  (mkVariableAncestor (Some "r") (Some false) 4 4 6) "r"
                  eq_refl eq_refl).
    discriminate.
Defined.

(** The names of three callbacks: an argument of [items.map], a
    function expression that lies inside the call of [run] without
    being one of its arguments, and an argument of a function whose
    name is the Greek letter lambda (the code unit 955). And the arrow
    function of [const r = items.map(x => x)], which is recorded under
    the name of the variable. *)
Example callback_names :
  fst (fst (fst (functionIdentity
      {| fl_kind := ArrowFunctionKind; fl_name := None; fl_isExported := false;
         fl_startLine := 4; fl_endLine := 4; fl_startColumn := 14;
         fl_variableDecl := None;
         fl_callExprArg := Some (mkCallAncestor (codeUnits "items.map") 0);
         fl_modifiers := []; fl_parameters := [];
         fl_node := leaf "ArrowFunction" |})))
  = "callback_items_map_arg0"
  /\ fst (fst (fst (functionIdentity
       {| fl_kind := FunctionExpressionKind; fl_name := None; fl_isExported := false;
          fl_startLine := 9; fl_endLine := 9; fl_startColumn := 2;
          fl_variableDecl := None;
          fl_callExprArg := Some (mkCallAncestor (codeUnits "run") (-1));
          fl_modifiers := []; fl_parameters := [];
          fl_node := leaf "FunctionExpression" |})))
     = "callback_run_arg-1"
  /\ fst (fst (fst (functionIdentity
       {| fl_kind := ArrowFunctionKind; fl_name := None; fl_isExported := false;
          fl_startLine := 2; fl_endLine := 2; fl_startColumn := 2;
          fl_variableDecl := None;
          fl_callExprArg := Some (mkCallAncestor [955] 0);
          fl_modifiers := []; fl_parameters := [];
          fl_node := leaf "ArrowFunction" |})))
     = "callback___arg0"
  /\ functionIdentity
       {| fl_kind := ArrowFunctionKind; fl_name := None; fl_isExported := false;
          fl_startLine := 4; fl_endLine := 4; fl_startColumn := 20;
          fl_variableDecl := Some (mkVariableAncestor (Some "r") (Some false) 4 4 6);
          fl_callExprArg := Some (mkCallAncestor (codeUnits "items.map") 0);
          fl_modifiers := []; fl_parameters := [];
          fl_node := leaf "ArrowFunction" |}
     = ("r", false, (4, 4, 6), false).
Proof. split_and!; reflexivity. Qed.

(* ================================================================== *)
(** * Python results and the merge *)
(* ================================================================== *)



(* ================================================================== *)
(** * The stored properties of a node *)
(* ================================================================== *)

Lemma keys_filter_sub {V : Type} (p : string * V -> bool) (m : JsMap.t V) k :
  k ∈ JsMap.keys (List.filter p m) -> k ∈ JsMap.keys m.
Proof.
  unfold JsMap.keys. intros Hk. apply list_elem_of_fmap in Hk as (e & -> & He).
  apply list_elem_of_In, filter_In in He as [He _].
  apply list_elem_of_fmap. exists e. split; [done|]. by apply list_elem_of_In.
Qed.

Lemma keys_NoDup_filter {V : Type} (p : string * V -> bool) (m : JsMap.t V) :
  NoDup (JsMap.keys m) -> NoDup (JsMap.keys (List.filter p m)).
Proof.
  induction m as [|[k v] m IH]; simpl; [done|].
  intros [Hk Hm]%NoDup_cons. destruct (p (k, v)); simpl; [|by apply IH].
  apply NoDup_cons. split; [|by apply IH].
  intros Hin. apply Hk. by eapply keys_filter_sub.
Qed.

Lemma get_filter {V : Type} (p : string * V -> bool) (m : JsMap.t V) k :
  NoDup (JsMap.keys m) ->
  JsMap.get k (List.filter p m)
  = match JsMap.get k m with
    | Some v => if p (k, v) then Some v else None
    | None => None
    end.
Proof.
  induction m as [|[k' v'] m IH]; simpl; [done|].
  intros [Hk Hm]%NoDup_cons.
  destruct (String.eqb_spec k' k) as [->|Hne].
  - destruct (p (k, v')); simpl; [by rewrite String.eqb_refl|].
    apply JsMapFacts.get_None_keys. intros Hin. apply Hk.
    by eapply keys_filter_sub.
  - destruct (p (k', v')); simpl; [|by apply IH].
    apply String.eqb_neq in Hne. rewrite Hne. by apply IH.
Qed.

(** X22. The properties [prepareNodeProperties] hands to the store for
    a node: [entityId] is the [entityId] of the node, whatever the
    nested [properties] hold; no value is [undefined]; for any other
    key, an entry of the nested [properties] takes the place of the
    node's own field of that name, and removes it when its value is
    [undefined]; [kind] and [id] are stored only if the nested
    [properties] have them. *)
Theorem prepareNodeProperties_keeps_the_entityId (node : AstNode) :
  let props := prepareNodeProperties node in
  let nested := default [] (properties node) in
  NoDup (JsMap.keys props)
  /\ JsMap.get "entityId" props = Some (JString (entityId node))
  /\ (forall k v, JsMap.get k props = Some v -> v <> JUndefined)
  /\ (forall k,
        k <> "entityId" ->
        JsMap.get k props
        = match lastWith fst k nested with
          | Some kv => if isUndefined (snd kv) then None else Some (snd kv)
          | None =>
              match lastWith fst k (baseProperties node) with
              | Some kv => if isUndefined (snd kv) then None else Some (snd kv)
              | None => None
              end
          end)
  /\ (forall k,
        k = "kind" \/ k = "id" ->
        k ∉ map fst nested -> JsMap.get k props = None).
Proof.
  intros props nested. unfold props, prepareNodeProperties.
  set (base := JsMap.ofEntries (baseProperties node)).
  set (assigned := match properties node with
                   | Some nestedProperties => objectAssign base nestedProperties
                   | None => base
                   end).
  assert (Hbase : NoDup (JsMap.keys base)) by apply JsMapFacts.keys_NoDup_ofEntries.
  assert (Hassigned : NoDup (JsMap.keys assigned)).
  { unfold assigned. destruct (properties node); [|done].
    by apply (JsMapFacts.keys_NoDup_fold_set fst snd). }
  assert (Hget : forall k,
             JsMap.get k assigned
             = match lastWith fst k nested with
               | Some kv => Some (snd kv)
               | None => snd <$> lastWith fst k (baseProperties node)
               end).
  { intros k. unfold assigned, nested, base.
    assert (Hb : JsMap.get k (JsMap.ofEntries (baseProperties node))
                 = snd <$> lastWith fst k (baseProperties node)).
    { unfold JsMap.ofEntries. rewrite (JsMapFacts.get_fold_set fst snd).
      by destruct (lastWith fst k (baseProperties node)). }
    destruct (properties node) as [nestedProperties|]; simpl.
    - unfold objectAssign. rewrite (JsMapFacts.get_fold_set fst snd).
      by destruct (lastWith fst k nestedProperties).
    - done. }
  assert (Hother : forall k,
             k <> "entityId" ->
             JsMap.get k
               (JsMap.set "entityId" (JString (entityId node))
                  (List.filter (fun kv => negb (isUndefined (snd kv))) assigned))
             = match JsMap.get k assigned with
               | Some v => if isUndefined v then None else Some v
               | None => None
               end).
  { intros k Hk. rewrite JsMapFacts.get_set_ne; [|done].
    rewrite get_filter; [|done]. destruct (JsMap.get k assigned) as [v|]; [|done].
    simpl. by destruct (isUndefined v). }
  split_and!.
  - by apply JsMapFacts.keys_NoDup_set, keys_NoDup_filter.
  - apply JsMapFacts.get_set_eq.
  - intros k v. destruct (String.eqb_spec k "entityId") as [->|Hne].
    + rewrite JsMapFacts.get_set_eq. by intros [= <-].
    + rewrite (Hother k Hne). destruct (JsMap.get k assigned) as [v'|]; [|done].
      destruct v'; simpl; by intros [= <-].
  - intros k Hk. rewrite (Hother k Hk), Hget.
    destruct (lastWith fst k nested); [done|].
    by destruct (lastWith fst k (baseProperties node)).
  - intros k Hk Hnot. assert (Hne : k <> "entityId") by (by destruct Hk as [->| ->]).
    rewrite (Hother k Hne), Hget.
    apply lastWith_None in Hnot. rewrite Hnot.
    by destruct Hk as [->| ->].
Qed.

(* ================================================================== *)
(** * The dispatcher, file by file *)
(* ================================================================== *)

Lemma dispatch_by_extension supportedExtensions file :
  match fst (dispatch supportedExtensions file) with
  | Delegate _ =>
      includes (fi_extension file) parsedExtensions = true
      /\ includes (fi_extension file) tsExtensions = false
  | AddToTsProject =>
      includes (fi_extension file) parsedExtensions = false
      /\ includes (fi_extension file) tsExtensions = true
  | NoParser =>
      includes (fi_extension file) parsedExtensions = false
      /\ includes (fi_extension file) tsExtensions = false
  end.
Proof.
  unfold dispatch, includes, parsedExtensions, tsExtensions. simpl.
  repeat match goal with
         | |- context [String.eqb (fi_extension file) ?l] =>
             let Heq := fresh "Heq" in
             destruct (String.eqb_spec (fi_extension file) l) as [Heq|?];
               [rewrite Heq; by vm_compute|]
         end.
  done.
Qed.

Lemma dispatch_never_informs supportedExtensions file :
  Forall (fun e => isInfo e = false) (snd (dispatch supportedExtensions file)).
Proof.
  unfold dispatch.
  repeat match goal with
         | |- context [if ?b then (Delegate _, _) else _] =>
             destruct b; [constructor|]
         | |- context [if ?b then (AddToTsProject, _) else _] =>
             destruct b; [constructor|]
         end.
  simpl.
  destruct (includes (fi_extension file) _) eqn:Hin; simpl;
    [|by repeat constructor].
  destruct (String.eqb_spec (fi_extension file) ".sql") as [Heq|Hne];
    [|constructor].
  exfalso. unfold includes in Hin. apply existsb_exists in Hin as (e & He & Heq').
  apply filter_In in He as [_ He]. apply String.eqb_eq in Heq'.
  rewrite <- Heq', Heq in He. done.
Qed.

Lemma dispatchFiles_fold supportedExtensions files :
  forall w,
    let w' := fold_left (dispatchFile supportedExtensions) files w in
    tsFilesToAdd w'
    = tsFilesToAdd w
      ++ map fi_path
           (List.filter (fun f => includes (fi_extension f) tsExtensions) files)
    /\ map snd (delegated w')
       = map snd (delegated w)
         ++ List.filter (fun f => includes (fi_extension f) parsedExtensions) files
    /\ dispatchLog w'
       = dispatchLog w ++ concat (map (fun f => snd (dispatch supportedExtensions f))
                                      files).
Proof.
  induction files as [|file files IH]; intros w; simpl.
  - by rewrite !app_nil_r.
  - destruct (IH (dispatchFile supportedExtensions w file)) as (H1 & H2 & H3).
    rewrite H1, H2, H3. clear IH H1 H2 H3.
    pose proof (dispatch_by_extension supportedExtensions file) as Hext.
    unfold dispatchFile.
    destruct (dispatch supportedExtensions file) as [d logged]. simpl in *.
    destruct d as [p| |]; destruct Hext as [-> ->]; simpl;
      rewrite ?map_app, <- ?app_assoc; simpl; done.
Qed.

(** X23. The dispatch loop of [parseFiles] sorts the files by their
    extension alone: the paths added to the TS project are those of
    the files with a TS/JS extension, the files handed to a language
    parser are those with an extension of a parser case, both in the
    order of the scan and whatever the supported extensions are; no
    file goes both ways. The supported extensions only decide about
    warnings: the log holds no other entry, so that the message about
    skipped SQL files is never logged and a [.sql] file gets the
    warning for unsupported files. *)
Theorem dispatchFiles_sorts_by_extension
    (supportedExtensions : list string) (files : list FileInfo) :
  let work := dispatchFiles supportedExtensions files in
  tsFilesToAdd work
  = map fi_path
        (List.filter (fun f => includes (fi_extension f) tsExtensions) files)
  /\ map snd (delegated work)
     = List.filter (fun f => includes (fi_extension f) parsedExtensions) files
  /\ (forall f, includes (fi_extension f) tsExtensions = true ->
                includes (fi_extension f) parsedExtensions = false)
  /\ Forall (fun e => isInfo e = false) (dispatchLog work)
  /\ (forall file,
        fi_extension file = ".sql" ->
        dispatch supportedExtensions file
        = (NoParser,
           [LogWarn ("Unsupported file type: .sql for " +:+ fi_path file)])).
Proof.
  intros work. unfold work, dispatchFiles.
  destruct (dispatchFiles_fold supportedExtensions files (mkPass1Work [] [] []))
    as (H1 & H2 & H3).
  split_and!; [done|done| | |].
  - intros f Hts.
    pose proof (dispatch_by_extension supportedExtensions f) as Hext.
    destruct (fst (dispatch supportedExtensions f)); destruct Hext; congruence.
  - rewrite H3. simpl. apply Forall_concat, Forall_fmap, Forall_forall.
    intros f _. apply dispatch_never_informs.
  - intros file Hsql. unfold dispatch. rewrite Hsql. simpl.
    assert (Hin : includes ".sql"
                    (List.filter (fun e => negb (String.eqb e ".sql"))
                                 supportedExtensions) = false).
    { destruct (includes _ _) eqn:Hin; [|done]. exfalso.
      unfold includes in Hin. apply existsb_exists in Hin as (e & He & Heq).
      apply filter_In in He as [_ He]. apply String.eqb_eq in Heq.
      by rewrite <- Heq in He. }
    by rewrite Hin.
Qed.

(* ================================================================== *)
(** * The results of the TS project, by path *)
(* ================================================================== *)

Lemma fold_left_conditional {A B : Type} (c : A -> bool) (f : B -> A -> B)
    (l : list A) (b : B) :
  fold_left (fun b x => if c x then f b x else b) l b
  = fold_left f (List.filter c l) b.
Proof.
  revert b. induction l as [|x l IH]; intros b; simpl; [done|].
  rewrite IH. by destruct (c x).
Qed.

Lemma lastWith_filter_key {A : Type} (key : A -> string) (c : string -> bool)
    (l : list A) k :
  lastWith key k (List.filter (fun x => c (key x)) l)
  = if c k then lastWith key k l else None.
Proof.
  induction l as [|x l IH] using rev_ind; simpl.
  - by destruct (c k).
  - rewrite List.filter_app, !lastWith_app, IH. simpl.
    destruct (c (key x)) eqn:Hcx.
    + unfold lastWith at 1 3. simpl.
      destruct (String.eqb_spec (key x) k) as [<-|Hne]; [by rewrite Hcx|done].
    + unfold lastWith at 1 3. simpl.
      destruct (String.eqb_spec (key x) k) as [<-|Hne]; [by rewrite Hcx|].
      by destruct (c k).
Qed.

(** X24. The in-memory results of the TS project. A path has a result
    exactly when it is one of the target paths of the run and the
    normalized path of a source file of the project; the result stored
    under it is the parse of the last such source file. A source file
    of the project that is not a target of the run is not parsed. *)
Theorem parseTsProjectFiles_lookup
    (others : OtherTsParsers) (gen : EntityIdGenerator) (now : string)
    (project : Project) (targetFiles : list string) (path : string) :
  NoDup (JsMap.keys (parseTsProjectFiles others gen now project targetFiles))
  /\ JsMap.get path (parseTsProjectFiles others gen now project targetFiles)
     = if includes path targetFiles
       then parseTsSourceFile others gen now
              <$> lastWith normalizedPath path project
       else None.
Proof.
  unfold parseTsProjectFiles.
  rewrite (fold_left_conditional
             (fun sourceFile =>
                existsb (String.eqb (normalizeSlashes (sf_filePath sourceFile)))
                        targetFiles)
             (fun tsResults sourceFile =>
                JsMap.set (normalizeSlashes (sf_filePath sourceFile))
                          (parseTsSourceFile others gen now sourceFile) tsResults)).
  split.
  - apply (JsMapFacts.keys_NoDup_fold_set normalizedPath
             (parseTsSourceFile others gen now)). constructor.
  - rewrite (JsMapFacts.get_fold_set normalizedPath
               (parseTsSourceFile others gen now)).
    rewrite (lastWith_filter_key normalizedPath
               (fun p => existsb (String.eqb p) targetFiles)).
    unfold includes.
    destruct (existsb (String.eqb path) targetFiles); [|done].
    by destruct (lastWith normalizedPath path project).
Qed.

(* ================================================================== *)
(** * Temporary files that are passed over *)
(* ================================================================== *)

Lemma collectJson_passedOver acc f :
  endsWith (tmp_name f) ".json" = true -> passedOver f -> collectJson acc f = acc.
Proof.
  intros Hjson [Hname|[Hnone|(j & Hj & Hbad)]]; unfold collectJson.
  - congruence.
  - by rewrite Hnone.
  - rewrite Hj. unfold json_valid.
    destruct Hbad as [->|[->|[->| ->]]]; try done.
    + by destruct (json_nodes j), (json_relationships j).
    + by destruct (json_filePath j).
    + by destruct (json_filePath j), (json_nodes j).
Qed.

(** X25. [collectResults] passes over a temporary file whose name does
    not end in [.json], that cannot be read or parsed, or whose content
    lacks the file path (or has an empty one), the nodes or the
    relationships: the outcome is the same as without the file. *)
Theorem collectResults_passes_over_invalid_files
    (before after : list TempFile) (f : TempFile)
    (tsResults : JsMap.t SingleFileParseResult) :
  passedOver f ->
  collectResults (before ++ f :: after) tsResults
  = collectResults (before ++ after) tsResults.
Proof.
  intros Hf. unfold collectResults, collectMaps.
  assert (Hfold :
    fold_left collectJson
      (List.filter (fun f => endsWith (tmp_name f) ".json") (before ++ f :: after))
      emptyCollected
    = fold_left collectJson
        (List.filter (fun f => endsWith (tmp_name f) ".json") (before ++ after))
        emptyCollected).
  { rewrite !List.filter_app, !fold_left_app. simpl.
    destruct (endsWith (tmp_name f) ".json") eqn:Hjson; [|done].
    simpl. by rewrite collectJson_passedOver. }
  by rewrite Hfold.
Qed.

Lemma collectResults_passes_over_invalid_files_witness :
  collectResults
    ([] ++ mkTempFile "broken.json"
             (Some (mkParsedJson (Some "") (Some []) (Some []))) :: [])
    Scenario1.tsResults
  = collectResults ([] ++ []) Scenario1.tsResults.
Proof.
  apply (collectResults_passes_over_invalid_files [] []).
  right. right. eexists. split; [reflexivity|]. right. by left.
Defined.

(* ================================================================== *)
(** * The count of intra-file duplicates *)
(* ================================================================== *)

Lemma size_set {V : Type} k (v : V) (m : JsMap.t V) :
  JsMap.size (JsMap.set k v m)
  = if JsMap.has k m then JsMap.size m else S (JsMap.size m).
Proof.
  unfold JsMap.size.
  rewrite <- (length_map fst (JsMap.set k v m)), <- (length_map fst m).
  change (map fst (JsMap.set k v m)) with (JsMap.keys (JsMap.set k v m)).
  rewrite JsMapFacts.keys_set. destruct (JsMap.has k m); [done|].
  rewrite length_app. simpl. unfold JsMap.keys. lia.
Qed.

Lemma has_set {V : Type} k k' (v : V) (m : JsMap.t V) :
  JsMap.has k' (JsMap.set k v m) = (String.eqb k k' || JsMap.has k' m)%bool.
Proof.
  unfold JsMap.has. rewrite JsMapFacts.get_set. by destruct (String.eqb k k').
Qed.

Lemma intraFileDuplicates_fold (nodes : list AstNode) :
  forall (m : JsMap.t AstNode) (d : nat),
    let out :=
      fold_left
        (fun '(m, d) n =>
           (JsMap.set (entityId n) n m,
            if JsMap.has (entityId n) m then S d else d))
        nodes (m, d) in
    fst out = fold_left (fun m n => JsMap.set (entityId n) n m) nodes m
    /\ (JsMap.size (fst out) + snd out = JsMap.size m + d + length nodes)%nat
    /\ (d <= snd out)%nat
    /\ (snd out = d <->
        NoDup (map entityId nodes)
        /\ forall n, n ∈ nodes -> JsMap.has (entityId n) m = false).
Proof.
  induction nodes as [|n nodes IH]; intros m d; simpl.
  - split_and!; [done|lia|lia|]. split; [|done]. intros _.
    split; [constructor|]. intros n Hn. by apply elem_of_nil in Hn.
  - destruct (IH (JsMap.set (entityId n) n m)
                 (if JsMap.has (entityId n) m then S d else d))
      as (H1 & H2 & H3 & H4).
    split_and!; [done| | |].
    + rewrite H2, size_set. destruct (JsMap.has (entityId n) m); lia.
    + destruct (JsMap.has (entityId n) m); lia.
    + destruct (JsMap.has (entityId n) m) eqn:Hhas.
      * split; [lia|]. intros [_ Hall].
        rewrite (Hall n) in Hhas; [done|]. apply elem_of_cons. by left.
      * rewrite H4. split.
        -- intros [Hnd Hall]. split.
           ++ apply NoDup_cons. split; [|done]. intros Hin.
              apply list_elem_of_fmap in Hin as (n' & Heq & Hn').
              specialize (Hall n' Hn'). rewrite has_set, Heq in Hall.
              by rewrite String.eqb_refl in Hall.
           ++ intros n' [->|Hn']%elem_of_cons; [done|].
              specialize (Hall n' Hn'). rewrite has_set in Hall.
              by apply orb_false_iff in Hall as [_ ?].
        -- intros [[Hn Hnd]%NoDup_cons Hall]. split; [done|].
           intros n' Hn'. rewrite has_set. apply orb_false_iff. split.
           ++ apply String.eqb_neq. intros Heq. apply Hn.
              apply list_elem_of_fmap. by exists n'.
           ++ apply Hall. apply elem_of_cons. by right.
Qed.

(** X26. The number of intra-file duplicates that [collectResults]
    counts for a file is the number of its nodes that do not get an
    entry of their own in the map of the file; it is 0 exactly when no
    two nodes of the file share an [entityId]. *)
Theorem intraFileDuplicates_counts_the_dropped_nodes (nodes : list AstNode) :
  (JsMap.size (fileNodeMapOf nodes) + intraFileDuplicates nodes = length nodes)%nat
  /\ (intraFileDuplicates nodes = 0%nat <-> NoDup (map entityId nodes)).
Proof.
  unfold intraFileDuplicates, fileNodeMapOf.
  destruct (intraFileDuplicates_fold nodes JsMap.empty 0%nat) as (H1 & H2 & _ & H4).
  simpl in *. rewrite <- H1. split; [lia|].
  rewrite H4. split; [by intros [? _]|]. intros Hnd. split; [done|]. done.
Qed.

(* ================================================================== *)
(** * The whole run *)
(* ================================================================== *)

Lemma collectResults_nodes_NoDup tempFiles tsResults :
  NoDup (map entityId (fst (collectResults tempFiles tsResults))).
Proof.
  unfold collectResults. simpl. rewrite collectMaps_fold.
  destruct (fold_addFileResult (processedResults tempFiles tsResults) emptyCollected)
    as ((Hn & _) & Hgn & _).
  { split; apply NoDup_nil_2. }
  set (c := fold_left addFileResult _ _) in *.
  assert (Wn : WellKeyed entityId (nodeMap c)).
  { split; [done|]. intros k x Hget. rewrite Hgn in Hget.
    destruct (lastWith entityId k _) eqn:Hl; [|done].
    injection Hget as <-. by apply lastWith_key in Hl. }
  by destruct (WellKeyed_values _ _ Wn).
Qed.

Lemma NoDup_fmap_prefix {A B : Type} (f : A -> B) (l1 l2 : list A) :
  l1 `prefix_of` l2 -> NoDup (map f l2) -> NoDup (map f l1).
Proof.
  intros [k ->]. rewrite map_app. by intros [? _]%NoDup_app.
Qed.

(** X27. A run of [analyze] over TypeScript and JavaScript files of
    the standard variant (or with a JSX parser that keeps results
    closed), with the parsers and resolvers of the TS pipeline and
    closed results in the temporary directory. With a positive batch
    size the run returns; it only appends to the store; no node
    [entityId] and no relationship [entityId] is written twice; and
    when the run completes, every relationship written leaves a node
    written in this run and arrives at one, unless it is marked as a
    placeholder or is a [HANDLES_ERROR] edge. *)
Theorem analyze_stores_relationships_that_hang_on_the_nodes
    (supportedExtensions : list string)
    (declarationsOf : SourceFile -> TsDeclarations)
    (parseJsx : ParserContext -> SingleFileParseResult -> SingleFileParseResult)
    (bodiesOf : SourceFile -> TsBodies) (jsxOf : SourceFile -> list JsxUsage)
    (gen : EntityIdGenerator) (resolveImportPath : string -> string -> string)
    (addSourceFilesAtPaths : list string -> Project)
    (runTransaction : Store -> Commit -> bool) (batchSize : nat)
    (pass1Now pass2Now : string) (scan : option (list FileInfo))
    (tempFiles : list TempFile) (driverReady : bool) (store : Store) :
  (0 < batchSize)%nat ->
  (forall paths,
     Forall (fun sourceFile => sf_languageVariant sourceFile = Standard)
            (addSourceFilesAtPaths paths))
  \/ (forall ctx r, Closed r -> Closed (parseJsx ctx r)) ->
  Forall Closed (processedResults tempFiles JsMap.empty) ->
  exists fuel0, forall fuel, (fuel0 <= fuel)%nat ->
    exists o cs,
      analyze supportedExtensions (tsParsers declarationsOf parseJsx)
              (tsResolvers declarationsOf bodiesOf jsxOf) gen resolveImportPath
              addSourceFilesAtPaths runTransaction batchSize fuel
              pass1Now pass2Now scan tempFiles driverReady store
      = Some o
      /\ storeOf o = store ++ cs
      /\ NoDup (map entityId (writtenNodes cs))
      /\ NoDup (map rel_entityId (writtenRelationships cs))
      /\ (forall s, o = Completed s ->
            Forall (hangsOn (writtenNodes cs)) (writtenRelationships cs)).
Proof.
  intros Hpos Hjsx Htemp.
  assert (Hnothing : forall o : Outcome,
             (o = Completed store \/ o = Threw store) ->
             exists fuel0 : nat, forall fuel, (fuel0 <= fuel)%nat ->
               exists o' cs,
                 Some o = Some o' /\ storeOf o' = store ++ cs
                 /\ NoDup (map entityId (writtenNodes cs))
                 /\ NoDup (map rel_entityId (writtenRelationships cs))
                 /\ (forall s, o' = Completed s ->
                       Forall (hangsOn (writtenNodes cs))
                              (writtenRelationships cs))).
  { intros o Ho. exists 0%nat. intros fuel _. exists o, [].
    rewrite app_nil_r. split_and!; [done| |constructor|constructor|by constructor].
    by destruct Ho as [-> | ->]. }
  unfold analyze.
  destruct scan as [[|file files]|]; [by apply Hnothing; left| |by apply Hnothing; right].
  set (work := dispatchFiles supportedExtensions (file :: files)).
  set (tsResults := parseFilesTs _ _ _ _ _ _).
  set (pass1Relationships := snd (collectResults tempFiles tsResults)).
  remember (fst (collectResults tempFiles tsResults)) as pass1Nodes eqn:Hnodes.
  destruct pass1Nodes as [|n ns]; [by apply Hnothing; left|].
  remember (n :: ns) as pass1Nodes eqn:Hcons. clear Hcons n ns.
  set (pass2Relationships := resolveRelationships _ _ _ _ _ _).
  destruct driverReady; [|by apply Hnothing; right].
  destruct (storeResults_spec runTransaction batchSize pass1Nodes pass1Relationships
              pass2Relationships store Hpos) as [fuel0 Hstore].
  exists fuel0. intros fuel Hfuel.
  destruct (Hstore fuel Hfuel) as (o & cs & Ho & Hs & _ & Hprefix & Hsub & Hnd & Hdone).
  exists o, cs. split_and!; [done|done| |done|].
  - eapply NoDup_fmap_prefix; [exact Hprefix|]. rewrite Hnodes.
    apply collectResults_nodes_NoDup.
  - intros s Hcompleted. destruct (Hdone s Hcompleted) as [Hall _].
    rewrite Hall. apply Forall_forall. intros rel Hrel.
    apply Hsub in Hrel.
    apply (uniqueRelationships_spec (pass1Relationships ++ pass2Relationships))
      in Hrel.
    apply lastWith_elem_of, elem_of_app in Hrel as [Hrel|Hrel].
    + assert (Hclosed : Forall Closed (processedResults tempFiles tsResults)).
      { unfold processedResults in *. simpl in Htemp. rewrite app_nil_r in Htemp.
        apply Forall_app. split; [done|].
        unfold tsResults, parseFilesTs.
        destruct (tsFilesToAdd _); [constructor|].
        apply parseTsProjectFiles_values_Forall. intros sourceFile Hsf.
        apply parseTsSourceFile_closed.
        destruct Hjsx as [Hstd|Hjsx]; [left|by right].
        specialize (Hstd (s0 :: l)). rewrite Forall_forall in Hstd. by apply Hstd. }
      pose proof (collectResults_closed tempFiles tsResults Hclosed) as Hc.
      rewrite Forall_forall in Hc. destruct (Hc rel Hrel) as [Hsrc Htgt].
      rewrite <- Hnodes in *. split; [done|by left].
    + pose proof (resolveRelationships_grounded gen resolveImportPath pass2Now
                    pass1Nodes (addSourceFilesAtPaths (tsFilesToAdd work))
                    declarationsOf bodiesOf jsxOf) as Hg.
      rewrite Forall_forall in Hg. exact (Hg rel Hrel).
Qed.

Lemma analyze_stores_relationships_that_hang_on_the_nodes_witness :
  exists fuel0, forall fuel, (fuel0 <= fuel)%nat ->
    exists o cs,
      analyze defaultSupportedExtensions
              (tsParsers Scenario2.declarationsOf Scenario2.noJsx)
              (tsResolvers Scenario2.declarationsOf Scenario2.bodiesOf (fun _ => []))
              generateEntityId pass1ResolveImportPath
              (fun _ => Scenario1.project) Scenario1.acceptAll 2 fuel
              Scenario1.now Scenario1.now
              (Some [mkFileInfo "/src/a.ts" "a.ts" ".ts";
                     mkFileInfo "/src/b.ts" "b.ts" ".ts"])
              [] true []
      = Some o
      /\ storeOf o = [] ++ cs
      /\ NoDup (map entityId (writtenNodes cs))
      /\ NoDup (map rel_entityId (writtenRelationships cs))
      /\ (forall s, o = Completed s ->
            Forall (hangsOn (writtenNodes cs)) (writtenRelationships cs)).
Proof.
  apply (analyze_stores_relationships_that_hang_on_the_nodes
           defaultSupportedExtensions Scenario2.declarationsOf Scenario2.noJsx
           Scenario2.bodiesOf (fun _ => []) generateEntityId
           pass1ResolveImportPath (fun _ => Scenario1.project)
           Scenario1.acceptAll 2 Scenario1.now Scenario1.now
           (Some [mkFileInfo "/src/a.ts" "a.ts" ".ts";
                  mkFileInfo "/src/b.ts" "b.ts" ".ts"])
           [] true []).
  - lia.
  - left. intros _. repeat constructor.
  - constructor.
Defined.

(** The run of scenario 2 with a store that accepts every batch: the
    run completes with seven batches written, the nodes first, then the
    relationships type by type. *)
Example scenario2_run :
  match analyze defaultSupportedExtensions
          (tsParsers Scenario2.declarationsOf Scenario2.noJsx)
          (tsResolvers Scenario2.declarationsOf Scenario2.bodiesOf (fun _ => []))
          generateEntityId pass1ResolveImportPath
          (fun _ => Scenario1.project) Scenario1.acceptAll 100 100
          Scenario1.now Scenario1.now
          (Some [mkFileInfo "/src/a.ts" "a.ts" ".ts";
                 mkFileInfo "/src/b.ts" "b.ts" ".ts"])
          [] true [] with
  | Some (Completed s) =>
      map (fun c => match c with
                    | NodeBatch b => ("nodes", length b)
                    | RelationshipBatch t b => (t, length b)
                    end) s
  | _ => []
  end
  = [("nodes", 9%nat); ("IMPORTS", 2%nat); ("HAS_METHOD", 1%nat);
     ("HAS_PARAMETER", 1%nat); ("EXTENDS", 1%nat); ("IMPLEMENTS", 1%nat);
     ("CALLS", 1%nat)].
Proof. vm_compute. reflexivity. Qed.

(* ================================================================== *)
(** * C/C++ includes in Pass 2 *)
(* ================================================================== *)





(** Had the ts-morph project held a source file at the path of
    [main.cpp], Pass 2 would have returned one edge for the include of
    scenario 4: a placeholder, although the header is an analyzed
    file. *)
Example scenario4_with_a_source_file_for_main_cpp :
  map (fun rel => (rel_type rel, sourceId rel, targetId rel,
                   opt_prop "isPlaceholder" (rel_properties rel)))
      (resolveRelationships Scenario1.modulesOnly generateEntityId
         pass1ResolveImportPath Scenario4.now Scenario4.nodes
         [{| sf_filePath := "/project/main.cpp"; sf_languageVariant := Standard;
             sf_endLineNumber := 9; sf_importDeclarations := [];
             sf_functions := []; sf_variableStatements := [];
             sf_exportDeclarations := []; sf_exportAssignments := [] |}])
  = [("INCLUDES", "file:/project/main.cpp", "file:shapes/Circle.h", JBool true)].
Proof. reflexivity. Qed.
